(** * Reloadthegraphicsbot: the scraping engine, the user store and
      the front end

    A shallow embedding of [scraper.py], of [data_manager.py] and of
    the utility functions and the [/start] handler of [bot.py].

    The scraper drives a headless browser through Playwright.  Every
    call it makes into Playwright, asyncio or the logger is an [Event]
    appended to a chronological [Trace]; what the outside world answers
    (does the call raise, which URL the page shows, is the element
    visible, ...) is read from an environment [Env] that may look at
    the whole history.  Python code becomes a computation in the monad
    [M] (trace passing plus exceptions), so [try]/[except]/[finally],
    [break] and [continue] are written out.

    Only subclasses of Python's [Exception] are modelled: these are the
    ones the [except Exception] clauses of the source can see. *)

From Stdlib Require Import String Ascii List ZArith Lia Bool Floats.
From stdpp Require Import gmap strings pretty.
Import ListNotations.

Local Open Scope string_scope.
Local Open Scope list_scope.

(** ** Python string operations *)

Module PyStr.

(** [p in s] *)
Fixpoint contains (p s : string) : bool :=
  String.prefix p s ||
  match s with
  | EmptyString => false
  | String _ s' => contains p s'
  end.

(** [s.startswith(p)] *)
Definition startswith (s p : string) : bool := String.prefix p s.

(** [s.endswith(suffix)] *)
Fixpoint endswith (s suffix : string) : bool :=
  String.eqb s suffix ||
  match s with
  | EmptyString => false
  | String _ s' => endswith s' suffix
  end.

(** [s.endswith((x, y, ...))] with a tuple of suffixes *)
Definition endswith_any (s : string) (suffixes : list string) : bool :=
  existsb (endswith s) suffixes.

(** [s.replace(a, b)] for one-character [a] and [b] *)
Fixpoint replace_char (a b : ascii) (s : string) : string :=
  match s with
  | EmptyString => EmptyString
  | String c s' =>
      String (if Ascii.eqb c a then b else c) (replace_char a b s')
  end.

(** [s.isascii()]: every byte of the UTF-8 text is below 128. *)
Fixpoint isascii (s : string) : bool :=
  match s with
  | EmptyString => true
  | String c s' => (nat_of_ascii c <? 128)%nat && isascii s'
  end.

(** [s.lower()] for a string [s] with [s.isascii()]: the letters A-Z
    are mapped to a-z.  The bytes of a character outside ASCII are
    kept as they are, where Python lower-cases by the Unicode tables;
    what is stated of a lower-cased string is stated for ASCII text. *)
Definition lower_char (c : ascii) : ascii :=
  let n := nat_of_ascii c in
  if (65 <=? n)%nat && (n <=? 90)%nat then ascii_of_nat (n + 32) else c.

Fixpoint lower (s : string) : string :=
  match s with
  | EmptyString => EmptyString
  | String c s' => String (lower_char c) (lower s')
  end.

(** Truth value of a string: [if s:] *)
Definition truthy (s : string) : bool :=
  match s with EmptyString => false | _ => true end.

(** Truth value of [None] or a string. *)
Definition truthy_opt (o : option string) : bool :=
  match o with None => false | Some s => truthy s end.

(** [x in [a, b, ...]] for strings *)
Definition mem (x : string) (l : list string) : bool :=
  existsb (String.eqb x) l.

End PyStr.

(** ** Ad blocking: the static denylist *)

Definition AD_DOMAINS_PATTERNS : list string :=
  [ "doubleclick.net"; "googleadservices.com"; "googlesyndication.com";
    "adservice.google.com"; ".cloudfront.net/ads"; "adform.net"; "adsrvr.org";
    "popads.net"; "yllix.com"; "propellerads.com"; "adsterra.com";
    "onclickads.net"; " ट्रैफिकjunky.com"; "exoclick.com"; "ero-advertising.com";
    "juicyads.com"; "plugrush.com"; "bongacams.com"; "chaturbate.com" ].

(** [any(pattern in url for pattern in AD_DOMAINS_PATTERNS)] *)
Definition matches_ad_pattern (url : string) : bool :=
  existsb (fun pattern => PyStr.contains pattern url) AD_DOMAINS_PATTERNS.

Definition BLOCKED_RESOURCE_TYPES : list string :=
  [ "image"; "script"; "iframe"; "media"; "websocket" ].

(** ** Records produced by the scraper *)

(** [{'title', 'poster_url', 'detail_page_url', 'source_site'}] *)
Record SearchResult := mkSearchResult {
  title : string;
  poster_url : string;
  detail_page_url : string;
  source_site : string
}.

(** [{'quality', 'language', 'download_trigger_url'}] *)
Record DownloadOption := mkDownloadOption {
  quality : string;
  language : string;
  download_trigger_url : string
}.

(** An entry of a server's ['identifiers']: a literal string or a
    pattern compiled with [re.I]. *)
Inductive identifier :=
| Literal (text : string)
| Pattern (regex : string).

(** One tier of [server_priority]. *)
Record ServerPref := mkServerPref {
  name : string;
  identifiers : list identifier
}.

(** ** The outside world *)

(** Exceptions the [except] clauses of the source can catch. *)
Inductive exn :=
| PlaywrightTimeoutError (msg : string)
| Exception (msg : string).

(** Playwright objects (driver, browser, context, page, element, route)
    are identified by a number. *)
Definition handle := nat.

(** What [page.locator(selector).first] points at.  The selector built
    from a server identifier keeps the identifier; [selector_text]
    renders it. *)
Inductive selector :=
| Css (text : string)
| ServerElement (i : identifier).

Record Locator := mkLocator {
  loc_page : handle;
  loc_selector : selector
}.

(** Values of the context options dictionary. *)
Inductive optval :=
| OBool (b : bool)
| OStr (s : string).

Inductive loglevel := DEBUG | INFO | WARNING | ERROR.

(** Arguments interpolated into a log message. *)
Inductive logarg :=
| LStr (s : string)
| LNat (n : nat)
| LExn (e : exn)
| LStrs (l : list string)
| LOptions (l : list DownloadOption)
| LIdent (i : identifier).

(** Every call that leaves the Python code. Timeouts are milliseconds;
    [asyncio.sleep] is given in milliseconds too. *)
Inductive Call :=
| PlaywrightStart
| PlaywrightStop (pw : handle)
| ChromiumLaunch (pw : handle) (headless : bool) (args : list string)
| BrowserNewContext (browser : handle) (options : list (string * optval))
| ContextRoute (context : handle) (glob : string)
| ContextOnPage (context : handle)
| ContextNewPage (context : handle)
| ContextClose (context : handle)
| BrowserClose (browser : handle)
| PageClose (page : handle)
| PageGoto (page : handle) (url : string) (timeout : Z) (wait_until : string)
| PageWaitForTimeout (page : handle) (ms : Z)
| PageWaitForLoadState (page : handle) (state : string) (timeout : Z)
| PageQuerySelectorAll (page : handle) (css : string)
| PageBringToFront (page : handle)
| KeyboardPress (page : handle) (key : string)
| LocatorFill (loc : Locator) (value : string) (timeout : Z)
| LocatorClick (loc : Locator) (timeout : Z) (force : bool)
| LocatorIsVisible (loc : Locator) (timeout : Z)
| LocatorGetAttribute (loc : Locator) (attr : string)
| LocatorCount (loc : Locator)
| ElementIsVisible (element : handle)
| ElementFill (element : handle) (value : string) (timeout : Z)
| ExpectPageExit (context : handle) (timeout : Z)
| PageExit (page : handle)
| RouteAbort (route : handle)
| RouteContinue (route : handle)
| AsyncioSleep (ms : Z)
| Log (level : loglevel) (template : string) (args : list logarg).

(** A call together with the exception it raised, if any. *)
Record Event := mkEvent {
  ev_call : Call;
  ev_raised : option exn
}.

(** Chronological: the oldest event first. *)
Definition Trace := list Event.

(** The environment decides, from the history so far, whether a call
    raises and what the read-only queries answer. *)
Record Env := mkEnv {
  env_raises : Trace -> Call -> option exn;
  env_url : Trace -> handle -> string;                     (* page.url *)
  env_pages : Trace -> handle -> list handle;              (* context.pages *)
  env_elements : Trace -> handle -> string -> list handle; (* query_selector_all *)
  env_visible : Trace -> Locator -> bool;                  (* locator.is_visible *)
  env_element_visible : Trace -> handle -> bool;           (* element.is_visible *)
  env_attribute : Trace -> Locator -> string -> option string;
  env_count : Trace -> Locator -> nat
}.

(** ** The monad

    A Python function body is a computation over its local variables
    [S] and the trace.  An exception leaves both as they were when it
    was raised, which is what an [except] or [finally] clause sees. *)

Inductive outcome (A : Type) :=
| Returns (a : A)
| Raises (e : exn).
Arguments Returns {A} a.
Arguments Raises {A} e.

Definition M (S A : Type) : Type := S -> Trace -> outcome A * S * Trace.

Definition ret {S A} (a : A) : M S A := fun s t => (Returns a, s, t).

Definition raise {S A} (e : exn) : M S A := fun s t => (Raises e, s, t).

Definition bind {S A B} (m : M S A) (f : A -> M S B) : M S B :=
  fun s t =>
    match m s t with
    | (Returns a, s1, t1) => f a s1 t1
    | (Raises e, s1, t1) => (Raises e, s1, t1)
    end.

(** Reading and assigning local variables. *)
Definition get {S} : M S S := fun s t => (Returns s, s, t).
Definition gets {S A} (f : S -> A) : M S A := fun s t => (Returns (f s), s, t).
Definition modify {S} (f : S -> S) : M S unit := fun s t => (Returns tt, f s, t).

(** Calling another function: it runs on its own locals [init]. *)
Definition invoke {S S' A} (f : M S' A) (init : S') : M S A :=
  fun s t =>
    match f init t with
    | (r, _, t1) => (r, s, t1)
    end.

(** [try: body  except PlaywrightTimeoutError: on_timeout  except Exception: on_other] *)
Definition try_except {S A} (body : M S A)
    (on_timeout : exn -> M S A) (on_other : exn -> M S A) : M S A :=
  fun s t =>
    match body s t with
    | (Returns a, s1, t1) => (Returns a, s1, t1)
    | (Raises (PlaywrightTimeoutError msg), s1, t1) =>
        on_timeout (PlaywrightTimeoutError msg) s1 t1
    | (Raises (Exception msg), s1, t1) => on_other (Exception msg) s1 t1
    end.

(** [try: body  except Exception: handler] (also the bare [except:]) *)
Definition try_catch {S A} (body : M S A) (handler : exn -> M S A) : M S A :=
  try_except body handler handler.

(** [try: body  except PlaywrightTimeoutError: handler]; any other
    exception passes through. *)
Definition try_timeout {S A} (body : M S A) (handler : exn -> M S A) : M S A :=
  try_except body handler raise.

(** [try: body  finally: final] *)
Definition try_finally {S A} (body : M S A) (final : M S unit) : M S A :=
  fun s t =>
    match body s t with
    | (r, s1, t1) =>
        match final s1 t1 with
        | (Returns _, s2, t2) => (r, s2, t2)
        | (Raises e, s2, t2) => (Raises e, s2, t2)
        end
    end.

Declare Scope monad_scope.
Delimit Scope monad_scope with monad.
Notation "'do' x <- m ; k" := (bind m (fun x => k))
  (at level 10, x name, m at level 100, k at level 200) : monad_scope.
Notation "'do' ' pat <- m ; k" :=
  (bind m (fun x => match x with pat => k end))
  (at level 10, pat pattern, m at level 100, k at level 200) : monad_scope.
Notation "'run' m ; k" := (bind m (fun _ => k))
  (at level 10, m at level 100, k at level 200) : monad_scope.
Local Open Scope monad_scope.

(** Loops: the body says whether the loop goes on ([continue], or the
    end of the body) or stops ([break]). *)
Inductive ctl := Next | Break.

Fixpoint for_each {S X} (xs : list X) (body : X -> M S ctl) : M S unit :=
  match xs with
  | [] => ret tt
  | x :: rest =>
      do c <- body x;
      match c with
      | Break => ret tt
      | Next => for_each rest body
      end
  end.

(** The local variables the four operations share, and the value they
    build ([source_sites], [results], [options], [final_link]). *)
Record Frame (R : Type) := mkFrame {
  playwright : option handle;
  browser : option handle;
  context : option handle;
  page : option handle;
  result : R
}.
Arguments mkFrame {R}.
Arguments playwright {R}.
Arguments browser {R}.
Arguments context {R}.
Arguments page {R}.
Arguments result {R}.

Definition set_session {R} (pw b c p : option handle) (f : Frame R) : Frame R :=
  mkFrame pw b c p (result f).
Definition set_page {R} (p : option handle) (f : Frame R) : Frame R :=
  mkFrame (playwright f) (browser f) (context f) p (result f).
Definition drop_browser {R} (f : Frame R) : Frame R :=
  mkFrame None None (context f) (page f) (result f).
Definition set_result {R} (r : R) (f : Frame R) : Frame R :=
  mkFrame (playwright f) (browser f) (context f) (page f) r.

Definition new_frame {R} (r : R) : Frame R := mkFrame None None None None r.

(** Truth value of a Playwright object or [None]. *)
Definition is_set (o : option handle) : bool :=
  match o with Some _ => true | None => false end.

(** A request handed to the route handler. *)
Record Route := mkRoute {
  route_handle : handle;
  request_url : string;
  request_resource_type : string
}.

Section Scraper.

Variable env : Env.

(** *** Primitive calls *)

Definition call {S} (c : Call) : M S unit :=
  fun s t =>
    match env_raises env t c with
    | Some e => (Raises e, s, t ++ [mkEvent c (Some e)])
    | None => (Returns tt, s, t ++ [mkEvent c None])
    end.

(** A call that creates an object.  The new handle is the position of
    the creating event in the trace, so it is fresh. *)
Definition call_new {S} (c : Call) : M S handle :=
  fun s t =>
    match env_raises env t c with
    | Some e => (Raises e, s, t ++ [mkEvent c (Some e)])
    | None => (Returns (length t), s, t ++ [mkEvent c None])
    end.

(** A value read from the world without a call that can fail. *)
Definition observe {S A} (f : Env -> Trace -> A) : M S A :=
  fun s t => (Returns (f env t), s, t).

(** The logger never raises. *)
Definition log {S} (level : loglevel) (template : string) (args : list logarg)
  : M S unit :=
  fun s t => (Returns tt, s, t ++ [mkEvent (Log level template args) None]).

(** [await asyncio.sleep(...)] returns; only a cancellation, which is
    not an [Exception], could interrupt it. *)
Definition sleep {S} (ms : Z) : M S unit :=
  fun s t => (Returns tt, s, t ++ [mkEvent (AsyncioSleep ms) None]).

Definition page_url {S} (p : handle) : M S string :=
  observe (fun e t => env_url e t p).

Definition context_pages {S} (c : handle) : M S (list handle) :=
  observe (fun e t => env_pages e t c).

Definition query_selector_all {S} (p : handle) (css : string) : M S (list handle) :=
  run call (PageQuerySelectorAll p css);
  observe (fun e t => env_elements e t p css).

Definition is_visible {S} (loc : Locator) (timeout : Z) : M S bool :=
  run call (LocatorIsVisible loc timeout);
  observe (fun e t => env_visible e t loc).

Definition element_is_visible {S} (el : handle) : M S bool :=
  run call (ElementIsVisible el);
  observe (fun e t => env_element_visible e t el).

Definition get_attribute {S} (loc : Locator) (attr : string) : M S (option string) :=
  run call (LocatorGetAttribute loc attr);
  observe (fun e t => env_attribute e t loc attr).

Definition count {S} (loc : Locator) : M S nat :=
  run call (LocatorCount loc);
  observe (fun e t => env_count e t loc).

(** *** Ad/popup interceptor *)

Definition block_ads_route (route : Route) : M unit unit :=
  let url := request_url route in
  let resource_type := request_resource_type route in
  if PyStr.mem resource_type BLOCKED_RESOURCE_TYPES && matches_ad_pattern url
  then
    try_catch (call (RouteAbort (route_handle route))) (fun _ => ret tt)
  else
    try_catch (call (RouteContinue (route_handle route))) (fun _ => ret tt).

Definition handle_popup (popup_page : handle) : M unit unit :=
  do url <- page_url popup_page;
  if matches_ad_pattern url
  then try_catch (call (PageClose popup_page)) (fun _ => ret tt)
  else ret tt.

(** *** Browser session manager *)

Definition USER_AGENT : string :=
  "Mozilla/5.0 (Windows NT 10.0; Win64; x64) AppleWebKit/537.36 (KHTML, like Gecko) Chrome/98.0.4758.102 Safari/537.36".

(** [d.update(other)] on dictionaries kept in insertion order. *)
Fixpoint dict_set (k : string) (v : optval) (d : list (string * optval))
  : list (string * optval) :=
  match d with
  | [] => [(k, v)]
  | (k', v') :: rest =>
      if String.eqb k k' then (k', v) :: rest else (k', v') :: dict_set k v rest
  end.

Definition dict_update (d other : list (string * optval)) : list (string * optval) :=
  fold_left (fun acc kv => dict_set (fst kv) (snd kv) acc) other d.

Definition get_playwright_page
    (context_options : option (list (string * optval)))
    (playwright_instance : option handle)
  : M unit (handle * handle * handle * handle) :=
  do pw_instance <-
    match playwright_instance with
    | None => call_new PlaywrightStart
    | Some pw => ret pw
    end;
  do browser <-
    call_new (ChromiumLaunch pw_instance false
                ["--no-sandbox"; "--disable-setuid-sandbox"]);
  let default_context_options :=
    [ ("java_script_enabled", OBool true);
      ("ignore_https_errors", OBool true);
      ("user_agent", OStr USER_AGENT) ] in
  let default_context_options :=
    match context_options with
    | Some (kv :: other) => dict_update default_context_options (kv :: other)
    | _ => default_context_options
    end in
  do context <- call_new (BrowserNewContext browser default_context_options);
  run call (ContextRoute context "**/*");
  run call (ContextOnPage context);
  do page <- call_new (ContextNewPage context);
  ret (pw_instance, browser, context, page).

Definition close_playwright_resources
    (browser context : option handle) (playwright_instance_provided : bool)
  : M unit unit :=
  run match context with
      | Some c =>
          try_catch (call (ContextClose c))
            (fun e => log ERROR "Error closing context: {e}" [LExn e])
      | None => ret tt
      end;
  match browser with
  | Some b =>
      try_catch (call (BrowserClose b))
        (fun e => log ERROR "Error closing browser: {e}" [LExn e])
  | None => ret tt
  end.

(** *** Source discovery *)

Definition DUMMY_SOURCE_SITES : list string :=
  [ "https://dummy-movie-site-alpha.com";
    "https://dummy-movie-site-beta.com" ].

(** The [finally] clause shared by [get_movie_source_websites],
    [get_movie_download_options] and [get_final_vcloud_download_link]. *)
Definition release_in_finally {R} : M (Frame R) unit :=
  do f <- get;
  run (if is_set (browser f)
       then invoke (close_playwright_resources (browser f) (context f)
                      (if is_set (playwright f) then false else true)) tt
       else ret tt);
  match playwright f with
  | Some pw => if negb (is_set (browser f)) then call (PlaywrightStop pw) else ret tt
  | None => ret tt
  end.

Definition get_movie_source_websites_body (vglist_url : string)
  : M (Frame (list string)) (list string) :=
  run log INFO "Fetching source websites from {vglist_url}..." [LStr vglist_url];
  run try_finally
    (try_except
       (do '(pw, b, c, p) <- invoke (get_playwright_page None None) tt;
        run modify (set_session (Some pw) (Some b) (Some c) (Some p));
        run log WARNING
          "Using DUMMY source websites. Implement actual vglist.nl scraping in scraper.py." [];
        run sleep 100;
        run modify (set_result DUMMY_SOURCE_SITES);
        do source_sites <- gets result;
        match source_sites with
        | [] => log WARNING
                  "No source sites found on vglist.nl (or placeholder is empty)." []
        | _ => ret tt
        end)
       (fun _ => log ERROR "Timeout error scraping {vglist_url}" [LStr vglist_url])
       (fun e => log ERROR "Error scraping {vglist_url}: {e}" [LStr vglist_url; LExn e]))
    release_in_finally;
  do source_sites <- gets result;
  run log INFO "Found source sites: {source_sites}" [LStrs source_sites];
  ret source_sites.

Definition get_movie_source_websites (vglist_url : string) : M unit (list string) :=
  invoke (get_movie_source_websites_body vglist_url) (new_frame []).

(** *** Site search *)

Definition max_retries : nat := 1.

(** The double quote character, as it occurs inside selectors. *)
Definition dq : string := String (ascii_of_nat 34) EmptyString.

Definition search_bar_selector : string :=
  "input[name=" ++ dq ++ "q" ++ dq ++ "], input[type=" ++ dq ++ "text" ++ dq
  ++ "], input.search-input, #search_input, input[placeholder*=" ++ dq
  ++ "Search" ++ dq ++ "]".

Definition common_inputs_selector : string :=
  "input[type=" ++ dq ++ "text" ++ dq ++ "], input[type=" ++ dq ++ "search" ++ dq ++ "]".

Definition search_button_selector : string :=
  "button[type=" ++ dq ++ "submit" ++ dq ++ "], button.search-button, button:has-text("
  ++ dq ++ "Search" ++ dq ++ "), a.search-button".

(** [for s_input in common_search_inputs: ...]; the value is [filled]. *)
Fixpoint fill_generic_inputs {S} (site_url movie_name : string)
    (common_search_inputs : list handle) : M S bool :=
  match common_search_inputs with
  | [] => ret false
  | s_input :: rest =>
      do visible <- element_is_visible s_input;
      if visible then
        try_catch
          (run call (ElementFill s_input movie_name 5000);
           run log INFO "Filled search using generic input on {site_url}" [LStr site_url];
           ret true)
          (fun _ => fill_generic_inputs site_url movie_name rest)
      else fill_generic_inputs site_url movie_name rest
  end.

Definition alpha_result (site_url movie_name : string) (i : nat) : SearchResult :=
  mkSearchResult
    (movie_name ++ " - Result " ++ pretty (i + 1)%nat ++ " (Alpha Site)")
    ("https://via.placeholder.com/150x220.png?text="
       ++ PyStr.replace_char " " "+" movie_name ++ "+" ++ pretty (i + 1)%nat)
    (site_url ++ "/movie/" ++ PyStr.lower (PyStr.replace_char " " "-" movie_name)
       ++ "-details-" ++ pretty (i + 1)%nat)
    site_url.

Definition beta_result (site_url movie_name : string) : SearchResult :=
  mkSearchResult
    (movie_name ++ " - Result (Beta Site)")
    ("https://via.placeholder.com/150x220.png?text="
       ++ PyStr.replace_char " " "+" movie_name ++ "+Beta")
    (site_url ++ "/view/" ++ PyStr.lower (PyStr.replace_char " " "_" movie_name))
    site_url.

Definition append_result {A} (x : A) (f : Frame (list A)) : Frame (list A) :=
  set_result (result f ++ [x]) f.

Definition is_empty {A} (l : list A) : bool :=
  match l with [] => true | _ => false end.

(** How the [try] block of one search attempt is left. *)
Inductive flow := Fallthrough | Continue | BreakLoop.

(** [if browser: await close_playwright_resources(browser, context, True)]
    followed by [browser = None; playwright = None]. *)
Definition discard_session {R} : M (Frame R) unit :=
  do f <- get;
  run (if is_set (browser f)
       then invoke (close_playwright_resources (browser f) (context f) true) tt
       else ret tt);
  modify drop_browser.

(** Lines 190-208: fill the search bar, falling back to the generic
    inputs of the page. *)
Definition fill_search_bar {S} (p : handle) (site_url movie_name : string) : M S unit :=
  try_timeout
    (call (LocatorFill (mkLocator p (Css search_bar_selector)) movie_name 15000))
    (fun _ =>
       run log WARNING
         "Timeout finding search bar on {site_url}. Trying alternative common selectors."
         [LStr site_url];
       do common_search_inputs <- query_selector_all p common_inputs_selector;
       do filled <- fill_generic_inputs site_url movie_name common_search_inputs;
       if filled then ret tt
       else
         run log ERROR
           "Could not find or fill search bar on {site_url} after retries."
           [LStr site_url];
         raise (PlaywrightTimeoutError "Search bar not found or interactable.")).

(** Lines 211-223: submit with Enter, else with a search button. *)
Definition submit_search {S} (p : handle) (site_url : string) : M S unit :=
  try_catch
    (run call (KeyboardPress p "Enter");
     log INFO "Pressed Enter for search on {site_url}" [LStr site_url])
    (fun e_key =>
       run log WARNING
         "Could not press Enter on {site_url} ({e_key}). Trying to find a search button."
         [LStr site_url; LExn e_key];
       try_timeout
         (run call (LocatorClick (mkLocator p (Css search_button_selector)) 10000 false);
          log INFO "Clicked search button on {site_url}" [LStr site_url])
         (fun _ =>
            log ERROR
              "Could not find or click search button on {site_url} after trying Enter."
              [LStr site_url])).

(** Lines 176-226: acquire a session, navigate, fill, submit and wait
    for the results page. The value is the page. *)
Definition reach_results_page (site_url movie_name : string)
  : M (Frame (list SearchResult)) handle :=
  do pw0 <- gets playwright;
  do '(pw, b, c, p) <- invoke (get_playwright_page None pw0) tt;
  run modify (set_session (Some pw) (Some b) (Some c) (Some p));
  run call (PageGoto p site_url 60000 "domcontentloaded");
  run call (PageWaitForTimeout p 3000);
  run fill_search_bar p site_url movie_name;
  run submit_search p site_url;
  run call (PageWaitForLoadState p "domcontentloaded" 30000);
  run call (PageWaitForTimeout p 5000);
  ret p.

Definition USING_DUMMY_RESULTS : string :=
  "Using DUMMY search results for {site_url}. Implement actual scraping.".

(** Lines 245-261: the placeholder results. *)
Definition scrape_dummy_results (site_url movie_name : string)
  : M (Frame (list SearchResult)) unit :=
  run log WARNING USING_DUMMY_RESULTS [LStr site_url];
  if PyStr.contains "dummy-movie-site-alpha" site_url then
    for_each (seq 0 1)
      (fun i =>
         run modify (append_result (alpha_result site_url movie_name i));
         ret Next)
  else if PyStr.contains "dummy-movie-site-beta" site_url then
    modify (append_result (beta_result site_url movie_name))
  else ret tt.

(** Lines 229-230: the test for a probable ad redirect. *)
Definition looks_redirected (site_url current_url : string) (attempt : nat) : bool :=
  negb (PyStr.contains site_url current_url)
  && negb (PyStr.startswith current_url site_url)
  && (attempt <? max_retries)%nat.

Definition REDIRECT_WARNING : string :=
  "Possible ad redirect on {site_url}. Current URL: {current_url}. Retrying (attempt {attempt+1})...".

(** The body of [for attempt in range(max_retries + 1)]. *)
Definition search_attempt (site_url movie_name : string) (attempt : nat)
  : M (Frame (list SearchResult)) ctl :=
  run modify (set_page None);
  do fl <-
    try_except
      (do p <- reach_results_page site_url movie_name;
       do current_url <- page_url p;
       if looks_redirected site_url current_url attempt
       then
         run log WARNING REDIRECT_WARNING
           [LStr site_url; LStr current_url; LNat (attempt + 1)];
         run discard_session;
         run sleep 2000;
         ret Continue
       else
         run scrape_dummy_results site_url movie_name;
         do results <- gets result;
         if is_empty results then ret Fallthrough else ret BreakLoop)
      (fun pte =>
         run log ERROR "Timeout during search on {site_url} (attempt {attempt+1}): {pte}"
           [LStr site_url; LNat (attempt + 1); LExn pte];
         ret Fallthrough)
      (fun e =>
         run log ERROR "Generic error searching on {site_url} (attempt {attempt+1}): {e}"
           [LStr site_url; LNat (attempt + 1); LExn e];
         ret Fallthrough);
  match fl with
  | Continue => ret Next
  | BreakLoop => ret Break
  | Fallthrough =>
      do results <- gets result;
      if (attempt <? max_retries)%nat && is_empty results then
        run log INFO "Retrying search on {site_url}..." [LStr site_url];
        run discard_session;
        run sleep 3000;
        ret Next
      else ret Break
  end.

Definition SEARCHING_FOR : string := "Searching for '{movie_name}' on {site_url}...".

Definition search_movie_on_site_body (site_url movie_name : string)
  : M (Frame (list SearchResult)) (list SearchResult) :=
  run log INFO SEARCHING_FOR [LStr movie_name; LStr site_url];
  run for_each (seq 0 (max_retries + 1)) (search_attempt site_url movie_name);
  do f <- get;
  run (if is_set (browser f)
       then invoke (close_playwright_resources (browser f) (context f) true) tt
       else ret tt);
  run match playwright f with
      | Some pw => if negb (is_set (browser f)) then call (PlaywrightStop pw) else ret tt
      | None => ret tt
      end;
  run log INFO "Found {len(results)} results on {site_url} for '{movie_name}'."
    [LNat (length (result f)); LStr site_url; LStr movie_name];
  ret (result f).

Definition search_movie_on_site (site_url movie_name : string)
  : M unit (list SearchResult) :=
  invoke (search_movie_on_site_body site_url movie_name) (new_frame []).

(** *** Option discovery *)

Definition alpha_options (detail_page_url : string) : list DownloadOption :=
  [ mkDownloadOption "720p" "English" (detail_page_url ++ "/download?q=720&l=eng");
    mkDownloadOption "1080p" "Dual Audio" (detail_page_url ++ "/download?q=1080&l=dual") ].

Definition beta_option (detail_page_url : string) : DownloadOption :=
  mkDownloadOption "1080p" "English" (detail_page_url ++ "/getlink?res=1080p").

Definition get_movie_download_options_body (detail_page_url source_site : string)
  : M (Frame (list DownloadOption)) (list DownloadOption) :=
  run log INFO "Fetching download options from {detail_page_url}..." [LStr detail_page_url];
  run try_finally
    (try_except
       (do '(pw, b, c, p) <- invoke (get_playwright_page None None) tt;
        run modify (set_session (Some pw) (Some b) (Some c) (Some p));
        run call (PageGoto p detail_page_url 60000 "domcontentloaded");
        run call (PageWaitForTimeout p 5000);
        run log WARNING
          "Using DUMMY download options for {detail_page_url}. Implement actual scraping."
          [LStr detail_page_url];
        run (if PyStr.contains "dummy-movie-site-alpha" source_site then
               modify (fun f => set_result (result f ++ alpha_options detail_page_url) f)
             else if PyStr.contains "dummy-movie-site-beta" source_site then
               modify (append_result (beta_option detail_page_url))
             else ret tt);
        do options <- gets result;
        log INFO "Found options: {options}" [LOptions options])
       (fun pte =>
          log ERROR "Timeout getting download options from {detail_page_url}: {pte}"
            [LStr detail_page_url; LExn pte])
       (fun e =>
          log ERROR "Error getting download options from {detail_page_url}: {e}"
            [LStr detail_page_url; LExn e]))
    release_in_finally;
  gets result.

Definition get_movie_download_options (detail_page_url source_site : string)
  : M unit (list DownloadOption) :=
  invoke (get_movie_download_options_body detail_page_url source_site) (new_frame []).

(** *** Server resolution *)

Definition server_priority : list ServerPref :=
  [ mkServerPref "Server One"
      [ Literal "Server One"; Literal "VCloud Server 1";
        Literal "server-one-button"; Pattern "server\s*1" ];
    mkServerPref "FSL Server"
      [ Literal "FSL Server"; Literal "Fast Server Link";
        Literal "fsl-server-link"; Pattern "fsl" ];
    mkServerPref "10 Gbps Server"
      [ Literal "10 Gbps Server"; Literal "10Gbps Speed";
        Literal "high-speed-server"; Pattern "10\s*gbps" ] ].

(** [repr] of a string without quotes or control characters. *)
Fixpoint double_backslashes (s : string) : string :=
  match s with
  | EmptyString => EmptyString
  | String c s' =>
      if Ascii.eqb c (ascii_of_nat 92)
      then String c (String c (double_backslashes s'))
      else String c (double_backslashes s')
  end.

(** [str(identifier)] as the f-string interpolates it. *)
Definition identifier_text (i : identifier) : string :=
  match i with
  | Literal text => text
  | Pattern regex => "re.compile('" ++ double_backslashes regex ++ "', re.IGNORECASE)"
  end.

(** The selector string handed to [page.locator]. *)
Definition selector_text (sel : selector) : string :=
  match sel with
  | Css text => text
  | ServerElement (Literal id) =>
      "button:has-text(" ++ dq ++ id ++ dq ++ "), a:has-text(" ++ dq ++ id ++ dq ++ "), "
      ++ "[class*=" ++ dq ++ id ++ dq ++ " i], [id*=" ++ dq ++ id ++ dq ++ " i], "
      ++ "div:has-text(" ++ dq ++ id ++ dq ++ ") >> nth=0, span:has-text("
      ++ dq ++ id ++ dq ++ ") >> nth=0"
  | ServerElement (Pattern regex) =>
      let id := identifier_text (Pattern regex) in
      "button:has-text(" ++ id ++ "), a:has-text(" ++ id ++ "), "
      ++ "div:has-text(" ++ id ++ ") >> nth=0, span:has-text(" ++ id ++ ") >> nth=0"
  end.

Definition download_button_selector : string :=
  "a[download][href*=" ++ dq ++ ".mp4" ++ dq ++ "], a[download][href*=" ++ dq ++ ".mkv"
  ++ dq ++ "], a[href*=" ++ dq ++ ".mp4" ++ dq ++ "]:has-text(/download/i), a[href*="
  ++ dq ++ ".mkv" ++ dq ++ "]:has-text(/download/i), button:has-text(/download/i)".

Definition STREAM_PATH : string := "googlevideo.com/videoplayback".

(** [s.endswith(exts) or "googlevideo.com/videoplayback" in s] *)
Definition is_media_url (s : string) (exts : list string) : bool :=
  PyStr.endswith_any s exts || PyStr.contains STREAM_PATH s.

(** [href and (href.endswith(exts) or ... in href)] for an attribute
    that may be [None]. *)
Definition is_media_attr (o : option string) (exts : list string) : bool :=
  match o with
  | Some s => PyStr.truthy s && is_media_url s exts
  | None => false
  end.

(** [async with cm: body].  Leaving the block performs [exit]: the
    wait for the new page, which is cancelled instead when the body
    raised, or the closing of the page, which happens in either case. *)
Definition async_with {S A} (exit : Call) (body : M S A) : M S A :=
  match exit with
  | ExpectPageExit _ _ => do a <- body; run call exit; ret a
  | _ => try_finally body (call exit)
  end.

(** Log messages of the tier search that the properties below look at. *)
Definition TRYING_SERVER : string := "Trying server: {server_pref['name']}".
Definition FOUND_ATTRIBUTE : string := "Found direct link from attribute: {final_link}".
Definition FOUND_PAGE_URL : string := "Page URL is direct link: {final_link}".
Definition FOUND_VIDEO_SRC : string := "Found video src link: {final_link}".
Definition FOUND_DOWNLOAD_BUTTON : string := "Found direct download button link: {final_link}".

(** [final_link = link; logger.info(...); break] *)
Definition found_link (link : option string) (template : string)
  : M (Frame (option string)) ctl :=
  run modify (set_result link);
  run log INFO template
    [LStr (match link with Some s => s | None => EmptyString end)];
  ret Break.

(** The steps after the server element was clicked: look for the final
    link on [current]. Its value is [Break] when a [break] was reached. *)
Definition search_link_on_page (current : handle) : M (Frame (option string)) ctl :=
  do url <- page_url current;
  if PyStr.endswith_any url [".mp4"; ".mkv"; ".avi"] || PyStr.contains STREAM_PATH url
  then found_link (Some url) FOUND_PAGE_URL
  else
    let video_element := mkLocator current (Css "video[src]") in
    do n <- count video_element;
    do visible <- (if (0 <? n)%nat then is_visible video_element 3000 else ret false);
    do c <-
      (if visible then
         do src <- get_attribute video_element "src";
         if is_media_attr src [".mp4"; ".mkv"]
         then found_link src FOUND_VIDEO_SRC
         else ret Next
       else ret Next);
    match c with
    | Break => ret Break
    | Next =>
        let download_button := mkLocator current (Css download_button_selector) in
        do n <- count download_button;
        do visible <- (if (0 <? n)%nat then is_visible download_button 3000 else ret false);
        do c <-
          (if visible then
             do href <- get_attribute download_button "href";
             if is_media_attr href [".mp4"; ".mkv"]
             then found_link href FOUND_DOWNLOAD_BUTTON
             else ret Next
           else ret Next);
        match c with
        | Break => ret Break
        | Next =>
            do final_link <- gets result;
            if PyStr.truthy_opt final_link then ret Break else ret Next
        end
    end.

(** The body of [for identifier in server_pref['identifiers']]. *)
Definition try_identifier (page context : handle) (server_name : string)
    (identifier : identifier) : M (Frame (option string)) ctl :=
  try_except
    (let server_element_locator := mkLocator page (ServerElement identifier) in
     do visible <- is_visible server_element_locator 5000;
     do c <-
       (if visible then
          run log INFO "Found element for {server_pref['name']} using '{identifier}'"
            [LStr server_name; LIdent identifier];
          do href <- get_attribute server_element_locator "href";
          if is_media_attr href [".mp4"; ".mkv"; ".avi"; ".webm"]
          then found_link href FOUND_ATTRIBUTE
          else
            run log INFO "Clicking element for {server_pref['name']}..." [LStr server_name];
            do url <- page_url page;
            run async_with
              (if negb (PyStr.contains "vcloud" (PyStr.lower url))
               then ExpectPageExit context 15000
               else PageExit page)
              (call (LocatorClick server_element_locator 10000 true));
            do pages <- context_pages context;
            do current_page_for_link_search <-
              (if (1 <? length pages)%nat && negb (List.last pages page =? page)%nat then
                 let new_page := List.last pages page in
                 run call (PageBringToFront new_page);
                 do new_url <- page_url new_page;
                 run log INFO "Switched to new page: {current_page_for_link_search.url}"
                   [LStr new_url];
                 ret new_page
               else ret page);
            run call (PageWaitForLoadState current_page_for_link_search
                        "domcontentloaded" 20000);
            run call (PageWaitForTimeout current_page_for_link_search 5000);
            search_link_on_page current_page_for_link_search
        else ret Next);
     match c with
     | Break => ret Break
     | Next =>
         do final_link <- gets result;
         if PyStr.truthy_opt final_link then ret Break else ret Next
     end)
    (fun _ =>
       run log DEBUG
         "Timeout finding/interacting with {server_pref['name']} using '{identifier}'"
         [LStr server_name; LIdent identifier];
       ret Next)
    (fun find_click_ex =>
       run log WARNING
         "Could not find/interact with {server_pref['name']} using '{identifier}': {find_click_ex}"
         [LStr server_name; LIdent identifier; LExn find_click_ex];
       ret Next).

(** The body of [for server_pref in server_priority]. *)
Definition try_server (page context : handle) (server_pref : ServerPref)
  : M (Frame (option string)) ctl :=
  run log DEBUG TRYING_SERVER [LStr (name server_pref)];
  run for_each (identifiers server_pref)
        (try_identifier page context (name server_pref));
  do final_link <- gets result;
  if PyStr.truthy_opt final_link then ret Break else ret Next.

Definition tier_search (page context : handle) (priority : list ServerPref)
  : M (Frame (option string)) unit :=
  for_each priority (try_server page context).

Definition DUMMY_SUFFIX : string := "/final_vcloud_link_server1_dummy.mp4".

Definition get_final_vcloud_download_link_body (download_trigger_url source_site : string)
  : M (Frame (option string)) (option string) :=
  run log INFO "Getting final VCloud link from {download_trigger_url}..."
    [LStr download_trigger_url];
  run try_finally
    (try_except
       (do '(pw, b, c, p) <- invoke (get_playwright_page None None) tt;
        run modify (set_session (Some pw) (Some b) (Some c) (Some p));
        run call (PageGoto p download_trigger_url 60000 "domcontentloaded");
        run call (PageWaitForTimeout p 7000);
        run log WARNING
          "Using DUMMY VCloud link logic for {download_trigger_url}. Implement actual VCloud scraping."
          [LStr download_trigger_url];
        run tier_search p c server_priority;
        do final_link <- gets result;
        if negb (PyStr.truthy_opt final_link)
           && (PyStr.contains "dummy-movie-site" source_site
               || PyStr.contains "example.com" source_site)
        then
          run sleep 100;
          run modify (set_result (Some (download_trigger_url ++ DUMMY_SUFFIX)%string));
          log WARNING "Using DUMMY final link: {final_link}"
            [LStr (download_trigger_url ++ DUMMY_SUFFIX)%string]
        else ret tt)
       (fun pte =>
          log ERROR "Timeout getting final VCloud link from {download_trigger_url}: {pte}"
            [LStr download_trigger_url; LExn pte])
       (fun e =>
          log ERROR "Error getting final VCloud link from {download_trigger_url}: {e}"
            [LStr download_trigger_url; LExn e]))
    release_in_finally;
  do final_link <- gets result;
  run (if PyStr.truthy_opt final_link
       then log INFO "Final VCloud download link: {final_link}"
              [LStr (match final_link with Some l => l | None => EmptyString end)]
       else log WARNING "Could not retrieve a VCloud download link from {download_trigger_url}"
              [LStr download_trigger_url]);
  ret final_link.

Definition get_final_vcloud_download_link (download_trigger_url source_site : string)
  : M unit (option string) :=
  invoke (get_final_vcloud_download_link_body download_trigger_url source_site)
    (new_frame None).

End Scraper.

(** ** The user store of [data_manager.py] *)

Module DataManager.

(** [config.DATA_EXPIRY_SECONDS] *)
Definition DATA_EXPIRY_SECONDS : Z := 7200.

(** The integer as the float it is compared with. *)
Definition expiry_float : float :=
  Eval vm_compute in PrimFloat.of_uint63 (Uint63.of_Z DATA_EXPIRY_SECONDS).

Section Store.

(** The Python objects kept under a key. *)
Variable value : Type.

(** [{'timestamp': float, 'data': {...}}] *)
Record UserRecord := mkUserRecord {
  timestamp : float;
  data : gmap string value
}.

Definition touch (now : float) (r : UserRecord) : UserRecord :=
  mkUserRecord now (data r).

Definition set_item (key : string) (v : value) (r : UserRecord) : UserRecord :=
  mkUserRecord (timestamp r) (<[key := v]> (data r)).

(** [store_user_data]; [now] is the reading of [time.time()]. *)
Definition store_user_data (now : float) (chat_id : Z) (key : string) (v : value)
    (user_search_data : gmap Z UserRecord) : gmap Z UserRecord :=
  let user_search_data :=
    match user_search_data !! chat_id with
    | None => <[chat_id := mkUserRecord now ∅]> user_search_data
    | Some _ => alter (touch now) chat_id user_search_data
    end in
  alter (set_item key v) chat_id user_search_data.

Definition get_user_data (chat_id : Z) (key : string)
    (user_search_data : gmap Z UserRecord) : option value :=
  match user_search_data !! chat_id with
  | Some r => data r !! key
  | None => None
  end.

Definition clear_user_data (chat_id : Z)
    (user_search_data : gmap Z UserRecord) : gmap Z UserRecord :=
  match user_search_data !! chat_id with
  | Some _ => delete chat_id user_search_data
  | None => user_search_data
  end.

(** [current_time - record['timestamp'] > DATA_EXPIRY_SECONDS] *)
Definition expired (current_time : float) (record : UserRecord) : bool :=
  PrimFloat.ltb expiry_float (PrimFloat.sub current_time (timestamp record)).

(** [cleanup_expired_data]; [current_time] is the reading of
    [time.time()].  The messages it prints are left out. *)
Definition cleanup_expired_data (current_time : float)
    (user_search_data : gmap Z UserRecord) : gmap Z UserRecord :=
  let expired_users :=
    (filter (fun kv => expired current_time (snd kv) = true)
            (map_to_list user_search_data)).*1 in
  foldl (fun store chat_id =>
           match store !! chat_id with
           | Some _ => delete chat_id store
           | None => store
           end)
        user_search_data expired_users.

End Store.

Arguments timestamp {value}.
Arguments data {value}.
Arguments mkUserRecord {value}.
Arguments store_user_data {value}.
Arguments get_user_data {value}.
Arguments clear_user_data {value}.
Arguments expired {value}.
Arguments cleanup_expired_data {value}.

End DataManager.

(** * The Telegram front end ([bot.py])

    The utility functions of the bot and its [/start] handler.  A call
    into the Telegram client, asyncio or the logger is a [TgEvent] of a
    chronological trace; whether a call of the client raises is read
    from an oracle that may look at the history.  The handlers run on
    the user store of [data_manager.py]. *)

Module Bot.

Definition MAX_BUTTON_TEXT_LENGTH : Z := 60.
Definition MAX_RESULTS_TO_SHOW : Z := 10.
Definition MAX_OPTIONS_TO_SHOW : Z := 10.

(** [config.BOT_NAME] *)
Definition BOT_NAME : string := "Load The Graphics Bot".

(** A Python [str] is taken here as the sequence of its code points,
    which is what [len] and slicing count. *)
Definition codepoints : Type := list N.

(** ["..."] *)
Definition ELLIPSIS : codepoints := [46; 46; 46]%N.

(** [text[:stop]]: a negative [stop] counts from the end. *)
Definition slice_to (text : codepoints) (stop : Z) : codepoints :=
  let n := Z.of_nat (List.length text) in
  let stop := if (stop <? 0)%Z then Z.max 0 (n + stop) else Z.min stop n in
  firstn (Z.to_nat stop) text.

(** [truncate_text] *)
Definition truncate_text (text : codepoints) (length : Z) : codepoints :=
  if (length <? Z.of_nat (List.length text))%Z
  then slice_to text (length - 3) ++ ELLIPSIS
  else text.

(** The exceptions the [except] clauses of the bot tell apart.
    [NetworkError] stands for [telegram.error.NetworkError] and its
    subclasses other than [TimedOut]; [OtherError] for every other
    subclass of [Exception]. *)
Inductive tg_exn :=
| RetryAfter (retry_after : Z)
| TimedOut (msg : string)
| NetworkError (msg : string)
| OtherError (msg : string).

Inductive tg_logarg :=
| TNum (n : Z)
| TExn (e : tg_exn).

Section Telegram.

(** The values of the keyword arguments passed on to the client. *)
Variable kwarg : Type.

Definition kwargs : Type := list (string * kwarg).

Inductive TgCall :=
| SendMessage (chat_id : Z) (text : string) (kw : kwargs)
| EditMessageText (query : nat) (text : string) (kw : kwargs)
| ReplyText (message : nat) (text : string) (kw : kwargs)
| TgSleep (seconds : Z)
| TgLog (level : loglevel) (template : string) (args : list tg_logarg).

Record TgEvent := mkTgEvent {
  tg_call : TgCall;
  tg_raised : option tg_exn
}.

Definition TgTrace : Type := list TgEvent.

Inductive tg_outcome (A : Type) :=
| Done (a : A)
| Failed (e : tg_exn).
Arguments Done {A} a.
Arguments Failed {A} e.

(** A function body over the state [S] it works on and the trace. *)
Definition B (S A : Type) : Type := S -> TgTrace -> tg_outcome A * S * TgTrace.

Definition bret {S A} (a : A) : B S A := fun s t => (Done a, s, t).

Definition braise {S A} (e : tg_exn) : B S A := fun s t => (Failed e, s, t).

Definition bbind {S A A'} (m : B S A) (f : A -> B S A') : B S A' :=
  fun s t =>
    match m s t with
    | (Done a, s1, t1) => f a s1 t1
    | (Failed e, s1, t1) => (Failed e, s1, t1)
    end.

Definition bmodify {S} (f : S -> S) : B S unit := fun s t => (Done tt, f s, t).

(** [try: body  except ...: handler e] *)
Definition btry {S A} (body : B S A) (handler : tg_exn -> B S A) : B S A :=
  fun s t =>
    match body s t with
    | (Done a, s1, t1) => (Done a, s1, t1)
    | (Failed e, s1, t1) => handler e s1 t1
    end.

Declare Scope bot_scope.
Delimit Scope bot_scope with bot.
Notation "'do' x <- m ; k" := (bbind m (fun x => k))
  (at level 10, x name, m at level 100, k at level 200) : bot_scope.
Notation "'run' m ; k" := (bbind m (fun _ => k))
  (at level 10, m at level 100, k at level 200) : bot_scope.
Local Open Scope bot_scope.

(** Does the call raise, given what happened so far. *)
Variable raises : TgTrace -> TgCall -> option tg_exn.

(** A call of the Telegram client. *)
Definition request {S} (c : TgCall) : B S unit :=
  fun s t =>
    match raises t c with
    | Some e => (Failed e, s, t ++ [mkTgEvent c (Some e)])
    | None => (Done tt, s, t ++ [mkTgEvent c None])
    end.

(** [asyncio.sleep] and the logger return. *)
Definition tg_sleep {S} (seconds : Z) : B S unit :=
  fun s t => (Done tt, s, t ++ [mkTgEvent (TgSleep seconds) None]).

Definition tg_log {S} (level : loglevel) (template : string) (args : list tg_logarg)
  : B S unit :=
  fun s t => (Done tt, s, t ++ [mkTgEvent (TgLog level template args) None]).

(** [send_message_with_retry] *)
Definition send_message_with_retry {S} (chat_id : Z) (text : string) (kw : kwargs)
  : B S unit :=
  btry (request (SendMessage chat_id text kw))
    (fun e =>
       match e with
       | RetryAfter retry_after =>
           run tg_log WARNING "Rate limit hit (RetryAfter): sleeping for {e.retry_after}s"
             [TNum retry_after];
           run tg_sleep retry_after;
           request (SendMessage chat_id text kw)
       | TimedOut _ | NetworkError _ =>
           run tg_log ERROR "Telegram API timeout/network error: {e}. Retrying once."
             [TExn e];
           run tg_sleep 5;
           request (SendMessage chat_id text kw)
       | OtherError _ =>
           run tg_log ERROR "Failed to send message to {chat_id}: {e}" [TNum chat_id; TExn e];
           braise e
       end).

(** What the code reads of a callback query: its [id] and its
    [message], which may be [None]. *)
Record Query := mkQuery {
  query_id : nat;
  query_message : option nat
}.

(** [AttributeError], raised by an attribute access on [None]. *)
Definition ATTRIBUTE_ERROR (attr : string) : tg_exn :=
  OtherError ("'NoneType' object has no attribute '" ++ attr ++ "'").

(** [o.attr], where [o] may be [None]. *)
Definition attribute {S A} (o : option A) (attr : string) : B S A :=
  match o with
  | Some a => bret a
  | None => braise (ATTRIBUTE_ERROR attr)
  end.

(** [edit_message_with_retry]; the caller may pass [None] for [query]. *)
Definition edit_message_with_retry {S} (query : option Query) (text : string)
    (kw : kwargs) : B S unit :=
  btry (do q <- attribute query "edit_message_text";
        request (EditMessageText (query_id q) text kw))
    (fun e =>
       match e with
       | RetryAfter retry_after =>
           run tg_log WARNING
             "Rate limit hit on edit (RetryAfter): sleeping for {e.retry_after}s"
             [TNum retry_after];
           run tg_sleep retry_after;
           do q <- attribute query "edit_message_text";
           request (EditMessageText (query_id q) text kw)
       | TimedOut _ | NetworkError _ =>
           run tg_log ERROR "Telegram API timeout/network error on edit: {e}. Retrying once."
             [TExn e];
           run tg_sleep 5;
           do q <- attribute query "edit_message_text";
           request (EditMessageText (query_id q) text kw)
       | OtherError _ =>
           do q <- attribute query "id";
           run tg_log ERROR "Failed to edit message for query {query.id}: {e}"
             [TNum (Z.of_nat (query_id q)); TExn e];
           btry (do q <- attribute query "message";
                 do m <- attribute (query_message q) "reply_text";
                 request (ReplyText m text kw))
             (fun e_reply =>
                do q <- attribute query "id";
                tg_log ERROR "Fallback reply also failed for query {query.id}: {e_reply}"
                  [TNum (Z.of_nat (query_id q)); TExn e_reply])
       end).

Definition WELCOME : string :=
  "Welcome to " ++ BOT_NAME
  ++ "! Just type the name of any movie you want and I will find it for you.".

(** [start_command], for the chat [update.effective_chat.id]. *)
Definition start_command {value : Type} (chat_id : Z)
  : B (gmap Z (DataManager.UserRecord value)) unit :=
  run bmodify (DataManager.clear_user_data chat_id);
  send_message_with_retry chat_id WELCOME [].

(** ** What the trace of the front end shows *)

(** A call that puts the text before the user. *)
Definition is_delivery (c : TgCall) : bool :=
  match c with
  | SendMessage _ _ _ | EditMessageText _ _ _ | ReplyText _ _ _ => true
  | _ => false
  end.

(** Calls of the client, and those of them that went through. *)
Definition attempts (new : TgTrace) : list TgEvent :=
  List.filter (fun ev => is_delivery (tg_call ev)) new.

Definition went_through (ev : TgEvent) : bool :=
  is_delivery (tg_call ev)
  && match tg_raised ev with None => true | Some _ => false end.

Definition delivered (new : TgTrace) : list TgEvent :=
  List.filter went_through new.

End Telegram.

Arguments Done {A} a.
Arguments Failed {A} e.
Arguments SendMessage {kwarg}.
Arguments EditMessageText {kwarg}.
Arguments ReplyText {kwarg}.
Arguments TgSleep {kwarg}.
Arguments TgLog {kwarg}.
Arguments mkTgEvent {kwarg}.
Arguments tg_call {kwarg}.
Arguments tg_raised {kwarg}.
Arguments send_message_with_retry {kwarg} raises {S}.
Arguments edit_message_with_retry {kwarg} raises {S}.
Arguments start_command {kwarg} raises {value}.
Arguments attempts {kwarg}.
Arguments delivered {kwarg}.
Arguments went_through {kwarg}.
Arguments is_delivery {kwarg}.

End Bot.

(** ** Observations on traces *)

(** [p] occurs in [s]. *)
Definition is_substring (p s : string) : Prop :=
  exists pre post : string, s = (pre ++ p ++ post)%string.

(** Number of events whose call satisfies [P]. *)
Fixpoint count_calls (P : Call -> bool) (new : Trace) : nat :=
  match new with
  | [] => 0
  | ev :: rest => (if P (ev_call ev) then 1 else 0) + count_calls P rest
  end.

Definition is_start (c : Call) : bool :=
  match c with PlaywrightStart => true | _ => false end.
Definition is_stop (c : Call) : bool :=
  match c with PlaywrightStop _ => true | _ => false end.
Definition is_launch (c : Call) : bool :=
  match c with ChromiumLaunch _ _ _ => true | _ => false end.
Definition is_goto (c : Call) : bool :=
  match c with PageGoto _ _ _ _ => true | _ => false end.
Definition is_browser_close (c : Call) : bool :=
  match c with BrowserClose _ => true | _ => false end.
Definition is_context_close (c : Call) : bool :=
  match c with ContextClose _ => true | _ => false end.
Definition is_error_log (c : Call) : bool :=
  match c with Log ERROR _ _ => true | _ => false end.

(** A call of the Playwright API that drives a page of a session:
    what one attempt of a search is made of. *)
Definition is_press_enter (c : Call) : bool :=
  match c with KeyboardPress _ _ => true | _ => false end.

(** Successful launches, that is browser processes that were started. *)
Fixpoint count_started_browsers (new : Trace) : nat :=
  match new with
  | [] => 0
  | mkEvent (ChromiumLaunch _ _ _) None :: rest => S (count_started_browsers rest)
  | _ :: rest => count_started_browsers rest
  end.

(** Driver processes that were started. *)
Fixpoint count_started_drivers (new : Trace) : nat :=
  match new with
  | [] => 0
  | mkEvent PlaywrightStart None :: rest => S (count_started_drivers rest)
  | _ :: rest => count_started_drivers rest
  end.

(** What the tier search examines: a tier (its debug line) or one of
    its identifiers (the visibility probe of its element). *)
Definition examined (ev : Event) : option (string + identifier) :=
  match ev_call ev with
  | Log DEBUG template [LStr tier] =>
      if String.eqb template TRYING_SERVER then Some (inl tier) else None
  | LocatorIsVisible (mkLocator _ (ServerElement i)) _ => Some (inr i)
  | _ => None
  end.

Definition examination (new : Trace) : list (string + identifier) :=
  omap examined new.

(** The order in which a priority list is to be examined. *)
Definition schedule (priority : list ServerPref) : list (string + identifier) :=
  flat_map (fun sp => inl (name sp) :: map inr (identifiers sp)) priority.

Definition FOUND_TEMPLATES : list string :=
  [ FOUND_ATTRIBUTE; FOUND_PAGE_URL; FOUND_VIDEO_SRC; FOUND_DOWNLOAD_BUTTON ].

(** The link an event reports as found by the tier search, if any. *)
Definition yields (ev : Event) : option string :=
  match ev_call ev with
  | Log INFO template [LStr link] =>
      if PyStr.mem template FOUND_TEMPLATES then Some link else None
  | _ => None
  end.

(** No event of the trace reports a link. *)
Definition silent (new : Trace) : Prop := Forall (fun ev => yields ev = None) new.

(** The last event of the trace reports the link [l], no earlier one
    reports any. *)
Definition found_at_end (l : string) (new : Trace) : Prop :=
  exists pre ev, new = pre ++ [ev] /\ yields ev = Some l /\ silent pre.

(** The source site is one of the placeholder families. *)
Definition is_placeholder_site (source_site : string) : bool :=
  PyStr.contains "dummy-movie-site" source_site
  || PyStr.contains "example.com" source_site.

(** The steps of one search attempt that can be seen in the trace:
    starting the driver, launching the browser, navigating, filling the
    search bar, pressing Enter, scraping. *)
Inductive milestone := MStart | MLaunch | MGoto | MFill | MSubmit | MScrape.

Definition milestone_of (ev : Event) : option milestone :=
  match ev_call ev with
  | PlaywrightStart => Some MStart
  | ChromiumLaunch _ _ _ => Some MLaunch
  | PageGoto _ _ _ _ => Some MGoto
  | LocatorFill _ _ _ => Some MFill
  | KeyboardPress _ _ => Some MSubmit
  | Log WARNING template _ =>
      if String.eqb template USING_DUMMY_RESULTS then Some MScrape else None
  | _ => None
  end.

Definition milestones (new : Trace) : list milestone := omap milestone_of new.

Definition milestone_eqb (a b : milestone) : bool :=
  match a, b with
  | MStart, MStart | MLaunch, MLaunch | MGoto, MGoto
  | MFill, MFill | MSubmit, MSubmit | MScrape, MScrape => true
  | _, _ => false
  end.

(** How often the step [m] occurs. *)
Fixpoint tally (m : milestone) (l : list milestone) : nat :=
  match l with
  | [] => 0
  | x :: rest => (if milestone_eqb x m then 1 else 0) + tally m rest
  end.

Definition is_search_fill (c : Call) : bool :=
  match c with LocatorFill _ _ _ => true | _ => false end.

(** An attempt up to the submission of the query. *)
Definition SUBMITTED : list milestone :=
  [MStart; MLaunch; MGoto; MFill; MSubmit].

(** One complete attempt. *)
Definition ATTEMPT : list milestone :=
  [MStart; MLaunch; MGoto; MFill; MSubmit; MScrape].

(** The events of [close_playwright_resources(browser, context)] on a
    live session: the context is closed, then the browser; a failure
    of either is only logged. [e1] and [e2] are what the two calls
    raised. *)
Definition close_error (template : string) (e : option exn) : Trace :=
  match e with
  | Some x => [mkEvent (Log ERROR template [LExn x]) None]
  | None => []
  end.

Definition closing_trace (c b : handle) (e1 e2 : option exn) : Trace :=
  mkEvent (ContextClose c) e1 :: close_error "Error closing context: {e}" e1
  ++ mkEvent (BrowserClose b) e2 :: close_error "Error closing browser: {e}" e2.

(** Calls that release a resource. *)
Definition is_release (c : Call) : bool :=
  is_context_close c || is_browser_close c || is_stop c.

(** The messages with which the four operations report the exception
    that ended their scraping. *)
Definition SCRAPE_ERROR_TEMPLATES : list string :=
  [ "Timeout error scraping {vglist_url}";
    "Error scraping {vglist_url}: {e}";
    "Timeout during search on {site_url} (attempt {attempt+1}): {pte}";
    "Generic error searching on {site_url} (attempt {attempt+1}): {e}";
    "Timeout getting download options from {detail_page_url}: {pte}";
    "Error getting download options from {detail_page_url}: {e}";
    "Timeout getting final VCloud link from {download_trigger_url}: {pte}";
    "Error getting final VCloud link from {download_trigger_url}: {e}" ].

Definition is_scrape_error (ev : Event) : bool :=
  match ev_call ev with
  | Log ERROR template _ => PyStr.mem template SCRAPE_ERROR_TEMPLATES
  | _ => false
  end.

(** No event of the trace is such a report. *)
Definition quiet (new : Trace) : Prop :=
  Forall (fun ev => is_scrape_error ev = false) new.

(** A call other than a release raised. *)
Definition raised_while_scraping (ev : Event) : bool :=
  match ev_raised ev with
  | Some _ => negb (is_release (ev_call ev))
  | None => false
  end.

(** A statement about the outcome, the locals and the trace a
    computation ends with. *)
Definition outcome_sat {S A} (x : outcome A * S * Trace)
    (Q : outcome A -> S -> Trace -> Prop) : Prop :=
  Q (fst (fst x)) (snd (fst x)) (snd x).

(** *** The origin of a URL, in the words of the specification

    Scheme and authority: everything up to the path, query or
    fragment.  The source has no such function; this one is what the
    specification's "origin" is compared against. *)

Fixpoint take_until (stop : ascii -> bool) (s : string) : string :=
  match s with
  | EmptyString => EmptyString
  | String c s' => if stop c then EmptyString else String c (take_until stop s')
  end.

Fixpoint split_scheme (s : string) : option (string * string) :=
  match s with
  | EmptyString => None
  | String c s' =>
      if String.prefix "://" s then Some (EmptyString, String.substring 3 (String.length s) s)
      else match split_scheme s' with
           | Some (scheme, rest) => Some (String c scheme, rest)
           | None => None
           end
  end.

Definition ends_authority (c : ascii) : bool :=
  Ascii.eqb c "/" || Ascii.eqb c "?" || Ascii.eqb c "#".

Definition spec_origin (url : string) : string :=
  match split_scheme url with
  | Some (scheme, rest) => (scheme ++ "://" ++ take_until ends_authority rest)%string
  | None => url
  end.

(** ** Concrete environments *)

(** An environment given by what raises and what the pages show; the
    page has no element the scraper looks for. *)
Definition plain_env (raises : Trace -> Call -> option exn)
    (url : Trace -> handle -> string) : Env :=
  mkEnv raises url (fun _ _ => []) (fun _ _ _ => []) (fun _ _ => false)
        (fun _ _ => false) (fun _ _ _ => None) (fun _ _ => 0).

Definition never_raises : Trace -> Call -> option exn := fun _ _ => None.

Definition ALPHA_SITE : string := "https://dummy-movie-site-alpha.com".


(** The browser starts but refuses to open a context. *)
Definition env_new_context_fails : Env :=
  plain_env
    (fun _ c => match c with
                | BrowserNewContext _ _ => Some (Exception "Target closed")
                | _ => None
                end)
    (fun _ _ => ALPHA_SITE).


(** The first navigation times out, later ones succeed. *)
Definition env_first_goto_times_out : Env :=
  plain_env
    (fun t c => match c with
                | PageGoto _ _ _ _ =>
                    if (count_calls is_goto t =? 0)%nat
                    then Some (PlaywrightTimeoutError "Timeout 60000ms exceeded.")
                    else None
                | _ => None
                end)
    (fun _ _ => ALPHA_SITE).

Definition AD_LANDING : string :=
  "https://ads.example.net/?from=https://dummy-movie-site-alpha.com".

(** An ad page on another origin whose URL carries the site's URL in
    its query. *)
Definition env_ad_with_referrer : Env := plain_env never_raises (fun _ _ => AD_LANDING).

(** The first navigation lands on an ad page, the second on the site. *)
Definition env_redirect_once : Env :=
  plain_env never_raises
    (fun t _ => if (count_calls is_goto t <=? 1)%nat
                then "https://popads.net/landing"
                else ALPHA_SITE).

(** The first probe of a server element times out. *)
Definition env_first_probe_times_out : Env :=
  plain_env
    (fun _ c => match c with
                | LocatorIsVisible (mkLocator _ (ServerElement (Literal "Server One"))) _ =>
                    Some (PlaywrightTimeoutError "Timeout 5000ms exceeded.")
                | _ => None
                end)
    (fun _ _ => ALPHA_SITE).

(** A page that only offers a "10 Gbps Server" link, which is a direct
    media link. *)
Definition TEN_GBPS_LINK : string := "https://cdn.example.org/movie.mkv".

Definition env_only_10gbps : Env :=
  mkEnv never_raises (fun _ _ => "https://vcloud.example.org/choose")
        (fun _ _ => []) (fun _ _ _ => [])
        (fun _ loc => match loc_selector loc with
                      | ServerElement (Literal "10 Gbps Server") => true
                      | _ => false
                      end)
        (fun _ _ => false)
        (fun _ loc attr => match loc_selector loc with
                           | ServerElement (Literal "10 Gbps Server") =>
                               if String.eqb attr "href" then Some TEN_GBPS_LINK else None
                           | _ => None
                           end)
        (fun _ _ => 0).

(** ** Sessions handed over and released *)

Fixpoint count_events (Q : Event -> bool) (new : Trace) : nat :=
  match new with
  | [] => 0
  | ev :: rest => (if Q ev then 1 else 0) + count_events Q rest
  end.

Definition is_new_page (c : Call) : bool :=
  match c with ContextNewPage _ => true | _ => false end.

(** [get_playwright_page] handed a session to its caller: its last
    call, the creation of the page, returned. *)
Definition handed_over (ev : Event) : bool :=
  is_new_page (ev_call ev)
  && match ev_raised ev with None => true | Some _ => false end.

(** Calls that build or release a session, and navigations. *)
Definition touches_session (c : Call) : bool :=
  is_start c || is_launch c || is_new_page c || is_release c || is_goto c.

Definition session_free (new : Trace) : Prop :=
  Forall (fun ev => touches_session (ev_call ev) = false) new.

(** Every navigation of the trace goes to [url]. *)
Definition navigates_only_to (url : string) (new : Trace) : Prop :=
  Forall (fun ev => match ev_call ev with
                    | PageGoto _ target _ _ => target = url
                    | _ => True
                    end) new.

(** ** What the operations return *)

(** The suffixes the tier search accepts in one place or another. *)
Definition MEDIA_SUFFIXES : list string := [".mp4"; ".mkv"; ".avi"; ".webm"].

Definition looks_like_media (link : string) : bool :=
  is_media_url link MEDIA_SUFFIXES.

(** The results and options the placeholder branches build. *)
Definition placeholder_results (site_url movie_name : string) : list SearchResult :=
  if PyStr.contains "dummy-movie-site-alpha" site_url then [alpha_result site_url movie_name 0]
  else if PyStr.contains "dummy-movie-site-beta" site_url then [beta_result site_url movie_name]
  else [].

Definition placeholder_options (detail_page_url source_site : string)
  : list DownloadOption :=
  if PyStr.contains "dummy-movie-site-alpha" source_site then alpha_options detail_page_url
  else if PyStr.contains "dummy-movie-site-beta" source_site then [beta_option detail_page_url]
  else [].

(** The sessions handed over in the trace, and the calls of
    [context.close()] and of [browser.close()], which come in pairs;
    the driver is not stopped. *)
Definition session_counts (new : Trace) (handed closed : nat) : Prop :=
  count_events handed_over new = handed
  /\ count_calls is_context_close new = closed
  /\ count_calls is_browser_close new = closed
  /\ count_calls is_stop new = 0%nat.

(** What a step of the tier search does to the frame: nothing, or it
    sets the link, which then looks like a media file. *)
Definition link_step (f f' : Frame (option string)) : Prop :=
  f' = f \/
  exists l, f' = set_result (Some l) f /\ PyStr.truthy l = true
            /\ looks_like_media l = true.

(** ** Filling and submitting the search form *)

Definition is_fill (c : Call) : bool :=
  match c with
  | LocatorFill _ _ _ | ElementFill _ _ _ => true
  | _ => false
  end.

(** A [fill] that went through. *)
Definition filled_in (ev : Event) : bool :=
  is_fill (ev_call ev)
  && match ev_raised ev with None => true | Some _ => false end.

(** Every [fill] of the trace types [text]. *)
Definition fills_with (text : string) (new : Trace) : Prop :=
  Forall (fun ev => match ev_call ev with
                    | LocatorFill _ typed _ | ElementFill _ typed _ => typed = text
                    | _ => True
                    end) new.

Definition is_click (c : Call) : bool :=
  match c with LocatorClick _ _ _ => true | _ => false end.

(** ** Exceptions that end a search attempt *)

Definition is_timeout (e : exn) : bool :=
  match e with PlaywrightTimeoutError _ => true | Exception _ => false end.

Definition COULD_NOT_FILL : string :=
  "Could not find or fill search bar on {site_url} after retries.".

(** The exception with which the event ends the attempt it belongs
    to, if it does: what a call raised, unless a handler inside the
    attempt catches it (any exception of a generic [fill] or of
    pressing Enter, a timeout of the search bar's [fill] or of the
    click on the search button, any exception of a release), and the
    timeout the code raises itself after it has logged that no search
    bar could be filled. *)
Definition attempt_ended_by (ev : Event) : option exn :=
  match ev_raised ev with
  | Some e =>
      match ev_call ev with
      | ElementFill _ _ _ | KeyboardPress _ _ => None
      | LocatorFill _ _ _ | LocatorClick _ _ _ => if is_timeout e then None else Some e
      | ContextClose _ | BrowserClose _ | PlaywrightStop _ => None
      | _ => Some e
      end
  | None =>
      match ev_call ev with
      | Log ERROR template _ =>
          if String.eqb template COULD_NOT_FILL
          then Some (PlaywrightTimeoutError "Search bar not found or interactable.")
          else None
      | _ => None
      end
  end.

Definition SEARCH_TIMEOUT : string :=
  "Timeout during search on {site_url} (attempt {attempt+1}): {pte}".
Definition SEARCH_ERROR : string :=
  "Generic error searching on {site_url} (attempt {attempt+1}): {e}".

(** The error report of the search for the exception [e], in its
    attempt number [k]. *)
Definition search_error_report (site_url : string) (k : nat) (e : exn) : Event :=
  mkEvent (Log ERROR (if is_timeout e then SEARCH_TIMEOUT else SEARCH_ERROR)
             [LStr site_url; LNat k; LExn e]) None.

(** Every exception that ends an attempt is followed at once by the
    error report that carries it. *)
Fixpoint reported (site_url : string) (new : Trace) : Prop :=
  match new with
  | [] => True
  | ev :: rest =>
      (forall e, attempt_ended_by ev = Some e ->
                 exists k rest', rest = search_error_report site_url k e :: rest')
      /\ reported site_url rest
  end.

(** No event of the trace ends an attempt. *)
Definition unbroken (new : Trace) : Prop :=
  Forall (fun ev => attempt_ended_by ev = None) new.

(** A block of an attempt raises exactly when its last event ends the
    attempt, with the exception it raises; no earlier event does. *)
Definition raises_at_end {A} (r : outcome A) (new : Trace) : Prop :=
  match r with
  | Returns _ => unbroken new
  | Raises e =>
      exists pre last,
        new = pre ++ [last] /\ unbroken pre /\ attempt_ended_by last = Some e
  end.

(** The probe of the first identifier times out; the page offers a
    "10 Gbps Server" link, which is a direct media link. *)
Definition env_probe_times_out_then_link : Env :=
  mkEnv (env_raises env_first_probe_times_out)
        (env_url env_only_10gbps) (env_pages env_only_10gbps)
        (env_elements env_only_10gbps) (env_visible env_only_10gbps)
        (env_element_visible env_only_10gbps) (env_attribute env_only_10gbps)
        (env_count env_only_10gbps).

(** Closing a context fails; nothing else does. *)
Definition env_context_close_fails : Env :=
  plain_env
    (fun _ c => match c with
                | ContextClose _ => Some (Exception "Target closed")
                | _ => None
                end)
    (fun _ _ => ALPHA_SITE).

(** * Properties *)

(** ** Symbolic execution of the monad *)

Ltac unfold_monad :=
  unfold query_selector_all, is_visible, element_is_visible, get_attribute, count,
         page_url, context_pages in *;
  unfold try_catch, try_timeout, async_with in *;
  unfold try_except, try_finally, bind, ret, raise, get, gets, modify, invoke,
         observe, call, call_new, log, sleep in *.

(** One branching step: ask the environment, or decide a test. *)
Ltac branch :=
  match goal with
  | |- context [match env_raises ?e ?t ?c with _ => _ end] =>
      destruct (env_raises e t c) as [[?|?]|] eqn:?
  | |- context [if ?b then _ else _] => destruct b eqn:?
  end; cbn beta iota.

(** Bring a final trace [((t ++ a) ++ b) ++ ...] to the form [t ++ new]. *)
Ltac normalize_trace := rewrite <- ?app_assoc; cbn [app].

(** ** Strings *)

Lemma prefix_is_app (p s : string) :
  String.prefix p s = true <-> exists post, s = (p ++ post)%string.
Proof.
  revert s. induction p as [|c p IH]; intros s.
  - split; [intros _; exists s; reflexivity | intros _; destruct s; reflexivity].
  - destruct s as [|d s].
    + split; [discriminate | intros [post H]; discriminate].
    + change (String.prefix (String c p) (String d s))
        with (if Ascii.ascii_dec c d then String.prefix p s else false).
      destruct (Ascii.ascii_dec c d) as [->|Hne].
      * rewrite IH. split; intros [post H]; exists post.
        -- rewrite H. reflexivity.
        -- cbn in H. injection H as H. exact H.
      * split; [discriminate | intros [post H]].
        cbn in H. injection H as H1 H2. congruence.
Qed.

Lemma contains_is_substring (p s : string) :
  PyStr.contains p s = true <-> is_substring p s.
Proof.
  unfold is_substring. induction s as [|c s IH]; cbn [PyStr.contains].
  - rewrite orb_false_r, prefix_is_app. split.
    + intros [post H]. exists EmptyString, post. exact H.
    + intros (pre & post & H). destruct pre; cbn in H; [eauto | discriminate].
  - rewrite orb_true_iff, IH, prefix_is_app. split.
    + intros [[post H] | (pre & post & H)].
      * exists EmptyString, post. exact H.
      * exists (String c pre), post. rewrite H. reflexivity.
    + intros (pre & post & H). destruct pre as [|d pre]; cbn in H.
      * left. eauto.
      * right. exists pre, post. injection H as _ H. exact H.
Qed.

Lemma matches_ad_pattern_spec (url : string) :
  matches_ad_pattern url = true <->
  exists pattern, In pattern AD_DOMAINS_PATTERNS /\ is_substring pattern url.
Proof.
  unfold matches_ad_pattern. rewrite existsb_exists.
  split; intros (p & Hin & H); exists p; split; auto; apply contains_is_substring; auto.
Qed.

Lemma mem_spec (x : string) (l : list string) : PyStr.mem x l = true <-> In x l.
Proof.
  unfold PyStr.mem. rewrite existsb_exists. split.
  - intros (y & Hin & Heq). apply String.eqb_eq in Heq. congruence.
  - intros Hin. exists x. split; [exact Hin | apply String.eqb_refl].
Qed.

(** ** The request filter *)

(** C4. The route handler calls [route.abort()] exactly when the
    resource type is one of image, script, iframe, media, websocket and
    the URL contains an entry of the denylist; otherwise it calls
    [route.continue_()] and nothing else.  Either way it makes exactly
    one call and returns, also when that call raises.  A request of
    type "document" is always continued. *)
Theorem block_ads_route_decision (env : Env) (route : Route) (t : Trace) :
  let blocked :=
    In (request_resource_type route) BLOCKED_RESOURCE_TYPES /\
    exists pattern, In pattern AD_DOMAINS_PATTERNS /\
                    is_substring pattern (request_url route) in
  exists e,
    (blocked /\
     block_ads_route env route tt t
     = (Returns tt, tt, t ++ [mkEvent (RouteAbort (route_handle route)) e]))
    \/
    (~ blocked /\
     block_ads_route env route tt t
     = (Returns tt, tt, t ++ [mkEvent (RouteContinue (route_handle route)) e])).
Proof.
  intros blocked. unfold block_ads_route.
  destruct (PyStr.mem _ _ && matches_ad_pattern _) eqn:Hc.
  - apply andb_true_iff in Hc as [Hm Hp].
    apply mem_spec in Hm. apply matches_ad_pattern_spec in Hp.
    unfold_monad. branch; eexists; left; (split; [split; assumption | reflexivity]).
  - assert (~ blocked) as Hnb.
    { intros [Hm Hp]. apply mem_spec in Hm. apply matches_ad_pattern_spec in Hp.
      rewrite Hm, Hp in Hc. discriminate. }
    unfold_monad. branch; eexists; right; (split; [exact Hnb | reflexivity]).
Qed.

(** A request of type "document" is continued whatever its URL. *)
Lemma document_request_continues (env : Env) (h : handle) (url : string) (t : Trace) :
  exists e,
    block_ads_route env (mkRoute h url "document") tt t
    = (Returns tt, tt, t ++ [mkEvent (RouteContinue h) e]).
Proof.
  destruct (block_ads_route_decision env (mkRoute h url "document") t)
    as [e [[[Hin _] _] | [_ H]]].
  - cbn in Hin. intuition discriminate.
  - exists e. exact H.
Qed.

(** ** The popup handler *)

(** C6. The popup handler calls [close()] on the new page exactly when
    its URL contains an entry of the denylist of the request filter;
    an exception raised by that call is swallowed.  On any other page
    it makes no call at all. *)
Theorem handle_popup_closes_ad_pages (env : Env) (popup_page : handle) (t : Trace) :
  let is_ad :=
    exists pattern, In pattern AD_DOMAINS_PATTERNS /\
                    is_substring pattern (env_url env t popup_page) in
  (is_ad /\
   exists e, handle_popup env popup_page tt t
             = (Returns tt, tt, t ++ [mkEvent (PageClose popup_page) e]))
  \/
  (~ is_ad /\ handle_popup env popup_page tt t = (Returns tt, tt, t)).
Proof.
  intros is_ad. unfold handle_popup. unfold_monad.
  destruct (matches_ad_pattern (env_url env t popup_page)) eqn:Hp.
  - left. split; [apply matches_ad_pattern_spec; exact Hp |].
    branch; eexists; reflexivity.
  - right. split; [| reflexivity].
    intros H. apply matches_ad_pattern_spec in H. congruence.
Qed.
Lemma cons_eq_inv {A} (a b : A) (l l' : list A) : a :: l = b :: l' -> a = b /\ l = l'.
Proof. intros [= -> ->]. split; reflexivity. Qed.

Ltac split_at H :=
  repeat match type of H with
  | [] = ?pre ++ _ :: _ => exfalso; destruct pre; discriminate H
  | _ :: _ = ?pre ++ _ :: _ =>
      let E := fresh "E" in
      destruct pre as [|? pre]; cbn [app] in H;
      apply cons_eq_inv in H; destruct H as [E H];
      [try discriminate E | subst]
  end.

(** ** The session manager *)

(** C8. In every run of [get_playwright_page], a page is created on a
    context only after the request route and the popup listener were
    installed on that context, both successfully.  When the function
    returns a session, its page is the first page of its context and
    was created right after the two installations, so whatever
    navigates that page does so with both in place. *)
Theorem acquire_installs_interception_before_first_page
    (env : Env) (opts : option (list (string * optval))) (pw : option handle)
    (t : Trace) :
  exists r new,
    get_playwright_page env opts pw tt t = (r, tt, t ++ new) /\
    (forall pre c e post,
        new = pre ++ mkEvent (ContextNewPage c) e :: post ->
        In (mkEvent (ContextRoute c "**/*") None) pre /\
        In (mkEvent (ContextOnPage c) None) pre) /\
    (forall pw' b c p,
        r = Returns (pw', b, c, p) ->
        exists pre,
          new = pre ++ [ mkEvent (ContextRoute c "**/*") None;
                         mkEvent (ContextOnPage c) None;
                         mkEvent (ContextNewPage c) None ] /\
          p = (length (t ++ pre) + 2)%nat /\
          Forall (fun ev => forall c', ev_call ev <> ContextNewPage c') pre).
Proof.
  unfold get_playwright_page. unfold_monad.
  destruct pw; repeat branch;
    (eexists _, _; split; [normalize_trace; reflexivity |]); split.
  all: try (intros pre c e post H; split_at H;
            injection E as <- <-; split; cbn [In]; auto 10).
  all: try (intros ? ? ? ? [=]).
  all: subst.
  all: match goal with
       | |- exists pre, ?a :: ?b :: ?c :: ?d :: ?e :: [] = _ /\ _ => exists [a; b]
       | |- exists pre, ?a :: ?b :: ?c :: ?d :: ?e :: ?f :: [] = _ /\ _ => exists [a; b; c]
       end.
  all: split; [reflexivity |]; split; [rewrite !length_app; cbn [length]; lia |].
  all: repeat constructor; cbn [ev_call]; discriminate.
Qed.
(** ** Symbolic execution against the environment *)

Ltac scrutinee e :=
  lazymatch e with
  | match ?x with _ => _ end => scrutinee x
  | (match ?x with _ => _ end) _ => scrutinee x
  | (match ?x with _ => _ end) _ _ => scrutinee x
  | _ => e
  end.

Ltac unfold_monad_goal :=
  unfold query_selector_all, is_visible, element_is_visible, get_attribute, count,
         page_url, context_pages;
  unfold try_catch, try_timeout, async_with;
  unfold try_except, try_finally, bind, ret, raise, get, gets, modify, invoke,
         observe, call, call_new, log, sleep.

Ltac exec_simpl :=
  cbn [for_each seq app Nat.add];
  unfold_monad_goal;
  unfold set_session, set_page, drop_browser, append_result, set_result, new_frame;
  cbn [fst snd playwright browser context page result is_set is_empty negb andb orb
       PyStr.truthy_opt app].

(** Specifications of blocks that are used instead of running them. *)
Ltac exec_hook x := fail.

(** The handle a call returned is the length of the trace at that
    time; from then on only its being some number matters. *)
Ltac forget_handles :=
  repeat match goal with
         | |- context [@length Event ?T] =>
             let h := fresh "h" in generalize (@length Event T); intro h
         end.

Ltac exec_step :=
  lazymatch goal with
  | |- outcome_sat ?e _ =>
      let x := scrutinee e in
      lazymatch x with
      | (_, _) => fail
      | _ =>
          first
            [ exec_hook x
            | lazymatch x with
              | env_raises ?env ?t (if ?b then _ else _) => destruct b eqn:?
              | env_raises ?env ?t ?c =>
                  destruct (env_raises env t c) as [[?|?]|]
              | _ => destruct x eqn:?
              end ]
      end; exec_simpl; forget_handles
  end.

Ltac exec_leaf :=
  unfold outcome_sat; cbn [fst snd].

Ltac exec := exec_simpl; repeat exec_step; exec_leaf.

(** Use a specification [H : outcome_sat x (fun r s' t' => ...)] for
    the block [x] the execution has reached. *)
Ltac exec_use H x :=
  let r := fresh "r" in
  let s' := fresh "f" in
  let t' := fresh "t" in
  let Hs := fresh "Hspec" in
  pose proof H as Hs; unfold outcome_sat in Hs;
  destruct x as [[r s'] t']; cbn [fst snd] in Hs.

Lemma close_spec (env : Env) (b c : handle) (flag : bool) (t : Trace) :
  outcome_sat (close_playwright_resources env (Some b) (Some c) flag tt t)
    (fun r _ t' => exists e1 e2, r = Returns tt /\ t' = t ++ closing_trace c b e1 e2).
Proof.
  unfold close_playwright_resources. exec.
  all: match goal with
       | |- context [mkEvent (ContextClose _) ?e1] =>
           match goal with
           | |- context [mkEvent (BrowserClose _) ?e2] => exists e1, e2
           end
       end.
  all: split; [reflexivity |]; normalize_trace; reflexivity.
Qed.

Ltac exec_hook x ::=
  lazymatch x with
  | close_playwright_resources ?env (Some ?b) (Some ?c) ?flag tt ?t =>
      exec_use (close_spec env b c flag t) x;
      match goal with
      | H : exists e1 e2, _ = Returns tt /\ _ = _ ++ closing_trace _ _ e1 e2 |- _ =>
          destruct H as (? & ? & -> & ->)
      end
  end.

(** Goals over the events of a trace made of explicit events and of
    the traces of blocks. *)
Ltac each_event :=
  repeat lazymatch goal with
  | |- Forall _ [] => apply List.Forall_nil
  | |- Forall _ (_ :: _) => apply List.Forall_cons
  | |- Forall _ (_ ++ _) => apply Forall_app_2
  end.

Ltac some_event :=
  repeat first
    [ apply List.Exists_cons_hd; vm_compute; reflexivity
    | apply List.Exists_cons_tl
    | apply Exists_app; right ].

Lemma closing_only_releases (c b : handle) (e1 e2 : option exn) :
  Forall (fun ev => raised_while_scraping ev = false) (closing_trace c b e1 e2).
Proof. destruct e1, e2; repeat constructor. Qed.

Lemma source_websites_spec (env : Env) (url : string) (t : Trace) :
  outcome_sat (get_movie_source_websites env url tt t)
    (fun r _ t' => exists new, t' = t ++ new /\
       ((r = Returns DUMMY_SOURCE_SITES /\
         Forall (fun ev => raised_while_scraping ev = false) new) \/
        (r = Returns [] /\ Exists (fun ev => is_scrape_error ev = true) new))).
Proof.
  unfold get_movie_source_websites, get_movie_source_websites_body,
    release_in_finally, get_playwright_page, DUMMY_SOURCE_SITES.
  exec.
  all: eexists; (split; [normalize_trace; reflexivity |]).
  all: first [ right; split; [reflexivity | solve [some_event]]
             | left; split; [reflexivity |]; each_event;
               first [reflexivity | apply closing_only_releases] ].
Qed.

Lemma download_options_spec (env : Env) (url site : string) (t : Trace) :
  outcome_sat (get_movie_download_options env url site tt t)
    (fun r _ t' => exists new, t' = t ++ new /\
       ((exists options, r = Returns options /\
         Forall (fun ev => raised_while_scraping ev = false) new) \/
        (r = Returns [] /\ Exists (fun ev => is_scrape_error ev = true) new))).
Proof.
  unfold get_movie_download_options, get_movie_download_options_body,
    release_in_finally, get_playwright_page.
  exec.
  all: eexists; (split; [normalize_trace; reflexivity |]).
  all: first [ right; split; [reflexivity | solve [some_event]]
             | left; eexists; split; [reflexivity |]; each_event;
               first [reflexivity | apply closing_only_releases] ].
Qed.

Lemma is_media_attr_true (o : option string) (exts : list string) :
  is_media_attr o exts = true -> exists l, o = Some l /\ PyStr.truthy l = true.
Proof.
  destruct o as [l|]; [| discriminate]. cbn [is_media_attr].
  intros H. apply andb_true_iff in H as [H _]. eauto.
Qed.

Lemma media_page_url_truthy (url : string) :
  PyStr.endswith_any url [".mp4"; ".mkv"; ".avi"] || PyStr.contains STREAM_PATH url = true ->
  PyStr.truthy url = true.
Proof. destruct url; [vm_compute; discriminate | reflexivity]. Qed.

Ltac split_last :=
  lazymatch goal with
  | |- found_at_end _ ?new =>
      exists (removelast new), (List.last new (mkEvent PlaywrightStart None));
      cbn [removelast List.last app];
      split; [reflexivity | split; [vm_compute; reflexivity | unfold silent; each_event; reflexivity]]
  end.

Ltac exec_hook x ::=
  lazymatch x with
  | is_media_attr ?o ?exts =>
      let H := fresh "Hmedia" in
      let l := fresh "l" in
      let Ho := fresh "Ho" in
      let Hl := fresh "Hl" in
      destruct (is_media_attr o exts) eqn:H;
      [ apply is_media_attr_true in H as (l & Ho & Hl); rewrite ?Ho | ]
  end.

Lemma search_link_on_page_spec (env : Env) (cur : handle)
    (f : Frame (option string)) (t : Trace) :
  result f = None ->
  outcome_sat (search_link_on_page env cur f t)
    (fun r f' t' => exists new, t' = t ++ new /\ examination new = [] /\
       quiet new /\
       match r with
       | Returns Break =>
           exists l, f' = set_result (Some l) f /\ PyStr.truthy l = true
                     /\ found_at_end l new
       | _ => f' = f /\ silent new
       end).
Proof.
  destruct f as [pw b c p res]. cbn [result]. intros ->.
  unfold search_link_on_page, found_link. exec.
  all: eexists; (split; [normalize_trace; reflexivity |]); split; [reflexivity |].
  all: split; [unfold quiet; each_event; reflexivity |].
  all: try (split; [reflexivity | unfold silent; each_event; reflexivity]).
  all: eexists; split; [reflexivity |]; split; [ | split_last].
  all: first [assumption | apply media_page_url_truthy; assumption].
Qed.

Section Omap.
Context {A B : Type} (f : A -> option B).

Lemma omap_cons_none (x : A) (l : list A) (ys : list B) :
  f x = None -> omap f l = ys -> omap f (x :: l) = ys.
Proof. intros Hx <-. cbn. rewrite Hx. reflexivity. Qed.

Lemma omap_cons_some (x : A) (l : list A) (y : B) (ys : list B) :
  f x = Some y -> omap f l = ys -> omap f (x :: l) = y :: ys.
Proof. intros Hx <-. cbn. rewrite Hx. reflexivity. Qed.

Lemma omap_app_nil (l1 l2 : list A) (ys : list B) :
  omap f l1 = [] -> omap f l2 = ys -> omap f (l1 ++ l2) = ys.
Proof. intros H1 <-. rewrite omap_app, H1. reflexivity. Qed.

Lemma omap_app_nil_r (l1 l2 : list A) (xs : list B) :
  omap f l1 = xs -> omap f l2 = [] -> omap f (l1 ++ l2) = xs.
Proof. intros <- H2. rewrite omap_app, H2. apply app_nil_r. Qed.

Lemma omap_app_prefix (l1 l2 : list A) (xs : list B) :
  omap f l1 `prefix_of` xs -> omap f l2 = [] -> omap f (l1 ++ l2) `prefix_of` xs.
Proof. intros H1 H2. rewrite omap_app, H2, app_nil_r. exact H1. Qed.

Lemma omap_cons_none_prefix (x : A) (l : list A) (ys : list B) :
  f x = None -> omap f l `prefix_of` ys -> omap f (x :: l) `prefix_of` ys.
Proof. intros Hx H. cbn. rewrite Hx. exact H. Qed.

End Omap.

(** Compute an observation ([examination], [milestones]) of a trace
    made of explicit events and of blocks whose observation is empty. *)
Create HintDb trace discriminated.

Section OmapKnown.
Context {A B : Type} (f : A -> option B).

Lemma omap_app_known (l1 l2 : list A) (xs ys : list B) :
  omap f l1 = xs -> omap f l2 = ys -> omap f (l1 ++ l2) = xs ++ ys.
Proof. intros <- <-. apply omap_app. Qed.

End OmapKnown.

(** [omap f new = ?obs] for a trace made of explicit events and of
    blocks whose observation is a hypothesis or a hint. *)
Ltac observe_as :=
  repeat lazymatch goal with
         | |- omap _ [] = _ => reflexivity
         | |- omap _ (_ :: _) = _ =>
             first [ apply omap_cons_none; [reflexivity |]
                   | apply omap_cons_some; [reflexivity |] ]
         | |- omap _ (_ ++ _) = _ =>
             apply omap_app_known;
             [ first [eassumption | solve [eauto with trace nocore] | reflexivity] |]
         | |- omap _ _ = _ =>
             first [eassumption | solve [eauto with trace nocore] | reflexivity]
         end.

(** An observation ([examination], [milestones]) of such a trace is a
    given list, or a prefix of one. *)
Ltac observe_trace :=
  lazymatch goal with
  | |- ?obs ?new = ?X =>
      let H := fresh in
      eassert (obs new = _) as H
        by (unfold examination, milestones; observe_as);
      rewrite H; clear H; cbn [app]; rewrite ?app_nil_r;
      first [ reflexivity | assumption ]
  | |- ?obs ?new `prefix_of` ?X =>
      let H := fresh in
      eassert (obs new = _) as H
        by (unfold examination, milestones; observe_as);
      rewrite H; clear H; cbn [app]; rewrite ?app_nil_r;
      first [ assumption
            | apply prefix_app_r; assumption
            | unfold SUBMITTED, ATTEMPT; cbn [app]; eexists; reflexivity
            | etrans; [eassumption |];
              unfold SUBMITTED, ATTEMPT; cbn [app]; eexists; reflexivity ]
  end.

Lemma found_at_end_cons (l : string) (ev : Event) (new : Trace) :
  yields ev = None -> found_at_end l new -> found_at_end l (ev :: new).
Proof.
  intros Hev (pre & last & -> & Hl & Hpre).
  exists (ev :: pre), last. split; [reflexivity |]. split; [exact Hl |].
  constructor; assumption.
Qed.

Ltac found_last :=
  repeat (apply found_at_end_cons; [reflexivity |]);
  first [ assumption | split_last ].

Ltac exec_hook x ::=
  lazymatch x with
  | is_media_attr ?o ?exts =>
      let H := fresh "Hmedia" in
      let l := fresh "l" in
      let Ho := fresh "Ho" in
      let Hl := fresh "Hl" in
      destruct (is_media_attr o exts) eqn:H;
      [ apply is_media_attr_true in H as (l & Ho & Hl); rewrite ?Ho | ]
  | search_link_on_page ?env ?cur ?f ?t =>
      let Hex := fresh "Hex" in
      let Hr := fresh "Hr" in
      exec_use (search_link_on_page_spec env cur f t eq_refl) x;
      match goal with
      | H : exists new, _ = _ ++ new /\ _ |- _ => destruct H as (? & -> & Hex & ? & Hr)
      end;
      match type of Hr with
      | match ?r with _ => _ end =>
          destruct r as [[|]|]; cbn beta iota in Hr;
          [ destruct Hr as [-> Hr]
          | destruct Hr as (? & -> & ? & Hr)
          | destruct Hr as [-> Hr] ]
      end
  end.

Lemma try_identifier_spec (env : Env) (page context : handle) (server_name : string)
    (id : identifier) (f : Frame (option string)) (t : Trace) :
  result f = None ->
  outcome_sat (try_identifier env page context server_name id f t)
    (fun r f' t' => exists new, t' = t ++ new /\ examination new = [inr id] /\
       quiet new /\
       ((r = Returns Next /\ f' = f /\ silent new) \/
        (exists l, r = Returns Break /\ f' = set_result (Some l) f /\
                   PyStr.truthy l = true /\ found_at_end l new))).
Proof.
  destruct f as [pw b c p res]. cbn [result]. intros ->.
  unfold try_identifier, found_link.
  exec.
  all: cbn beta iota in *.
  all: eexists; (split; [normalize_trace; reflexivity |]).
  all: split; [observe_trace |].
  all: split; [unfold quiet in *; each_event; first [reflexivity | assumption] |].
  all: try (left; split; [reflexivity |]; split; [reflexivity |];
            unfold silent in *; each_event; first [reflexivity | assumption]).
  all: right; eexists; split; [reflexivity |]; split; [reflexivity |];
       split; [eassumption | found_last].
Qed.

Lemma silent_app (a b : Trace) : silent a -> silent b -> silent (a ++ b).
Proof. apply Forall_app_2. Qed.

Lemma quiet_app (a b : Trace) : quiet a -> quiet b -> quiet (a ++ b).
Proof. apply Forall_app_2. Qed.

Lemma examination_app (a b : Trace) :
  examination (a ++ b) = examination a ++ examination b.
Proof. apply omap_app. Qed.

Lemma found_at_end_app (l : string) (a b : Trace) :
  silent a -> found_at_end l b -> found_at_end l (a ++ b).
Proof.
  intros Ha (pre & last & -> & Hl & Hpre).
  exists (a ++ pre), last. split; [apply app_assoc |]. split; [exact Hl |].
  apply silent_app; assumption.
Qed.

(** The loop over the identifiers of one tier: either every identifier
    was tried and none gave a link, or the loop stopped at the first
    one that did. *)
Lemma identifiers_spec (env : Env) (page context : handle) (server_name : string)
    (ids : list identifier) (f : Frame (option string)) (t : Trace) :
  result f = None ->
  outcome_sat (for_each ids (try_identifier env page context server_name) f t)
    (fun r f' t' => exists new, t' = t ++ new /\ r = Returns tt /\ quiet new /\
       ((f' = f /\ silent new /\ examination new = map inr ids) \/
        (exists l, f' = set_result (Some l) f /\ PyStr.truthy l = true /\
                   found_at_end l new /\
                   examination new `prefix_of` map inr ids))).
Proof.
  intros Hres. revert t. induction ids as [|id ids IH]; intros t.
  - unfold outcome_sat. cbn [for_each]. unfold ret. cbn [fst snd].
    exists []. rewrite app_nil_r. split; [reflexivity |]. split; [reflexivity |].
    split; [constructor |]. left. split; [reflexivity |]. split; [constructor | reflexivity].
  - pose proof (try_identifier_spec env page context server_name id f t Hres) as H1.
    unfold outcome_sat in H1 |- *. cbn [for_each]. unfold bind.
    destruct (try_identifier env page context server_name id f t) as [[r1 f1] t1].
    cbn [fst snd] in H1.
    destruct H1 as (new1 & -> & Hex1 & Hq1 & [(-> & -> & Hs1) | (l & -> & -> & Hl & Hf)]).
    + specialize (IH (t ++ new1)). unfold outcome_sat in IH.
      destruct (for_each ids _ f (t ++ new1)) as [[r2 f2] t2]. cbn [fst snd] in IH |- *.
      destruct IH as (new2 & -> & -> & Hq2 & Hcases).
      exists (new1 ++ new2). split; [symmetry; apply app_assoc |].
      split; [reflexivity |]. split; [apply quiet_app; assumption |].
      rewrite examination_app, Hex1.
      destruct Hcases as [(-> & Hs2 & Hex2) | (l & -> & Hl & Hf & Hpre)].
      * left. split; [reflexivity |]. split; [apply silent_app; assumption |].
        rewrite Hex2. reflexivity.
      * right. exists l. split; [reflexivity |]. split; [exact Hl |].
        split; [apply found_at_end_app; assumption |].
        cbn [map app]. apply prefix_cons. exact Hpre.
    + cbn [fst snd]. unfold ret. cbn [fst snd].
      exists new1. split; [reflexivity |]. split; [reflexivity |]. split; [exact Hq1 |].
      right. exists l. split; [reflexivity |]. split; [exact Hl |]. split; [exact Hf |].
      rewrite Hex1. cbn [map]. apply prefix_cons, prefix_nil.
Qed.

Lemma try_server_unfold (env : Env) (page context : handle) (sp : ServerPref)
    (f : Frame (option string)) (t : Trace) :
  try_server env page context sp f t
  = match for_each (identifiers sp) (try_identifier env page context (name sp)) f
            (t ++ [mkEvent (Log DEBUG TRYING_SERVER [LStr (name sp)]) None]) with
    | (Returns _, f1, t1) =>
        if PyStr.truthy_opt (result f1)
        then (Returns Break, f1, t1) else (Returns Next, f1, t1)
    | (Raises e, f1, t1) => (Raises e, f1, t1)
    end.
Proof.
  unfold try_server, bind, log, gets.
  destruct (for_each _ _ _ _) as [[[|] ?] ?]; [| reflexivity].
  destruct (PyStr.truthy_opt _); reflexivity.
Qed.

(** The loop over the tiers: either every tier and identifier was
    tried in the order of the priority list and none gave a link, or
    the search stopped right after the first link. *)
Lemma tier_search_spec (env : Env) (page context : handle)
    (priority : list ServerPref) (f : Frame (option string)) (t : Trace) :
  result f = None ->
  outcome_sat (tier_search env page context priority f t)
    (fun r f' t' => exists new, t' = t ++ new /\ r = Returns tt /\ quiet new /\
       match priority with
       | [] => new = []
       | sp :: _ =>
           exists rest,
             new = mkEvent (Log DEBUG TRYING_SERVER [LStr (name sp)]) None :: rest
       end /\
       ((f' = f /\ silent new /\ examination new = schedule priority) \/
        (exists l, f' = set_result (Some l) f /\ PyStr.truthy l = true /\
                   found_at_end l new /\
                   examination new `prefix_of` schedule priority))).
Proof.
  intros Hres. unfold tier_search. revert t.
  induction priority as [|sp priority IH]; intros t.
  - unfold outcome_sat. cbn [for_each]. unfold ret. cbn [fst snd].
    exists []. rewrite app_nil_r. split; [reflexivity |]. split; [reflexivity |].
    split; [constructor |]. split; [reflexivity |].
    left. split; [reflexivity |]. split; [constructor | reflexivity].
  - set (first_event := mkEvent (Log DEBUG TRYING_SERVER [LStr (name sp)]) None).
    assert (examination [first_event] = [inl (name sp)]) as Hfirst by reflexivity.
    assert (silent [first_event]) as Hsfirst by (repeat constructor).
    assert (quiet [first_event]) as Hqfirst by (repeat constructor).
    pose proof (identifiers_spec env page context (name sp) (identifiers sp) f
                  (t ++ [first_event]) Hres) as H1.
    unfold outcome_sat in H1 |- *.
    cbn [for_each]. unfold bind. rewrite try_server_unfold. fold first_event.
    destruct (for_each (identifiers sp) _ f (t ++ [first_event])) as [[r1 f1] t1].
    cbn [fst snd] in H1.
    destruct H1 as (new1 & -> & -> & Hq1 & Hcases).
    destruct Hcases as [(-> & Hs1 & Hex1) | (l & -> & Hl & Hf & Hpre)].
    + rewrite Hres. cbn [PyStr.truthy_opt].
      specialize (IH ((t ++ [first_event]) ++ new1)). unfold outcome_sat in IH.
      destruct (for_each priority _ f ((t ++ [first_event]) ++ new1)) as [[r2 f2] t2].
      cbn [fst snd] in IH |- *.
      destruct IH as (new2 & -> & -> & Hq2 & _ & Hcases).
      exists (first_event :: new1 ++ new2).
      split; [rewrite <- !app_assoc; reflexivity |].
      split; [reflexivity |].
      split; [constructor; [reflexivity | apply quiet_app; assumption] |].
      split; [eexists; reflexivity |].
      change (first_event :: new1 ++ new2) with ([first_event] ++ new1 ++ new2).
      rewrite !examination_app, Hfirst, Hex1.
      destruct Hcases as [(-> & Hs2 & Hex2) | (l & -> & Hl & Hf & Hpre)].
      * left. split; [reflexivity |].
        split; [repeat apply silent_app; assumption |].
        rewrite Hex2. reflexivity.
      * right. exists l. split; [reflexivity |]. split; [exact Hl |].
        split; [repeat apply found_at_end_app; assumption |].
        cbn [schedule flat_map app]. apply prefix_cons, prefix_app. exact Hpre.
    + cbn [result set_result PyStr.truthy_opt]. rewrite Hl. unfold ret. cbn [fst snd].
      exists (first_event :: new1).
      split; [rewrite <- !app_assoc; reflexivity |].
      split; [reflexivity |].
      split; [constructor; [reflexivity | assumption] |].
      split; [eexists; reflexivity |].
      right. exists l. split; [reflexivity |]. split; [exact Hl |].
      change (first_event :: new1) with ([first_event] ++ new1).
      split; [apply found_at_end_app; assumption |].
      rewrite examination_app, Hfirst.
      cbn [schedule flat_map app]. apply prefix_cons, prefix_app_r. exact Hpre.
Qed.

Lemma dummy_link_truthy (url : string) : PyStr.truthy (url ++ DUMMY_SUFFIX) = true.
Proof. destruct url; reflexivity. Qed.

Ltac exec_hook x ::=
  lazymatch x with
  | close_playwright_resources ?env (Some ?b) (Some ?c) ?flag tt ?t =>
      exec_use (close_spec env b c flag t) x;
      match goal with
      | H : exists e1 e2, _ = Returns tt /\ _ = _ ++ closing_trace _ _ e1 e2 |- _ =>
          destruct H as (? & ? & -> & ->)
      end
  | PyStr.truthy (_ ++ DUMMY_SUFFIX)%string => rewrite dummy_link_truthy
  | context [PyStr.truthy ?l] =>
      match goal with
      | Hl : PyStr.truthy l = true |- _ => rewrite Hl
      end
  | tier_search ?env ?p ?c ?prio ?f ?t =>
      let Hq := fresh "Hq" in
      let Hstart := fresh "Hstart" in
      let Hs := fresh "Hs" in
      let Hex := fresh "Hex" in
      let Hl := fresh "Hl" in
      let Hf := fresh "Hf" in
      let Hpre := fresh "Hpre" in
      exec_use (tier_search_spec env p c prio f t eq_refl) x;
      match goal with
      | H : exists new, _ = _ ++ new /\ _ |- _ =>
          destruct H as (? & -> & -> & Hq & Hstart &
                         [(-> & Hs & Hex) | (? & -> & Hl & Hf & Hpre)])
      end
  end.

Lemma closing_silent (c b : handle) (e1 e2 : option exn) :
  silent (closing_trace c b e1 e2).
Proof. destruct e1, e2; repeat constructor. Qed.

Lemma closing_unexamined (c b : handle) (e1 e2 : option exn) :
  omap examined (closing_trace c b e1 e2) = [].
Proof. destruct e1, e2; reflexivity. Qed.

Lemma closing_quiet (c b : handle) (e1 e2 : option exn) :
  quiet (closing_trace c b e1 e2).
Proof. destruct e1, e2; repeat constructor. Qed.

#[local] Hint Resolve closing_unexamined : trace.

Ltac explicit_head l :=
  lazymatch l with
  | ?x :: ?l' => let r := explicit_head l' in constr:(x :: r)
  | _ => constr:(@nil Event)
  end.

Ltac after_head l :=
  lazymatch l with
  | _ :: ?l' => after_head l'
  | _ => l
  end.

(** Cut a trace [e1 :: ... :: en :: block ++ rest] after its explicit
    head. *)
Ltac cut_at_block :=
  lazymatch goal with
  | |- exists pre rest, ?new = pre ++ rest /\ _ =>
      let pre := explicit_head new in
      let rest := after_head new in
      exists pre, rest; split; [reflexivity |]
  end.

Lemma found_in_context (l : string) (P block post : Trace) :
  silent P -> found_at_end l block ->
  exists before ev,
    P ++ block ++ post = before ++ ev :: post /\ yields ev = Some l /\ silent before.
Proof.
  intros HP (pre & ev & -> & Hy & Hpre).
  exists (P ++ pre), ev. split; [rewrite <- !app_assoc; reflexivity |].
  split; [exact Hy | apply silent_app; assumption].
Qed.

Lemma resolve_spec (env : Env) (url site : string) (t : Trace) :
  outcome_sat (get_final_vcloud_download_link env url site tt t)
    (fun r _ t' => exists new, t' = t ++ new /\
       ((r = Returns None /\ Exists (fun ev => is_scrape_error ev = true) new /\
         examination new = [] /\ silent new)
        \/
        (exists pre rest,
            new = pre ++ rest /\ Forall (fun ev => ev_raised ev = None) pre /\
            examination pre = [] /\
            (exists rest',
                rest = mkEvent (Log DEBUG TRYING_SERVER [LStr "Server One"]) None :: rest') /\
            quiet new /\
            ((r = Returns (if is_placeholder_site site
                           then Some (url ++ DUMMY_SUFFIX)%string else None) /\
              silent new /\ examination new = schedule server_priority)
             \/
             (exists l before ev after,
                 r = Returns (Some l) /\ new = before ++ ev :: after /\
                 yields ev = Some l /\ silent before /\ silent after /\
                 examination after = [] /\
                 examination new `prefix_of` schedule server_priority /\
                 PyStr.truthy l = true))))).
Proof.
  unfold get_final_vcloud_download_link, get_final_vcloud_download_link_body,
    release_in_finally, get_playwright_page.
  exec.
  all: try congruence.
  all: eexists; (split; [normalize_trace; reflexivity |]).
  all: try (left; split; [reflexivity |]; split; [solve [some_event] |];
            split; [observe_trace
                   | unfold silent; each_event;
                     first [reflexivity | apply closing_silent] ]).
  all: right; cut_at_block.
  all: split; [each_event; reflexivity |].
  all: split; [reflexivity |].
  all: split; [destruct Hstart as (? & ->); eexists; reflexivity |].
  all: split; [unfold quiet in *; each_event;
               first [reflexivity | assumption | apply closing_quiet] |].
  all: try (left; split;
                 [ match goal with
                   | H : _ || _ = _ |- _ =>
                       unfold is_placeholder_site; rewrite H; reflexivity
                   end
                 | split; [ unfold silent in *; each_event;
                            first [reflexivity | assumption | apply closing_silent]
                          | observe_trace ] ]).
  all: right.
  all: lazymatch goal with
       | Hf : found_at_end ?l ?x |- exists l' before ev after, _ /\ ?new = _ /\ _ =>
           let P := explicit_head new in
           let rest := after_head new in
           lazymatch rest with
           | x ++ ?post =>
               let before := fresh "before" in
               let ev := fresh "ev" in
               let Heq := fresh "Heq" in
               let Hy := fresh "Hy" in
               let Hsb := fresh "Hsb" in
               destruct (found_in_context l P x post
                           ltac:(unfold silent; each_event; reflexivity) Hf)
                 as (before & ev & Heq & Hy & Hsb);
               cbn [app] in Heq;
               exists l, before, ev, post;
               split; [reflexivity |]; split; [exact Heq |];
               split; [exact Hy |]; split; [exact Hsb |]
           end
       end.
  all: split; [unfold silent; each_event; first [reflexivity | apply closing_silent] |].
  all: split; [observe_trace |].
  all: split; [observe_trace | assumption].
Qed.

(** ** Site search *)

Ltac exec_hook x ::=
  lazymatch x with
  | fill_generic_inputs ?env ?a ?b ?inputs ?s ?t1 =>
      match goal with
      | IH : context [fill_generic_inputs] |- _ =>
          exec_use (IH t1) x;
          match goal with
          | H : exists new, _ = _ ++ new /\ _ |- _ => destruct H as (? & -> & -> & ? & ?)
          end
      end
  end.

Lemma fill_generic_inputs_spec (env : Env) {S} (site_url movie_name : string)
    (inputs : list handle) (s : S) (t : Trace) :
  outcome_sat (fill_generic_inputs env site_url movie_name inputs s t)
    (fun r s' t' => exists new, t' = t ++ new /\ s' = s /\
                    milestones new = [] /\ quiet new).
Proof.
  revert t. induction inputs as [|el inputs IH]; intros t.
  - exists []. rewrite app_nil_r. repeat split; constructor.
  - cbn [fill_generic_inputs]. exec.
    all: eexists; (split; [normalize_trace; reflexivity |]); split; [reflexivity |].
    all: split; [observe_trace | unfold quiet in *; each_event;
                                 first [reflexivity | assumption]].
Qed.

Ltac exec_hook x ::=
  lazymatch x with
  | fill_generic_inputs ?env ?a ?b ?inputs ?s ?t1 =>
      exec_use (fill_generic_inputs_spec env a b inputs s t1) x;
      match goal with
      | H : exists new, _ = _ ++ new /\ _ |- _ => destruct H as (? & -> & -> & ? & ?)
      end
  end.

Lemma fill_search_bar_spec (env : Env) {S} (p : handle) (site_url movie_name : string)
    (s : S) (t : Trace) :
  outcome_sat (fill_search_bar env p site_url movie_name s t)
    (fun r s' t' => exists new, t' = t ++ new /\ s' = s /\
                    milestones new = [MFill] /\ quiet new).
Proof.
  unfold fill_search_bar. exec.
  all: eexists; (split; [normalize_trace; reflexivity |]); split; [reflexivity |].
  all: split; [observe_trace | unfold quiet in *; each_event;
                               first [reflexivity | assumption]].
Qed.

Lemma submit_search_spec (env : Env) {S} (p : handle) (site_url : string)
    (s : S) (t : Trace) :
  outcome_sat (submit_search env p site_url s t)
    (fun r s' t' => exists new, t' = t ++ new /\ s' = s /\
                    milestones new = [MSubmit] /\ quiet new).
Proof.
  unfold submit_search. exec.
  all: eexists; (split; [normalize_trace; reflexivity |]); split; [reflexivity |].
  all: split; [observe_trace | unfold quiet in *; each_event;
                               first [reflexivity | assumption]].
Qed.

Ltac exec_hook x ::=
  lazymatch x with
  | fill_search_bar ?env ?p ?a ?b ?s ?t1 =>
      exec_use (fill_search_bar_spec env p a b s t1) x;
      match goal with
      | H : exists new, _ = _ ++ new /\ _ |- _ => destruct H as (? & -> & -> & ? & ?)
      end
  | submit_search ?env ?p ?a ?s ?t1 =>
      exec_use (submit_search_spec env p a s t1) x;
      match goal with
      | H : exists new, _ = _ ++ new /\ _ |- _ => destruct H as (? & -> & -> & ? & ?)
      end
  end.


(** One pass from acquisition to the results page, begun without a
    driver. *)
Lemma reach_results_page_spec (env : Env) (site_url movie_name : string)
    (c0 p0 : option handle) (res : list SearchResult) (t : Trace) :
  outcome_sat
    (reach_results_page env site_url movie_name (mkFrame None None c0 p0 res) t)
    (fun r f' t' => exists new, t' = t ++ new /\ quiet new /\
       (exists e rest, new = mkEvent PlaywrightStart e :: rest) /\
       match r with
       | Returns p =>
           (exists pw b c, f' = mkFrame (Some pw) (Some b) (Some c) (Some p) res) /\
           milestones new = SUBMITTED
       | Raises _ =>
           milestones new `prefix_of` SUBMITTED /\
           (f' = mkFrame None None c0 p0 res \/
            exists pw b c p, f' = mkFrame (Some pw) (Some b) (Some c) (Some p) res)
       end).
Proof.
  unfold reach_results_page, get_playwright_page. exec.
  all: eexists; (split; [normalize_trace; reflexivity |]).
  all: split; [unfold quiet in *; each_event; first [reflexivity | assumption] |].
  all: split; [eexists _, _; reflexivity |].
  all: split.
  all: try solve [eexists _, _, _; reflexivity].
  all: try solve [left; reflexivity].
  all: try solve [right; eexists _, _, _, _; reflexivity].
  all: observe_trace.
Qed.


Ltac exec_hook x ::=
  lazymatch x with
  | close_playwright_resources ?env (Some ?b) (Some ?c) ?flag tt ?t =>
      exec_use (close_spec env b c flag t) x;
      match goal with
      | H : exists e1 e2, _ = Returns tt /\ _ = _ ++ closing_trace _ _ e1 e2 |- _ =>
          destruct H as (? & ? & -> & ->)
      end
  | reach_results_page ?env ?a ?b (mkFrame None None ?c0 ?p0 ?res) ?t =>
      let Hq := fresh "Hq" in
      let Hstart := fresh "Hstart" in
      let Hr := fresh "Hr" in
      let Hm := fresh "Hm" in
      exec_use (reach_results_page_spec env a b c0 p0 res t) x;
      match goal with
      | H : exists new, _ = _ ++ new /\ _ |- _ => destruct H as (? & -> & Hq & Hstart & Hr)
      end;
      match type of Hr with
      | match ?r with _ => _ end =>
          destruct r; cbn beta iota in Hr;
          [ destruct Hr as ((? & ? & ? & ->) & Hm)
          | destruct Hr as (Hm & [-> | (? & ? & ? & ? & ->)]) ]
      end
  end.

Lemma closing_no_milestone (c b : handle) (e1 e2 : option exn) :
  omap milestone_of (closing_trace c b e1 e2) = [].
Proof. destruct e1, e2; reflexivity. Qed.

#[local] Hint Resolve closing_no_milestone : trace.

(** What the tests on the attempt number say. *)
Ltac attempt_facts :=
  repeat match goal with
         | H : _ && _ = true |- _ => apply andb_true_iff in H; destruct H
         | H : _ && _ = false |- _ => apply andb_false_iff in H; destruct H
         | H : (_ <? _)%nat = true |- _ => apply Nat.ltb_lt in H
         | H : (_ <? _)%nat = false |- _ => apply Nat.ltb_ge in H
         end;
  try discriminate; try lia.

(** One iteration of the retry loop, begun without driver, browser or
    results. *)
Lemma search_attempt_spec (env : Env) (site_url movie_name : string) (attempt : nat)
    (c0 p0 : option handle) (t : Trace) :
  outcome_sat
    (search_attempt env site_url movie_name attempt (mkFrame None None c0 p0 []) t)
    (fun r f' t' => exists new, t' = t ++ new /\
       (exists e rest, new = mkEvent PlaywrightStart e :: rest) /\
       milestones new `prefix_of` ATTEMPT /\
       ((exists pw b c p res,
            r = Returns Break /\
            f' = mkFrame (Some pw) (Some b) (Some c) (Some p) res /\ res <> [] /\
            quiet new /\ milestones new = ATTEMPT)
        \/
        (exists c p,
            r = Returns Next /\ f' = mkFrame None None c p [] /\
            (attempt < max_retries)%nat)
        \/
        (r = Returns Break /\ (max_retries <= attempt)%nat /\
         ((exists pw b c p, f' = mkFrame (Some pw) (Some b) (Some c) (Some p) [])
          \/ exists c p, f' = mkFrame None None c p [])))).
Proof.
  unfold search_attempt, discard_session, scrape_dummy_results, looks_redirected.
  exec.
  all: eexists; (split; [normalize_trace; reflexivity |]).
  all: split; [destruct Hstart as (? & ? & ->); eexists _, _; reflexivity |].
  all: split; [observe_trace |].
  all: first
         [ solve [ left; eexists _, _, _, _, _; split; [reflexivity |];
                   split; [reflexivity |]; split; [discriminate |];
                   split; [ unfold quiet in *; each_event;
                            first [reflexivity | assumption]
                          | observe_trace ] ]
         | solve [ right; left; eexists _, _; split; [reflexivity |];
                   split; [reflexivity | attempt_facts] ]
         | solve [ right; right; split; [reflexivity |];
                   split; [attempt_facts |];
                   first [ left; eexists _, _, _, _; reflexivity
                         | right; eexists _, _; reflexivity ] ] ].
Qed.

Ltac exec_hook x ::=
  lazymatch x with
  | close_playwright_resources ?env (Some ?b) (Some ?c) ?flag tt ?t =>
      exec_use (close_spec env b c flag t) x;
      match goal with
      | H : exists e1 e2, _ = Returns tt /\ _ = _ ++ closing_trace _ _ e1 e2 |- _ =>
          destruct H as (? & ? & -> & ->)
      end
  | search_attempt ?env ?a ?b ?n (mkFrame None None ?c0 ?p0 []) ?t =>
      let Hstart := fresh "Hstart" in
      let Hpre := fresh "Hpre" in
      let Hne := fresh "Hne" in
      let Hq := fresh "Hq" in
      let Hm := fresh "Hm" in
      let Hlt := fresh "Hlt" in
      exec_use (search_attempt_spec env a b n c0 p0 t) x;
      match goal with
      | H : exists new, _ = _ ++ new /\ _ |- _ =>
          destruct H as
            (? & -> & Hstart & Hpre &
             [ (? & ? & ? & ? & ? & -> & -> & Hne & Hq & Hm)
             | [ (? & ? & -> & -> & Hlt)
               | (-> & Hlt & [(? & ? & ? & ? & ->) | (? & ? & ->)]) ] ])
      end
  end.

Ltac before_block l seg :=
  lazymatch l with
  | seg ++ _ => constr:(@nil Event)
  | ?x :: ?l' => let r := before_block l' seg in constr:(x :: r)
  | ?s ++ ?l' => let r := before_block l' seg in constr:(s ++ r)
  end.

Ltac from_block l seg :=
  lazymatch l with
  | seg ++ _ => l
  | _ :: ?l' => from_block l' seg
  | _ ++ ?l' => from_block l' seg
  end.

Lemma attempt_has_milestones (new rest : Trace) :
  milestones new = ATTEMPT -> milestones (new ++ rest) <> [].
Proof.
  intros H. unfold milestones in *. rewrite omap_app, H. discriminate.
Qed.

(** The whole search: at most two attempts; a non-empty result comes
    from a last attempt that went through without a reported error. *)
Lemma search_spec (env : Env) (site_url movie_name : string) (t : Trace) :
  outcome_sat (search_movie_on_site env site_url movie_name tt t)
    (fun r _ t' => exists new, t' = t ++ new /\
       (exists a1 a2, milestones new = a1 ++ a2 /\
                      a1 `prefix_of` ATTEMPT /\ a2 `prefix_of` ATTEMPT) /\
       (r = Returns [] \/
        exists res pre last,
          r = Returns res /\ res <> [] /\ new = pre ++ last /\
          quiet last /\ milestones last <> [])).
Proof.
  unfold search_movie_on_site, search_movie_on_site_body, max_retries.
  exec.
  all: try (unfold max_retries in *; lia).
  all: eexists; (split; [normalize_trace; reflexivity |]).
  all: split.
  all: lazymatch goal with
       | |- exists a1 a2, ?obs ?new = _ /\ _ =>
           let H := fresh in
           eassert (obs new = _) as H by (unfold milestones; observe_as);
           rewrite H; clear H; cbn [app]; rewrite ?app_nil_r;
           lazymatch goal with
           | |- exists a1 a2, ?A ++ ?B = _ /\ _ => exists A, B
           | |- exists a1 a2, ?A = _ /\ _ => exists A, []; rewrite app_nil_r
           end;
           split; [reflexivity |];
           split; first [assumption | reflexivity | apply prefix_nil]
       | |- _ => idtac
       end.
  all: try solve [left; reflexivity].
  all: right.
  all: match goal with
       | Hq : quiet ?seg, Hne : ?res <> [], Hm : milestones ?seg = ATTEMPT
         |- exists res' pre last, _ /\ _ /\ ?new = _ /\ _ =>
           let pre := before_block new seg in
           let last := from_block new seg in
           exists res, pre, last;
           split; [reflexivity |]; split; [exact Hne |];
           split; [cbn [app]; rewrite ?app_nil_r, <- ?app_assoc; reflexivity |];
           split; [ unfold quiet in *; each_event;
                    first [reflexivity | assumption | apply closing_quiet]
                  | apply attempt_has_milestones; exact Hm ]
       end.
Qed.

(** ** From the specifications of the operations to their properties *)

Lemma outcome_sat_elim {S A} (x : outcome A * S * Trace)
    (Q : outcome A -> S -> Trace -> Prop) :
  outcome_sat x Q -> exists r s t, x = (r, s, t) /\ Q r s t.
Proof. destruct x as [[r s] t]. intros H. exists r, s, t. split; [reflexivity | exact H]. Qed.

(** Where an element of a list sits relative to a given cut. *)
Lemma split_cases {A} (l1 l2 p q : list A) (x y : A) :
  l1 ++ x :: l2 = p ++ y :: q ->
  (exists k, l1 = p ++ y :: k /\ q = k ++ x :: l2)
  \/ (p = l1 /\ y = x /\ q = l2)
  \/ (exists k, p = l1 ++ x :: k /\ l2 = k ++ y :: q).
Proof.
  revert p. induction l1 as [|a l1 IH]; intros p H.
  - destruct p as [|b p]; cbn in H.
    + injection H as -> ->. right. left. auto.
    + injection H as -> ->. right. right. exists p. auto.
  - destruct p as [|b p]; cbn in H.
    + injection H as -> <-. left. exists l1. auto.
    + injection H as -> H. destruct (IH p H) as [(k & -> & ->) | [(-> & -> & ->) | (k & -> & ->)]].
      * left. exists k. auto.
      * right. left. auto.
      * right. right. exists k. auto.
Qed.

Lemma split_in_block {A} (l1 l2 p q : list A) (y : A) :
  l1 ++ l2 = p ++ y :: q ->
  (exists k, l1 = p ++ y :: k /\ q = k ++ l2) \/ (exists k, p = l1 ++ k /\ l2 = k ++ y :: q).
Proof.
  revert p. induction l1 as [|a l1 IH]; intros p H.
  - right. exists p. auto.
  - destruct p as [|b p]; cbn in H.
    + injection H as -> <-. left. exists l1. auto.
    + injection H as -> H. destruct (IH p H) as [(k & -> & ->) | (k & -> & ->)].
      * left. exists k. auto.
      * right. exists k. auto.
Qed.



Lemma examination_nil_app (a b : Trace) :
  examination (a ++ b) = [] -> examination a = [] /\ examination b = [].
Proof. rewrite examination_app. apply app_eq_nil. Qed.

(** ** Server resolution *)

(** The order in which the source lists the tiers and their
    identifiers. *)
Example schedule_of_server_priority :
  schedule server_priority
  = [ inl "Server One";
      inr (Literal "Server One"); inr (Literal "VCloud Server 1");
      inr (Literal "server-one-button"); inr (Pattern "server\s*1");
      inl "FSL Server";
      inr (Literal "FSL Server"); inr (Literal "Fast Server Link");
      inr (Literal "fsl-server-link"); inr (Pattern "fsl");
      inl "10 Gbps Server";
      inr (Literal "10 Gbps Server"); inr (Literal "10Gbps Speed");
      inr (Literal "high-speed-server"); inr (Pattern "10\s*gbps") ].
Proof. reflexivity. Qed.

Ltac exec_hook x ::=
  lazymatch x with
  | close_playwright_resources ?env (Some ?b) (Some ?c) ?flag tt ?t =>
      exec_use (close_spec env b c flag t) x;
      match goal with
      | H : exists e1 e2, _ = Returns tt /\ _ = _ ++ closing_trace _ _ e1 e2 |- _ =>
          destruct H as (? & ? & -> & ->)
      end
  | PyStr.truthy (_ ++ DUMMY_SUFFIX)%string => rewrite dummy_link_truthy
  | context [PyStr.truthy ?l] =>
      match goal with
      | Hl : PyStr.truthy l = true |- _ => rewrite Hl
      end
  | tier_search ?env ?p ?c ?prio ?f ?t =>
      let Hq := fresh "Hq" in
      let Hl := fresh "Hl" in
      exec_use (tier_search_spec env p c prio f t eq_refl) x;
      match goal with
      | H : exists new, _ = _ ++ new /\ _ |- _ =>
          destruct H as (? & -> & -> & Hq & _ & [(-> & _) | (? & -> & Hl & _)])
      end
  end.


Lemma no_scraping_raise (new : Trace) :
  Forall (fun ev => raised_while_scraping ev = false) new ->
  Exists (fun ev => raised_while_scraping ev = true) new -> False.
Proof.
  intros Hall Hex. apply List.Exists_exists in Hex as (ev & Hin & Hev).
  rewrite List.Forall_forall in Hall. rewrite (Hall ev Hin) in Hev. discriminate.
Qed.






(** ** Exceptions stay inside the operations *)

Lemma quiet_no_error (pre post : Trace) (ev : Event) :
  quiet (pre ++ ev :: post) -> is_scrape_error ev = true -> False.
Proof.
  intros Hq Hev. unfold quiet in Hq. rewrite List.Forall_forall in Hq.
  rewrite Hq in Hev; [discriminate |]. apply in_or_app. right. left. reflexivity.
Qed.

Lemma milestones_app (a b : Trace) : milestones (a ++ b) = milestones a ++ milestones b.
Proof. apply omap_app. Qed.

(** *** Every exception that ends a search attempt is reported *)

Lemma reported_app (site_url : string) (a b : Trace) :
  reported site_url a -> reported site_url b -> reported site_url (a ++ b).
Proof.
  intros Ha Hb. induction a as [|ev a IH]; [exact Hb |].
  destruct Ha as [Hev Ha]. split; [| apply IH; exact Ha].
  intros e He. destruct (Hev e He) as (k & rest' & ->).
  exists k, (rest' ++ b). reflexivity.
Qed.

Lemma reported_cons (site_url : string) (ev : Event) (rest : Trace) :
  attempt_ended_by ev = None -> reported site_url rest -> reported site_url (ev :: rest).
Proof. intros Hev Hrest. split; [intros e He; congruence | exact Hrest]. Qed.

Lemma reported_unbroken (site_url : string) (a : Trace) :
  unbroken a -> reported site_url a.
Proof.
  intros Ha. induction Ha as [|ev a Hev _ IH]; [exact I |].
  apply reported_cons; assumption.
Qed.

Lemma report_ends_nothing (site_url : string) (k : nat) (e : exn) :
  attempt_ended_by (search_error_report site_url k e) = None.
Proof. destruct e; reflexivity. Qed.

Lemma reported_raise (site_url : string) (pre : Trace) (last : Event) (e : exn)
    (k : nat) (rest : Trace) :
  unbroken pre -> attempt_ended_by last = Some e -> reported site_url rest ->
  reported site_url (pre ++ last :: search_error_report site_url k e :: rest).
Proof.
  intros Hpre Hlast Hrest.
  apply reported_app; [apply reported_unbroken; exact Hpre |].
  split.
  - intros e' He'. rewrite Hlast in He'. injection He' as <-. eauto.
  - apply reported_cons; [apply report_ends_nothing | exact Hrest].
Qed.

Lemma reported_split (site_url : string) (new pre post : Trace) (ev : Event) (e : exn) :
  reported site_url new -> new = pre ++ ev :: post -> attempt_ended_by ev = Some e ->
  exists k post', post = search_error_report site_url k e :: post'.
Proof.
  intros Hnew -> Hev. induction pre as [|a pre IH].
  - destruct Hnew as [H _]. exact (H e Hev).
  - destruct Hnew as [_ H]. exact (IH H).
Qed.

Lemma closing_unbroken (c b : handle) (e1 e2 : option exn) :
  unbroken (closing_trace c b e1 e2).
Proof. destruct e1, e2; repeat constructor. Qed.

(** The last event of a trace made of explicit events and blocks. *)
Lemma snoc_one {A} (a : A) : [a] = [] ++ [a].
Proof. reflexivity. Qed.

Lemma snoc_cons {A} (a last : A) (l pre : list A) :
  l = pre ++ [last] -> a :: l = (a :: pre) ++ [last].
Proof. intros ->. reflexivity. Qed.

Lemma snoc_app {A} (last : A) (x l pre : list A) :
  l = pre ++ [last] -> x ++ l = (x ++ pre) ++ [last].
Proof. intros ->. apply app_assoc. Qed.

Ltac last_event :=
  repeat first [apply snoc_one | apply snoc_cons | apply snoc_app].

Ltac unbroken_is :=
  unfold unbroken in *; each_event;
  first [reflexivity | assumption | apply closing_unbroken].

(** [raises_at_end r new] at the end of a run. *)
Ltac ends_is :=
  lazymatch goal with
  | |- raises_at_end (Returns _) _ => cbn [raises_at_end]; unbroken_is
  | |- raises_at_end (Raises _) _ =>
      cbn [raises_at_end]; eexists _, _;
      split; [last_event |]; split; [unbroken_is | first [reflexivity | assumption]]
  end.

(** Open what is known of a block that was run. *)
Ltac open_ends H r :=
  destruct r; cbn [raises_at_end] in H;
  [ | let Hpre := fresh "Hpre" in
      let Hlast := fresh "Hlast" in
      destruct H as (? & ? & -> & Hpre & Hlast) ].

Ltac exec_hook x ::=
  lazymatch x with
  | fill_generic_inputs ?env ?a ?b ?inputs ?s ?t1 =>
      match goal with
      | IH : context [fill_generic_inputs] |- _ =>
          let He := fresh "Hends" in
          exec_use (IH t1) x;
          match goal with
          | H : exists new, _ = _ ++ new /\ _ |- _ => destruct H as (? & -> & -> & He)
          end;
          match type of He with raises_at_end ?r _ => open_ends He r end
      end
  end.

Lemma fill_generic_inputs_ends (env : Env) {S} (site_url movie_name : string)
    (inputs : list handle) (s : S) (t : Trace) :
  outcome_sat (fill_generic_inputs env site_url movie_name inputs s t)
    (fun r s' t' => exists new, t' = t ++ new /\ s' = s /\ raises_at_end r new).
Proof.
  revert t. induction inputs as [|el inputs IH]; intros t.
  - exists []. rewrite app_nil_r. repeat split; constructor.
  - cbn [fill_generic_inputs]. exec.
    all: eexists; (split; [normalize_trace; reflexivity |]); split; [reflexivity |].
    all: ends_is.
Qed.

Ltac exec_hook x ::=
  lazymatch x with
  | fill_generic_inputs ?env ?a ?b ?inputs ?s ?t1 =>
      let He := fresh "Hends" in
      exec_use (fill_generic_inputs_ends env a b inputs s t1) x;
      match goal with
      | H : exists new, _ = _ ++ new /\ _ |- _ => destruct H as (? & -> & -> & He)
      end;
      match type of He with raises_at_end ?r _ => open_ends He r end
  end.

Lemma fill_search_bar_ends (env : Env) {S} (p : handle) (site_url movie_name : string)
    (s : S) (t : Trace) :
  outcome_sat (fill_search_bar env p site_url movie_name s t)
    (fun r s' t' => exists new, t' = t ++ new /\ s' = s /\ raises_at_end r new).
Proof.
  unfold fill_search_bar, query_selector_all. exec.
  all: eexists; (split; [normalize_trace; reflexivity |]); split; [reflexivity |].
  all: ends_is.
Qed.

Lemma submit_search_ends (env : Env) {S} (p : handle) (site_url : string)
    (s : S) (t : Trace) :
  outcome_sat (submit_search env p site_url s t)
    (fun r s' t' => exists new, t' = t ++ new /\ s' = s /\ raises_at_end r new).
Proof.
  unfold submit_search. exec.
  all: eexists; (split; [normalize_trace; reflexivity |]); split; [reflexivity |].
  all: ends_is.
Qed.

Ltac exec_hook x ::=
  lazymatch x with
  | fill_search_bar ?env ?p ?a ?b ?s ?t1 =>
      let He := fresh "Hends" in
      exec_use (fill_search_bar_ends env p a b s t1) x;
      match goal with
      | H : exists new, _ = _ ++ new /\ _ |- _ => destruct H as (? & -> & -> & He)
      end;
      match type of He with raises_at_end ?r _ => open_ends He r end
  | submit_search ?env ?p ?a ?s ?t1 =>
      let He := fresh "Hends" in
      exec_use (submit_search_ends env p a s t1) x;
      match goal with
      | H : exists new, _ = _ ++ new /\ _ |- _ => destruct H as (? & -> & -> & He)
      end;
      match type of He with raises_at_end ?r _ => open_ends He r end
  end.

Lemma reach_results_page_ends (env : Env) (site_url movie_name : string)
    (f : Frame (list SearchResult)) (t : Trace) :
  outcome_sat (reach_results_page env site_url movie_name f t)
    (fun r _ t' => exists new, t' = t ++ new /\ raises_at_end r new).
Proof.
  unfold reach_results_page, get_playwright_page. exec.
  all: eexists; (split; [normalize_trace; reflexivity |]).
  all: ends_is.
Qed.

Ltac reported_is :=
  repeat first
    [ exact I
    | assumption
    | apply reported_app
    | apply reported_cons; [reflexivity |]
    | apply reported_unbroken; apply closing_unbroken ].

Ltac exec_hook x ::=
  lazymatch x with
  | close_playwright_resources ?env (Some ?b) (Some ?c) ?flag tt ?t =>
      exec_use (close_spec env b c flag t) x;
      match goal with
      | H : exists e1 e2, _ = Returns tt /\ _ = _ ++ closing_trace _ _ e1 e2 |- _ =>
          destruct H as (? & ? & -> & ->)
      end
  | reach_results_page ?env ?a ?b (mkFrame None None ?c0 ?p0 ?res) ?t =>
      let He := fresh "Hends" in
      let Heq := fresh "Heq" in
      let Hr := fresh "Hr" in
      pose proof (reach_results_page_ends env a b (mkFrame None None c0 p0 res) t) as He;
      unfold outcome_sat in He;
      exec_use (reach_results_page_spec env a b c0 p0 res t) x;
      cbn [fst snd] in He;
      match goal with
      | H : exists new, _ = _ ++ new /\ quiet new /\ _ |- _ =>
          destruct H as (? & -> & _ & _ & Hr)
      end;
      destruct He as (? & Heq & He);
      apply app_inv_head in Heq; subst;
      match type of Hr with
      | match ?r with _ => _ end =>
          destruct r; cbn beta iota in Hr; cbn [raises_at_end] in He;
          [ destruct Hr as ((? & ? & ? & ->) & _)
          | destruct Hr as (_ & [-> | (? & ? & ? & ? & ->)]);
            destruct He as (? & ? & -> & ? & ?) ]
      end
  end.

(** One iteration of the retry loop: whatever ends the attempt is
    followed at once by the report of the [except] clause that caught
    it. *)
Lemma search_attempt_reported (env : Env) (site_url movie_name : string) (attempt : nat)
    (c0 p0 : option handle) (t : Trace) :
  outcome_sat
    (search_attempt env site_url movie_name attempt (mkFrame None None c0 p0 []) t)
    (fun _ _ t' => exists new, t' = t ++ new /\ reported site_url new).
Proof.
  unfold search_attempt, discard_session, scrape_dummy_results, looks_redirected.
  exec.
  all: eexists; (split; [normalize_trace; reflexivity |]).
  all: first
         [ match goal with
           | Hl : attempt_ended_by ?last = Some ?e
             |- reported ?site
                  (?pre ++ ?last :: mkEvent (Log ERROR _ [_; LNat ?k; _]) None :: ?rest) =>
               apply (reported_raise site pre last e k rest);
               [assumption | exact Hl | apply reported_unbroken; unbroken_is]
           end
         | apply reported_unbroken; unbroken_is ].
Qed.

Lemma outcome_sat_and {S A} (x : outcome A * S * Trace)
    (P Q : outcome A -> S -> Trace -> Prop) :
  outcome_sat x P -> outcome_sat x Q -> outcome_sat x (fun r s t => P r s t /\ Q r s t).
Proof. intros HP HQ. split; assumption. Qed.

Ltac exec_hook x ::=
  lazymatch x with
  | close_playwright_resources ?env (Some ?b) (Some ?c) ?flag tt ?t =>
      exec_use (close_spec env b c flag t) x;
      match goal with
      | H : exists e1 e2, _ = Returns tt /\ _ = _ ++ closing_trace _ _ e1 e2 |- _ =>
          destruct H as (? & ? & -> & ->)
      end
  | search_attempt ?env ?a ?b ?n (mkFrame None None ?c0 ?p0 []) ?t =>
      let Hrep := fresh "Hrep" in
      let Heq := fresh "Heq" in
      let Hlt := fresh "Hlt" in
      pose proof (search_attempt_reported env a b n c0 p0 t) as Hrep;
      unfold outcome_sat in Hrep;
      exec_use (search_attempt_spec env a b n c0 p0 t) x;
      cbn [fst snd] in Hrep;
      match goal with
      | H : exists new, _ = _ ++ new /\ (exists e rest, _) /\ _ |- _ =>
          destruct H as
            (? & -> & _ & _ &
             [ (? & ? & ? & ? & ? & -> & -> & _)
             | [ (? & ? & -> & -> & Hlt)
               | (-> & Hlt & [(? & ? & ? & ? & ->) | (? & ? & ->)]) ] ])
      end;
      destruct Hrep as (? & Heq & Hrep);
      apply app_inv_head in Heq; subst
  end.

(** The whole search: every exception that ends an attempt is
    reported. *)
Lemma search_reported (env : Env) (site_url movie_name : string) (t : Trace) :
  outcome_sat (search_movie_on_site env site_url movie_name tt t)
    (fun _ _ t' => exists new, t' = t ++ new /\ reported site_url new).
Proof.
  unfold search_movie_on_site, search_movie_on_site_body, max_retries.
  exec.
  all: try (unfold max_retries in *; lia).
  all: eexists; (split; [normalize_trace; reflexivity |]).
  all: reported_is.
Qed.

Lemma report_is_scrape_error (site_url : string) (k : nat) (e : exn) :
  is_scrape_error (search_error_report site_url k e) = true.
Proof. destruct e; reflexivity. Qed.

Lemma report_no_milestone (site_url : string) (k : nat) (e : exn) (rest : Trace) :
  milestones (search_error_report site_url k e :: rest) = milestones rest.
Proof. destruct e; reflexivity. Qed.

(** C5 as the code has it. None of the four operations raises: each
    returns a value whatever the environment does.  Source discovery
    and option discovery return the empty list, with an error report in
    the log, as soon as any call other than a release raised.  In the
    search, every exception that ends an attempt is followed at once by
    the error report that carries it, and the search returns the empty
    list whenever no further attempt follows.  Server resolution
    returns no link, with an error report in the log, whenever a call
    raised before the tier search began. *)
Theorem operations_return_instead_of_raising (env : Env) :
  (forall vglist_url t,
      exists r new,
        get_movie_source_websites env vglist_url tt t = (Returns r, tt, t ++ new)
        /\ (Exists (fun ev => raised_while_scraping ev = true) new ->
            r = [] /\ Exists (fun ev => is_scrape_error ev = true) new))
  /\
  (forall detail_page_url source_site t,
      exists r new,
        get_movie_download_options env detail_page_url source_site tt t
        = (Returns r, tt, t ++ new)
        /\ (Exists (fun ev => raised_while_scraping ev = true) new ->
            r = [] /\ Exists (fun ev => is_scrape_error ev = true) new))
  /\
  (forall site_url movie_name t,
      exists r new,
        search_movie_on_site env site_url movie_name tt t = (Returns r, tt, t ++ new)
        /\ (forall pre ev post e,
               new = pre ++ ev :: post -> attempt_ended_by ev = Some e ->
               (exists k post', post = search_error_report site_url k e :: post')
               /\ (milestones post = [] -> r = [])))
  /\
  (forall download_trigger_url source_site t,
      exists r new,
        get_final_vcloud_download_link env download_trigger_url source_site tt t
        = (Returns r, tt, t ++ new)
        /\ (forall pre ev post,
               new = pre ++ ev :: post -> examination pre = [] ->
               raised_while_scraping ev = true ->
               r = None /\ Exists (fun ev => is_scrape_error ev = true) new)).
Proof.
  repeat split.
  - intros url t.
    destruct (outcome_sat_elim _ _ (source_websites_spec env url t))
      as (r & [] & t' & Heq & new & -> & [(-> & Hall) | (-> & Herr)]).
    + eexists _, _. split; [exact Heq |]. intros Hex.
      destruct (no_scraping_raise _ Hall Hex).
    + eexists _, _. split; [exact Heq |]. intros _. split; [reflexivity | exact Herr].
  - intros url site t.
    destruct (outcome_sat_elim _ _ (download_options_spec env url site t))
      as (r & [] & t' & Heq & new & -> & [(options & -> & Hall) | (-> & Herr)]).
    + eexists _, _. split; [exact Heq |]. intros Hex.
      destruct (no_scraping_raise _ Hall Hex).
    + eexists _, _. split; [exact Heq |]. intros _. split; [reflexivity | exact Herr].
  - intros site q t.
    destruct (outcome_sat_elim _ _
                (outcome_sat_and _ _ _ (search_spec env site q t)
                   (search_reported env site q t)))
      as (r & [] & t' & Heq & (new & -> & _ & Hres) & (new' & Hnew & Hrep)).
    apply app_inv_head in Hnew. subst new'.
    assert (exists res, r = Returns res) as [res ->]
      by (destruct Hres as [-> | (res & ? & ? & -> & _)]; eauto).
    eexists _, _. split; [exact Heq |]. intros pre ev post e Hsplit Hev.
    destruct (reported_split _ _ _ _ _ _ Hrep Hsplit Hev) as (k & post' & ->).
    split; [eauto |]. intros Hpost.
    destruct Hres as [Hr | (res' & pre0 & last & Hr & Hne & -> & Hq & Hm)];
      [congruence |].
    exfalso. rewrite report_no_milestone in Hpost.
    assert (pre0 ++ last
            = (pre ++ [ev]) ++ search_error_report site k e :: post') as Hsplit'
      by (rewrite Hsplit; exact (List.app_assoc pre [ev] _)).
    destruct (split_in_block _ _ _ _ _ Hsplit') as [(j & _ & ->) | (j & _ & ->)].
    + rewrite milestones_app in Hpost.
      apply app_eq_nil in Hpost as [_ Hlast]. contradiction.
    + apply (quiet_no_error _ _ _ Hq (report_is_scrape_error site k e)).
  - intros url site t.
    destruct (outcome_sat_elim _ _ (resolve_spec env url site t))
      as (r & [] & t' & Heq & new & -> & Hcases).
    destruct Hcases as
      [(-> & Herr & Hex & Hs)
      | (pre0 & rest & -> & Hraise & Hex0 & (rest' & ->) & Hq & Hcases)].
    + eexists _, _. split; [exact Heq |].
      intros. split; [reflexivity | exact Herr].
    + assert (exists r', r = Returns r') as [r' ->]
        by (destruct Hcases as [(-> & _) | (l & ? & ? & ? & -> & _)]; eauto).
      eexists _, _. split; [exact Heq |].
      intros pre ev post Hsplit Hpre Hev. exfalso.
      destruct (split_cases _ _ _ _ _ _ Hsplit)
        as [(k & -> & ->) | [(-> & -> & ->) | (k & -> & ->)]].
      * apply List.Forall_forall with (x := ev) in Hraise;
          [| apply in_or_app; right; left; reflexivity].
        unfold raised_while_scraping in Hev. rewrite Hraise in Hev. discriminate.
      * discriminate.
      * apply examination_nil_app in Hpre as [_ Hpre]. discriminate.
Qed.

(** The claim read literally fails: the search returns results after
    a timeout that ended its first attempt, server resolution returns
    a link after the probe of an identifier timed out, and source
    discovery returns its sites although closing the context raised. *)
Lemma results_returned_although_a_call_raised :
  (exists results new,
      search_movie_on_site env_first_goto_times_out ALPHA_SITE "Inception" tt []
      = (Returns results, tt, new)
      /\ results <> []
      /\ Exists (fun ev => is_Some (attempt_ended_by ev)) new)
  /\
  (exists new,
      get_final_vcloud_download_link env_probe_times_out_then_link
        "https://films.example.org/x" "https://films.example.org" tt []
      = (Returns (Some TEN_GBPS_LINK), tt, new)
      /\ Exists (fun ev => raised_while_scraping ev = true) new)
  /\
  (exists new,
      get_movie_source_websites env_context_close_fails "https://vglist.nl" tt []
      = (Returns DUMMY_SOURCE_SITES, tt, new)
      /\ Exists (fun ev => is_Some (ev_raised ev)) new).
Proof.
  split; [| split].
  - eexists _, _. split; [vm_compute; reflexivity |].
    split; [discriminate |].
    repeat first [ apply List.Exists_cons_hd; vm_compute; eexists; reflexivity
                 | apply List.Exists_cons_tl ].
  - eexists. split; [vm_compute; reflexivity |]. some_event.
  - eexists. split; [vm_compute; reflexivity |].
    repeat first [ apply List.Exists_cons_hd; vm_compute; eexists; reflexivity
                 | apply List.Exists_cons_tl ].
Qed.

(** ** The retry budget of the search *)

Lemma tally_app (m : milestone) (a b : list milestone) :
  tally m (a ++ b) = (tally m a + tally m b)%nat.
Proof. induction a as [|x a IH]; cbn; [reflexivity | rewrite IH; lia]. Qed.

Lemma tally_prefix_of_attempt (m : milestone) (a : list milestone) :
  a `prefix_of` ATTEMPT -> (tally m a <= 1)%nat.
Proof.
  intros [k Hk].
  assert (tally m ATTEMPT <= 1)%nat as Hall by (destruct m; cbn; lia).
  rewrite Hk, tally_app in Hall. lia.
Qed.

(** Calls of the kind [P] are among the steps [m] of the attempts. *)
Lemma count_calls_tally (P : Call -> bool) (m : milestone) (new : Trace) :
  (forall ev, P (ev_call ev) = true -> milestone_of ev = Some m) ->
  (count_calls P new <= tally m (milestones new))%nat.
Proof.
  intros HP. induction new as [|ev new IH]; [cbn; lia |].
  unfold milestones in *. cbn [count_calls omap list_omap].
  destruct (P (ev_call ev)) eqn:HPev.
  - rewrite (HP ev HPev). cbn [tally].
    replace (milestone_eqb m m) with true by (destruct m; reflexivity). lia.
  - destruct (milestone_of ev); cbn [tally]; lia.
Qed.

Lemma at_most_twice (P : Call -> bool) (m : milestone) (new : Trace)
    (a1 a2 : list milestone) :
  (forall ev, P (ev_call ev) = true -> milestone_of ev = Some m) ->
  milestones new = a1 ++ a2 -> a1 `prefix_of` ATTEMPT -> a2 `prefix_of` ATTEMPT ->
  (count_calls P new <= 2)%nat.
Proof.
  intros HP Hnew H1 H2.
  pose proof (count_calls_tally P m new HP) as Hle.
  rewrite Hnew, tally_app in Hle.
  pose proof (tally_prefix_of_attempt m a1 H1).
  pose proof (tally_prefix_of_attempt m a2 H2). lia.
Qed.

(** C7. Every run of [search_movie_on_site] returns a list and is made
    of at most two attempts: its steps (start the driver, launch,
    navigate, fill the search bar, press Enter, scrape) are those of
    one attempt, possibly cut short, followed by those of at most one
    more.  So the driver is started, the browser launched, the site
    navigated to, the search bar filled and Enter pressed at most twice
    each. *)
Theorem search_makes_at_most_two_attempts
    (env : Env) (site_url movie_name : string) (t : Trace) :
  exists results new,
    search_movie_on_site env site_url movie_name tt t = (Returns results, tt, t ++ new)
    /\ (exists a1 a2, milestones new = a1 ++ a2 /\
                      a1 `prefix_of` ATTEMPT /\ a2 `prefix_of` ATTEMPT)
    /\ (count_calls is_start new <= 2)%nat
    /\ (count_calls is_launch new <= 2)%nat
    /\ (count_calls is_goto new <= 2)%nat
    /\ (count_calls is_search_fill new <= 2)%nat
    /\ (count_calls is_press_enter new <= 2)%nat.
Proof.
  destruct (outcome_sat_elim _ _ (search_spec env site_url movie_name t))
    as (r & [] & t' & Heq & new & -> & (a1 & a2 & Hm & H1 & H2) & Hr).
  assert (exists results, r = Returns results) as [results ->]
    by (destruct Hr as [-> | (res & ? & ? & -> & _)]; eauto).
  exists results, new. split; [exact Heq |].
  split; [exists a1, a2; auto |].
  repeat split.
  - apply (at_most_twice is_start MStart new a1 a2); auto.
    intros [[] e]; cbn; congruence.
  - apply (at_most_twice is_launch MLaunch new a1 a2); auto.
    intros [[] e]; cbn; congruence.
  - apply (at_most_twice is_goto MGoto new a1 a2); auto.
    intros [[] e]; cbn; congruence.
  - apply (at_most_twice is_search_fill MFill new a1 a2); auto.
    intros [[] e]; cbn; congruence.
  - apply (at_most_twice is_press_enter MSubmit new a1 a2); auto.
    intros [[] e]; cbn; congruence.
Qed.

(** ** Release of the session *)

(** C3, at an input where the code leaks. When the browser has been
    launched and creating its context raises, each of the four
    operations returns its empty value although one browser and one
    driver were started and neither [browser.close()] nor
    [playwright.stop()] was called. *)
Theorem browser_left_open_when_context_creation_fails :
  (exists new,
      get_movie_source_websites env_new_context_fails "https://vglist.nl/" tt []
      = (Returns [], tt, new)
      /\ count_started_browsers new = 1%nat /\ count_calls is_browser_close new = 0%nat
      /\ count_started_drivers new = 1%nat /\ count_calls is_stop new = 0%nat)
  /\
  (exists new,
      search_movie_on_site env_new_context_fails ALPHA_SITE "Inception" tt []
      = (Returns [], tt, new)
      /\ count_started_browsers new = 2%nat /\ count_calls is_browser_close new = 0%nat
      /\ count_started_drivers new = 2%nat /\ count_calls is_stop new = 0%nat)
  /\
  (exists new,
      get_movie_download_options env_new_context_fails
        "https://dummy-movie-site-alpha.com/movie/inception-details-1" ALPHA_SITE tt []
      = (Returns [], tt, new)
      /\ count_started_browsers new = 1%nat /\ count_calls is_browser_close new = 0%nat
      /\ count_started_drivers new = 1%nat /\ count_calls is_stop new = 0%nat)
  /\
  (exists new,
      get_final_vcloud_download_link env_new_context_fails
        "https://dummy-movie-site-alpha.com/movie/inception-details-1/download?q=720&l=eng"
        ALPHA_SITE tt []
      = (Returns None, tt, new)
      /\ count_started_browsers new = 1%nat /\ count_calls is_browser_close new = 0%nat
      /\ count_started_drivers new = 1%nat /\ count_calls is_stop new = 0%nat).
Proof.
  repeat split; eexists; (split; [vm_compute; reflexivity |]); repeat split.
Qed.

(** ** The redirect test of the search *)

Lemma startswith_contains (s p : string) :
  PyStr.startswith s p = true -> PyStr.contains p s = true.
Proof.
  unfold PyStr.startswith. intros H. destruct s; cbn [PyStr.contains]; rewrite H; reflexivity.
Qed.

Lemma not_contained_not_prefix (s p : string) :
  PyStr.contains p s = false -> PyStr.startswith s p = false.
Proof.
  intros H. destruct (PyStr.startswith s p) eqn:Hs; [| reflexivity].
  rewrite (startswith_contains _ _ Hs) in H. discriminate.
Qed.

(** A first attempt that reached the results page, on which the site's
    URL does not occur in the URL of the page. *)
Lemma redirected_first_attempt (env : Env) (site_url movie_name : string)
    (c0 p0 : option handle) (t0 t1 : Trace) (p : handle)
    (f1 : Frame (list SearchResult)) :
  reach_results_page env site_url movie_name (mkFrame None None c0 None []) t0
  = (Returns p, f1, t1) ->
  PyStr.contains site_url (env_url env t1 p) = false ->
  exists pw b c e1 e2,
    f1 = mkFrame (Some pw) (Some b) (Some c) (Some p) [] /\
    search_attempt env site_url movie_name 0 (mkFrame None None c0 p0 []) t0
    = (Returns Next, mkFrame None None (Some c) (Some p) [],
       t1 ++ mkEvent (Log WARNING REDIRECT_WARNING
                        [LStr site_url; LStr (env_url env t1 p); LNat 1]) None
          :: closing_trace c b e1 e2 ++ [mkEvent (AsyncioSleep 2000) None]).
Proof.
  intros Hreach Hurl.
  pose proof (reach_results_page_spec env site_url movie_name c0 None [] t0) as Hspec.
  rewrite Hreach in Hspec. unfold outcome_sat in Hspec. cbn [fst snd] in Hspec.
  destruct Hspec as (new & -> & _ & _ & (pw & b & c & ->) & _).
  destruct (outcome_sat_elim _ _
              (close_spec env b c true
                 (t0 ++ new ++ [mkEvent (Log WARNING REDIRECT_WARNING
                        [LStr site_url; LStr (env_url env (t0 ++ new) p); LNat 1]) None])))
    as (r & [] & t' & Hclose & e1 & e2 & -> & ->).
  exists pw, b, c, e1, e2. split; [reflexivity |].
  unfold search_attempt, discard_session, looks_redirected.
  exec_simpl. rewrite Hreach. exec_simpl.
  rewrite Hurl, (not_contained_not_prefix _ _ Hurl). cbn [negb andb max_retries Nat.ltb Nat.leb].
  exec_simpl. normalize_trace.
  rewrite <- app_assoc in Hclose. cbn [app] in Hclose.
  unfold REDIRECT_WARNING in *. cbn [Nat.add]. rewrite Hclose. exec_simpl.
  normalize_trace. reflexivity.
Qed.

Ltac exec_hook x ::=
  lazymatch x with
  | close_playwright_resources ?env (Some ?b) (Some ?c) ?flag tt ?t =>
      exec_use (close_spec env b c flag t) x;
      match goal with
      | H : exists e1 e2, _ = Returns tt /\ _ = _ ++ closing_trace _ _ e1 e2 |- _ =>
          destruct H as (? & ? & -> & ->)
      end
  end.

(** A first attempt that reached the results page, on which the site's
    URL occurs in the URL of the page: the page is scraped. *)
Lemma scraping_first_attempt (env : Env) (site_url movie_name : string)
    (c0 p0 : option handle) (t0 t1 : Trace) (p : handle)
    (f1 : Frame (list SearchResult)) :
  reach_results_page env site_url movie_name (mkFrame None None c0 None []) t0
  = (Returns p, f1, t1) ->
  PyStr.contains site_url (env_url env t1 p) = true ->
  outcome_sat
    (search_attempt env site_url movie_name 0 (mkFrame None None c0 p0 []) t0)
    (fun r f' t' => exists rest,
       t' = t1 ++ mkEvent (Log WARNING USING_DUMMY_RESULTS [LStr site_url]) None :: rest /\
       ((exists pw b c res,
            r = Returns Break /\ f' = mkFrame (Some pw) (Some b) (Some c) (Some p) res) \/
        (exists c' p', r = Returns Next /\ f' = mkFrame None None c' p' []))).
Proof.
  intros Hreach Hurl.
  pose proof (reach_results_page_spec env site_url movie_name c0 None [] t0) as Hspec.
  rewrite Hreach in Hspec. unfold outcome_sat in Hspec. cbn [fst snd] in Hspec.
  destruct Hspec as (new & -> & _ & _ & (pw & b & c & ->) & _).
  unfold search_attempt, discard_session, scrape_dummy_results, looks_redirected.
  exec_simpl. rewrite Hreach. exec_simpl. rewrite Hurl. exec.
  all: eexists; (split; [do 3 normalize_trace; reflexivity |]).
  all: first [ left; eexists _, _, _, _; split; reflexivity
             | right; eexists _, _; split; reflexivity ].
Qed.

Ltac exec_hook x ::=
  lazymatch x with
  | close_playwright_resources ?env (Some ?b) (Some ?c) ?flag tt ?t =>
      exec_use (close_spec env b c flag t) x;
      match goal with
      | H : exists e1 e2, _ = Returns tt /\ _ = _ ++ closing_trace _ _ e1 e2 |- _ =>
          destruct H as (? & ? & -> & ->)
      end
  | search_attempt ?env ?a ?b 0 (mkFrame None None ?c0 ?p0 []) ?t =>
      match goal with
      | Hr : reach_results_page _ _ _ _ _ = _, Hu : PyStr.contains _ _ = true |- _ =>
          exec_use (scraping_first_attempt env a b c0 p0 t _ _ _ Hr Hu) x;
          match goal with
          | H : exists rest, _ = _ ++ _ :: rest /\ _ |- _ =>
              destruct H as (? & -> & [(? & ? & ? & ? & -> & ->) | (? & ? & -> & ->)])
          end
      end
  | search_attempt ?env ?a ?b 1 (mkFrame None None ?c0 ?p0 []) ?t =>
      let Hstart := fresh "Hstart" in
      let Hpre := fresh "Hpre" in
      exec_use (search_attempt_spec env a b 1 c0 p0 t) x;
      match goal with
      | H : exists new, _ = _ ++ new /\ _ |- _ =>
          destruct H as
            (? & -> & Hstart & Hpre &
             [ (? & ? & ? & ? & ? & -> & -> & _)
             | [ (? & ? & -> & -> & _)
               | (-> & _ & [(? & ? & ? & ? & ->) | (? & ? & ->)]) ] ])
      end
  end.

(** C2 as the code has it. The test is made on the text of the URLs:
    when the first attempt has reached the results page and the site's
    URL does not occur in the URL of that page, the attempt is taken
    for an ad redirect: the warning is logged, the context and the
    browser of its session are closed, two seconds are waited, and only
    then one more attempt is made from scratch, beginning with the
    start of a driver.  When the site's URL does occur in the URL of
    the page, the attempt is not taken for a redirect, whatever the
    origin of the page: it goes on to scrape the page. *)
Theorem redirected_attempt_is_discarded_and_retried
    (env : Env) (site_url movie_name : string) (t t1 : Trace) (p : handle)
    (f1 : Frame (list SearchResult)) :
  reach_results_page env site_url movie_name (new_frame [])
    (t ++ [mkEvent (Log INFO SEARCHING_FOR [LStr movie_name; LStr site_url]) None])
  = (Returns p, f1, t1) ->
  (PyStr.contains site_url (env_url env t1 p) = false ->
   exists b c e1 e2 results second,
     browser f1 = Some b /\ context f1 = Some c /\
     search_movie_on_site env site_url movie_name tt t
     = (Returns results, tt,
        t1 ++ mkEvent (Log WARNING REDIRECT_WARNING
                         [LStr site_url; LStr (env_url env t1 p); LNat 1]) None
           :: closing_trace c b e1 e2
           ++ mkEvent (AsyncioSleep 2000) None :: second) /\
     (exists e rest, second = mkEvent PlaywrightStart e :: rest) /\
     milestones second `prefix_of` ATTEMPT)
  /\
  (PyStr.contains site_url (env_url env t1 p) = true ->
   exists results rest,
     search_movie_on_site env site_url movie_name tt t
     = (Returns results, tt,
        t1 ++ mkEvent (Log WARNING USING_DUMMY_RESULTS [LStr site_url]) None :: rest)).
Proof.
  intros Hreach. unfold new_frame in Hreach. split; intros Hurl.
  - destruct (redirected_first_attempt env site_url movie_name None None _ t1 p f1
                Hreach Hurl) as (pw & b & c & e1 & e2 & -> & Hfirst).
    exists b, c, e1, e2.
    enough (outcome_sat (search_movie_on_site env site_url movie_name tt t)
              (fun r _ t' => exists results second,
                 r = Returns results /\
                 t' = t1 ++ mkEvent (Log WARNING REDIRECT_WARNING
                          [LStr site_url; LStr (env_url env t1 p); LNat 1]) None
                         :: closing_trace c b e1 e2
                         ++ mkEvent (AsyncioSleep 2000) None :: second /\
                 (exists e rest, second = mkEvent PlaywrightStart e :: rest) /\
                 milestones second `prefix_of` ATTEMPT)) as Hsat.
    { destruct (outcome_sat_elim _ _ Hsat)
        as (r & [] & t' & Heq & results & second & -> & -> & Hstart & Hpre).
      exists results, second. repeat split; assumption. }
    unfold search_movie_on_site, search_movie_on_site_body, max_retries.
    exec_simpl. rewrite Hfirst. exec.
    all: eexists _, _; (split; [reflexivity |]).
    all: split; [do 3 normalize_trace; reflexivity |].
    all: split; [destruct Hstart as (? & ? & ->); eexists _, _; reflexivity |].
    all: observe_trace.
  - enough (outcome_sat (search_movie_on_site env site_url movie_name tt t)
              (fun r _ t' => exists results rest,
                 r = Returns results /\
                 t' = t1 ++ mkEvent (Log WARNING USING_DUMMY_RESULTS [LStr site_url]) None
                         :: rest)) as Hsat.
    { destruct (outcome_sat_elim _ _ Hsat)
        as (r & [] & t' & Heq & results & rest & -> & ->).
      exists results, rest. exact Heq. }
    unfold search_movie_on_site, search_movie_on_site_body, max_retries.
    exec.
    all: eexists _, _; (split; [reflexivity |]).
    all: do 3 normalize_trace; reflexivity.
Qed.

Lemma redirected_attempt_is_discarded_and_retried_witness :
  exists p f1 t1,
    reach_results_page env_redirect_once ALPHA_SITE "Inception" (new_frame [])
      ([] ++ [mkEvent (Log INFO SEARCHING_FOR [LStr "Inception"; LStr ALPHA_SITE]) None])
    = (Returns p, f1, t1)
    /\ PyStr.contains ALPHA_SITE (env_url env_redirect_once t1 p) = false
    /\ exists b c e1 e2 results second,
         browser f1 = Some b /\ context f1 = Some c /\
         search_movie_on_site env_redirect_once ALPHA_SITE "Inception" tt []
         = (Returns results, tt,
            t1 ++ mkEvent (Log WARNING REDIRECT_WARNING
                             [LStr ALPHA_SITE; LStr (env_url env_redirect_once t1 p); LNat 1])
                    None
               :: closing_trace c b e1 e2
               ++ mkEvent (AsyncioSleep 2000) None :: second) /\
         (exists e rest, second = mkEvent PlaywrightStart e :: rest) /\
         milestones second `prefix_of` ATTEMPT.
Proof.
  eexists _, _, _.
  split; [vm_compute; reflexivity |].
  split; [vm_compute; reflexivity |].
  apply (redirected_attempt_is_discarded_and_retried env_redirect_once ALPHA_SITE
           "Inception" []); vm_compute; reflexivity.
Defined.

(** The claim read literally fails: the page the first attempt lands
    on has another origin than the site, but its URL carries the site's
    URL in its query, so the attempt is not taken for a redirect: one
    attempt is made, and it returns the placeholder results. *)
Lemma ad_page_naming_the_site_is_not_retried :
  spec_origin AD_LANDING <> spec_origin ALPHA_SITE /\
  (forall t p, env_url env_ad_with_referrer t p = AD_LANDING) /\
  exists results new,
    search_movie_on_site env_ad_with_referrer ALPHA_SITE "Inception" tt []
    = (Returns results, tt, new)
    /\ results <> []
    /\ count_calls is_goto new = 1%nat
    /\ count_started_browsers new = 1%nat.
Proof.
  split; [vm_compute; discriminate |].
  split; [reflexivity |].
  eexists _, _. split; [vm_compute; reflexivity |].
  split; [discriminate |]. split; reflexivity.
Qed.

(** ** The user store *)

Import DataManager.

Section StoreFacts.
Context {value : Type}.
Implicit Types (s : gmap Z (UserRecord value)) (r : UserRecord value).

Lemma sweep_lookup (ks : list Z) s (k : Z) :
  foldl (fun store chat_id =>
           match store !! chat_id with
           | Some _ => delete chat_id store
           | None => store
           end) s ks !! k
  = if decide (k ∈ ks) then None else s !! k.
Proof.
  revert s. induction ks as [|a ks IH]; intros s; cbn [foldl].
  - destruct (decide (k ∈ [])) as [H|_]; [inversion H | reflexivity].
  - rewrite IH.
    assert (match s !! a with Some _ => delete a s | None => s end = delete a s) as ->.
    { destruct (s !! a) eqn:Ha; [reflexivity | symmetry; apply delete_id; exact Ha]. }
    destruct (decide (k ∈ ks)) as [Hin|Hnin].
    + rewrite decide_True; [reflexivity | right; exact Hin].
    + destruct (decide (k = a)) as [->|Hne].
      * rewrite decide_True; [apply lookup_delete_eq | left].
      * rewrite decide_False; [apply lookup_delete_ne; congruence |].
        intros H. apply elem_of_cons in H as [?|?]; contradiction.
Qed.

Lemma cleanup_lookup (now : float) s (k : Z) :
  cleanup_expired_data now s !! k
  = match s !! k with
    | Some r => if expired now r then None else Some r
    | None => None
    end.
Proof.
  unfold cleanup_expired_data. rewrite sweep_lookup.
  destruct (decide _) as [Hin|Hnin].
  - apply list_elem_of_fmap in Hin as ([k' r] & -> & Hin).
    apply list_elem_of_filter in Hin as [Hexp Hin].
    apply elem_of_map_to_list in Hin. cbn in *. rewrite Hin, Hexp. reflexivity.
  - destruct (s !! k) as [r|] eqn:Hk; [| reflexivity].
    destruct (expired now r) eqn:Hexp; [| reflexivity].
    exfalso. apply Hnin. apply list_elem_of_fmap. exists (k, r). split; [reflexivity |].
    apply list_elem_of_filter. split; [exact Hexp | apply elem_of_map_to_list; exact Hk].
Qed.

Lemma store_lookup_same (now : float) (chat_id : Z) (key : string) (v : value) s :
  store_user_data now chat_id key v s !! chat_id
  = Some (mkUserRecord now
            (<[key := v]> (match s !! chat_id with Some r => data r | None => ∅ end))).
Proof.
  unfold store_user_data. destruct (s !! chat_id) as [r|] eqn:Hs.
  - rewrite !lookup_alter_eq, Hs. reflexivity.
  - rewrite lookup_alter_eq, lookup_insert_eq. reflexivity.
Qed.

Lemma store_lookup_other (now : float) (chat_id k : Z) (key : string) (v : value) s :
  k <> chat_id -> store_user_data now chat_id key v s !! k = s !! k.
Proof.
  intros Hne. unfold store_user_data. destruct (s !! chat_id) as [r|] eqn:Hs.
  - rewrite !lookup_alter_ne by congruence. reflexivity.
  - rewrite lookup_alter_ne, lookup_insert_ne by congruence. reflexivity.
Qed.


End StoreFacts.

(** C10. [cleanup_expired_data] removes exactly the records whose
    timestamp lies more than [DATA_EXPIRY_SECONDS] before the current
    time and keeps every other record as it is; [store_user_data] sets
    the timestamp of the record it writes to the time of the write, so
    a record that has been written to survives a cleanup exactly when
    the time since that write is not greater than the limit, whatever
    its earlier timestamp. *)
Theorem cleanup_removes_exactly_expired_records {value : Type}
    (current_time now : float) (chat_id k : Z) (key : string) (v : value)
    (s : gmap Z (UserRecord value)) :
  cleanup_expired_data current_time s !! k
  = match s !! k with
    | Some r => if PrimFloat.ltb expiry_float (PrimFloat.sub current_time (timestamp r))
                then None else Some r
    | None => None
    end
  /\ (exists d, store_user_data now chat_id key v s !! chat_id = Some (mkUserRecord now d))
  /\ cleanup_expired_data current_time (store_user_data now chat_id key v s) !! chat_id
     = if PrimFloat.ltb expiry_float (PrimFloat.sub current_time now)
       then None else store_user_data now chat_id key v s !! chat_id.
Proof.
  split; [apply cleanup_lookup |].
  split; [rewrite store_lookup_same; eexists; reflexivity |].
  rewrite cleanup_lookup, store_lookup_same. unfold expired. cbn [timestamp].
  reflexivity.
Qed.


(** * Further properties of the code *)

(** ** More on the user store *)

Section StoreUse.
Context {value : Type}.
Implicit Types (s : gmap Z (UserRecord value)) (r : UserRecord value).

(** What was stored under a key of a chat is what is read back. *)
Lemma get_after_store (now : float) (chat_id : Z) (key : string) (v : value) s :
  get_user_data chat_id key (store_user_data now chat_id key v s) = Some v.
Proof.
  unfold get_user_data. rewrite store_lookup_same. cbn [data].
  apply lookup_insert_eq.
Qed.

(** A write changes what is read under no other key and in no other
    chat. *)
Lemma get_after_store_elsewhere (now : float) (chat_id chat_id' : Z)
    (key key' : string) (v : value) s :
  chat_id' <> chat_id \/ key' <> key ->
  get_user_data chat_id' key' (store_user_data now chat_id key v s)
  = get_user_data chat_id' key' s.
Proof.
  intros Hne. unfold get_user_data.
  destruct (decide (chat_id' = chat_id)) as [-> | Hchat].
  - destruct Hne as [? | Hkey]; [congruence |].
    rewrite store_lookup_same. cbn [data]. rewrite lookup_insert_ne by congruence.
    destruct (s !! chat_id); [reflexivity | apply lookup_empty].
  - rewrite store_lookup_other by exact Hchat. reflexivity.
Qed.

Lemma clear_lookup (chat_id k : Z) s :
  clear_user_data chat_id s !! k = if decide (k = chat_id) then None else s !! k.
Proof.
  unfold clear_user_data. destruct (decide (k = chat_id)) as [-> | Hne].
  - destruct (s !! chat_id) eqn:Hs; [apply lookup_delete_eq | exact Hs].
  - destruct (s !! chat_id); [apply lookup_delete_ne; congruence | reflexivity].
Qed.

(** After [clear_user_data] nothing is read for the chat, whether or
    not it had a record; the other chats read as before. *)
Lemma get_after_clear (chat_id chat_id' : Z) (key : string) s :
  get_user_data chat_id' key (clear_user_data chat_id s)
  = if decide (chat_id' = chat_id) then None else get_user_data chat_id' key s.
Proof.
  unfold get_user_data. rewrite clear_lookup.
  destruct (decide (chat_id' = chat_id)); reflexivity.
Qed.

(** The sequence a new search begins with ([clear_user_data], then
    [store_user_data]): the chat's record holds the new entry and
    nothing of the previous search. *)
Lemma store_after_clear (now : float) (chat_id : Z) (key key' : string) (v : value) s :
  get_user_data chat_id key'
    (store_user_data now chat_id key v (clear_user_data chat_id s))
  = if decide (key' = key) then Some v else None.
Proof.
  unfold get_user_data. rewrite store_lookup_same, clear_lookup.
  rewrite decide_True by reflexivity. cbn [data].
  destruct (decide (key' = key)) as [-> | Hne].
  - apply lookup_insert_eq.
  - rewrite lookup_insert_ne by congruence. apply lookup_empty.
Qed.

(** A cleanup only removes records, and a second cleanup at the same
    time removes nothing more. *)
Lemma cleanup_shrinks_and_is_idempotent (current_time : float) s :
  cleanup_expired_data current_time s ⊆ s
  /\ cleanup_expired_data current_time (cleanup_expired_data current_time s)
     = cleanup_expired_data current_time s.
Proof.
  split.
  - apply map_subseteq_spec. intros k r. rewrite cleanup_lookup.
    destruct (s !! k) as [r'|]; [| discriminate].
    destruct (expired current_time r'); [discriminate | auto].
  - apply map_eq. intros k. rewrite !cleanup_lookup.
    destruct (s !! k) as [r|]; [| reflexivity].
    destruct (expired current_time r) eqn:He; [reflexivity |].
    rewrite He. reflexivity.
Qed.

End StoreUse.

Lemma get_after_store_elsewhere_witness :
  ((2 <> 1)%Z \/ "movie_name" <> "search_results")
  /\ get_user_data 2 "movie_name"
       (store_user_data 0%float 1 "search_results" "Inception"
          (∅ : gmap Z (UserRecord string)))
     = get_user_data 2 "movie_name" (∅ : gmap Z (UserRecord string)).
Proof.
  split; [left; lia |].
  apply (get_after_store_elsewhere 0%float 1 2 "search_results" "movie_name" "Inception" ∅).
  left. lia.
Defined.

(** ** Expiry and the clock *)

Lemma not_expired_at_once (now : float) :
  PrimFloat.ltb expiry_float (PrimFloat.sub now now) = false.
Proof.
  rewrite FloatAxioms.ltb_spec, FloatAxioms.sub_spec.
  assert (exists m e, Prim2SF expiry_float = SpecFloat.S754_finite false m e)
    as (m0 & e0 & ->) by (eexists _, _; vm_compute; reflexivity).
  unfold FloatAxioms.SF64sub, SpecFloat.SFsub.
  destruct (Prim2SF now) as [[|]|[|]| |s m e]; try reflexivity.
  rewrite Z.sub_diag. reflexivity.
Qed.

(** A record is not expired at the clock reading of its last write,
    whatever that reading is: a cleanup that runs at the same reading
    keeps what was just stored. *)
Theorem fresh_write_survives_cleanup {value : Type}
    (now : float) (chat_id : Z) (key : string) (v : value)
    (s : gmap Z (UserRecord value)) :
  get_user_data chat_id key
    (cleanup_expired_data now (store_user_data now chat_id key v s))
  = Some v.
Proof.
  unfold get_user_data. rewrite cleanup_lookup, store_lookup_same.
  unfold expired. cbn [timestamp]. rewrite not_expired_at_once. cbn [data].
  apply lookup_insert_eq.
Qed.
(** ** The front end *)

Lemma slice_to_length (text : Bot.codepoints) (stop : Z) :
  Z.of_nat (List.length (Bot.slice_to text stop))
  = if (stop <? 0)%Z then Z.max 0 (Z.of_nat (List.length text) + stop)
    else Z.min stop (Z.of_nat (List.length text)).
Proof.
  unfold Bot.slice_to. rewrite List.length_firstn.
  destruct (stop <? 0)%Z eqn:Hs; [apply Z.ltb_lt in Hs | apply Z.ltb_ge in Hs]; lia.
Qed.

(** For a limit of at least 3, [truncate_text] returns a text of at
    most [length] characters: the text itself when it fits, otherwise
    its first [length - 3] characters followed by three dots, which
    makes [length] characters exactly.  Characters are code points, as
    [len] and slicing count them. *)
Theorem truncate_text_fits (text : Bot.codepoints) (length : Z) :
  (3 <= length)%Z ->
  (Z.of_nat (List.length (Bot.truncate_text text length)) <= length)%Z
  /\ ((Z.of_nat (List.length text) <= length)%Z -> Bot.truncate_text text length = text)
  /\ ((length < Z.of_nat (List.length text))%Z ->
      Bot.truncate_text text length
      = firstn (Z.to_nat (length - 3)) text ++ Bot.ELLIPSIS
      /\ Z.of_nat (List.length (Bot.truncate_text text length)) = length).
Proof.
  intros Hlen. unfold Bot.truncate_text.
  destruct (length <? Z.of_nat (List.length text))%Z eqn:Hlt;
    [apply Z.ltb_lt in Hlt | apply Z.ltb_ge in Hlt].
  - assert (Z.of_nat (List.length (Bot.slice_to text (length - 3) ++ Bot.ELLIPSIS))
            = length) as Hsize.
    { rewrite List.length_app, Nat2Z.inj_add, slice_to_length.
      destruct (length - 3 <? 0)%Z eqn:Hs;
        [apply Z.ltb_lt in Hs | apply Z.ltb_ge in Hs]; cbn [List.length Bot.ELLIPSIS]; lia. }
    split; [lia |]. split; [lia |]. intros _. split; [| exact Hsize].
    unfold Bot.slice_to.
    destruct (length - 3 <? 0)%Z eqn:Hs;
      [apply Z.ltb_lt in Hs; lia | apply Z.ltb_ge in Hs].
    rewrite Z.min_l by lia. reflexivity.
  - split; [lia |]. split; [reflexivity | lia].
Qed.

(** "Amélie" has six code points: it fits a limit of 6 and is cut to
    "Am..." by a limit of 5. *)
Lemma truncate_text_fits_witness :
  (3 <= 5)%Z
  /\ (Z.of_nat (List.length (Bot.truncate_text [65; 109; 233; 108; 105; 101]%N 5)) <= 5)%Z
  /\ Bot.truncate_text [65; 109; 233; 108; 105; 101]%N 5 = [65; 109; 46; 46; 46]%N
  /\ Bot.truncate_text [65; 109; 233; 108; 105; 101]%N 6
     = [65; 109; 233; 108; 105; 101]%N.
Proof.
  split; [lia |].
  split; [apply (truncate_text_fits [65; 109; 233; 108; 105; 101]%N 5); lia |].
  split; reflexivity.
Defined.

(** A limit below 3 is never kept: a text longer than such a limit
    comes back with the three dots, so with at least three characters,
    since the slice [text[:length-3]] then counts from the end. *)
Theorem truncate_text_exceeds_small_limit (text : Bot.codepoints) (length : Z) :
  (length < 3)%Z ->
  (length < Z.of_nat (List.length text))%Z ->
  (length < Z.of_nat (List.length (Bot.truncate_text text length)))%Z
  /\ Z.of_nat (List.length (Bot.truncate_text text length))
     = (Z.max 0 (Z.of_nat (List.length text) + length - 3) + 3)%Z.
Proof.
  intros Hsmall Hlt. unfold Bot.truncate_text.
  apply Z.ltb_lt in Hlt as Hb. rewrite Hb.
  rewrite List.length_app, Nat2Z.inj_add, slice_to_length.
  destruct (length - 3 <? 0)%Z eqn:Hs;
    [apply Z.ltb_lt in Hs | apply Z.ltb_ge in Hs]; cbn [List.length Bot.ELLIPSIS]; lia.
Qed.

(** "Up!" with a limit of 2 comes back as "Up...". *)
Lemma truncate_text_exceeds_small_limit_witness :
  (2 < 3)%Z /\ (2 < Z.of_nat (List.length [85; 112; 33]%N))%Z
  /\ (2 < Z.of_nat (List.length (Bot.truncate_text [85; 112; 33]%N 2)))%Z
  /\ Bot.truncate_text [85; 112; 33]%N 2 = [85; 112; 46; 46; 46]%N.
Proof.
  split; [lia |]. split; [vm_compute; reflexivity |].
  split; [| reflexivity].
  apply (truncate_text_exceeds_small_limit [85; 112; 33]%N 2); [lia | vm_compute; reflexivity].
Defined.

Section Retry.
Context {kwarg S : Type}.
Variable raises : list (Bot.TgEvent kwarg) -> Bot.TgCall kwarg -> option Bot.tg_exn.

Ltac run_bot :=
  unfold Bot.start_command;
  unfold Bot.send_message_with_retry, Bot.edit_message_with_retry,
    Bot.attribute, Bot.btry, Bot.bret,
    Bot.bbind, Bot.bmodify, Bot.request, Bot.tg_log, Bot.tg_sleep, Bot.braise,
    Bot.ATTRIBUTE_ERROR;
  cbn [Bot.query_id Bot.query_message]; cbv beta iota;
  repeat (match goal with
          | |- context [raises ?t ?c] =>
              lazymatch t with
              | context [raises] => fail
              | _ => destruct (raises t c) as [[]|] eqn:?
              end
          end; cbv beta iota).

Ltac trace_shape :=
  first [ eexists _, _; split; [rewrite <- ?app_assoc; cbn [app]; reflexivity |]
        | eexists _, []; split; [rewrite app_nil_r; reflexivity |] ].

(** [send_message_with_retry] calls [send_message] once or twice, each
    time with the chat, the text and the keyword arguments it was
    given, and leaves the store alone.  It returns exactly when one of
    these calls went through, which then was the last one and the only
    one; when it raises, none went through and the exception is the
    one its last call raised. *)
Theorem send_message_with_retry_delivers_once
    (chat_id : Z) (text : string) (kw : Bot.kwargs kwarg) (s : S)
    (t : list (Bot.TgEvent kwarg)) :
  exists r new,
    Bot.send_message_with_retry raises chat_id text kw s t = (r, s, t ++ new)
    /\ (1 <= length (Bot.attempts new) <= 2)%nat
    /\ Forall (fun ev => Bot.tg_call ev = Bot.SendMessage chat_id text kw)
         (Bot.attempts new)
    /\ length (Bot.delivered new)
       = match r with Bot.Done _ => 1%nat | Bot.Failed _ => 0%nat end
    /\ (forall e, r = Bot.Failed e ->
        List.last (Bot.attempts new) (Bot.mkTgEvent (Bot.TgSleep 0) None)
        = Bot.mkTgEvent (Bot.SendMessage chat_id text kw) (Some e)).
Proof.
  run_bot.
  all: trace_shape.
  all: cbn; repeat split; try lia; repeat constructor.
  all: intros ? [= <-]; reflexivity.
Qed.

(** [edit_message_with_retry] on a callback query makes one or two
    calls of the client: the edit, and then either one more edit (after
    a rate limit or a network error) or the fallback reply (after any
    other error, if the query has a message).  At most one of them goes
    through.  It raises only what a second edit raised; when the
    fallback fails too it returns, with the failure in the log and
    nothing shown to the user.  Given [None] for the query it makes no
    call of the client, logs nothing and raises the [AttributeError] of
    [query.id]. *)
Theorem edit_message_with_retry_outcomes
    (query : option (Bot.Query)) (text : string) (kw : Bot.kwargs kwarg) (s : S)
    (t : list (Bot.TgEvent kwarg)) :
  exists r new,
    Bot.edit_message_with_retry raises query text kw s t = (r, s, t ++ new)
    /\ (length (Bot.attempts new) <= 2)%nat
    /\ (length (Bot.delivered new) <= 1)%nat
    /\ (query = None -> new = [] /\ r = Bot.Failed (Bot.ATTRIBUTE_ERROR "id"))
    /\ (forall q, query = Some q ->
        (1 <= length (Bot.attempts new))%nat
        /\ (forall e, r = Bot.Failed e ->
            Bot.delivered new = []
            /\ exists e1,
                 Bot.attempts new
                 = [ Bot.mkTgEvent (Bot.EditMessageText (Bot.query_id q) text kw) (Some e1);
                     Bot.mkTgEvent (Bot.EditMessageText (Bot.query_id q) text kw) (Some e) ])
        /\ (r = Bot.Done tt -> Bot.delivered new = [] ->
            exists e e_reply,
              In (Bot.mkTgEvent (Bot.EditMessageText (Bot.query_id q) text kw)
                    (Some (Bot.OtherError e))) new
              /\ In (Bot.mkTgEvent
                       (Bot.TgLog ERROR
                          "Fallback reply also failed for query {query.id}: {e_reply}"
                          [Bot.TNum (Z.of_nat (Bot.query_id q)); Bot.TExn e_reply]) None)
                    new
              /\ forall m, Bot.query_message q = Some m ->
                   In (Bot.mkTgEvent (Bot.ReplyText m text kw) (Some e_reply)) new)).
Proof.
  destruct query as [[id [m|]]|]; run_bot.
  all: trace_shape.
  all: cbn; repeat split; try lia.
  all: try discriminate.
  all: try match goal with
           | H : Some _ = Some _ |- _ => injection H as <-
           end.
  all: cbn; try lia.
  all: try match goal with
           | H : Bot.Failed _ = Bot.Failed _ |- _ => injection H as <-
           end.
  all: try discriminate.
  all: try solve [reflexivity | eexists; reflexivity].
  all: try (eexists _, _; split; [cbn; tauto |]; split; [cbn; tauto |];
            intros ? [= <-]; cbn; tauto).
  all: try (eexists _, _; split; [cbn; tauto |]; split; [cbn; tauto |];
            intros ? ?; discriminate).
Qed.

(** [start_command] clears what was kept for the chat before it sends
    the welcome message: whatever the sending does, the store is the
    one [clear_user_data] leaves, nothing can be read for the chat
    afterwards, and every call of the client sends the welcome message
    to that chat, with no keyword arguments. *)
Theorem start_command_clears_the_chat {value : Type}
    (chat_id : Z) (s : gmap Z (DataManager.UserRecord value))
    (t : list (Bot.TgEvent kwarg)) :
  exists r new,
    Bot.start_command raises chat_id s t
    = (r, DataManager.clear_user_data chat_id s, t ++ new)
    /\ (forall key,
           DataManager.get_user_data chat_id key (DataManager.clear_user_data chat_id s)
           = None)
    /\ Bot.attempts new <> []
    /\ Forall (fun ev => Bot.tg_call ev = Bot.SendMessage chat_id Bot.WELCOME [])
         (Bot.attempts new).
Proof.
  assert (forall key,
             DataManager.get_user_data chat_id key
               (DataManager.clear_user_data chat_id s) = None) as Hclear.
  { intros key. unfold DataManager.get_user_data. rewrite clear_lookup.
    rewrite decide_True by reflexivity. reflexivity. }
  run_bot.
  all: trace_shape.
  all: split; [exact Hclear |].
  all: cbn; split; [discriminate | repeat constructor].
Qed.

End Retry.
(** ** Counting the calls of a trace *)

Section Counting.
Variable Q : Event -> bool.

Lemma count_events_app (a b : Trace) :
  count_events Q (a ++ b) = (count_events Q a + count_events Q b)%nat.
Proof. induction a as [|ev a IH]; cbn; [reflexivity | rewrite IH; lia]. Qed.

Lemma count_nil : count_events Q [] = 0%nat.
Proof. reflexivity. Qed.

Lemma count_cons_hit (ev : Event) (l : Trace) (n : nat) :
  Q ev = true -> count_events Q l = n -> count_events Q (ev :: l) = S n.
Proof. intros Hev <-. cbn. rewrite Hev. reflexivity. Qed.

Lemma count_cons_miss (ev : Event) (l : Trace) (n : nat) :
  Q ev = false -> count_events Q l = n -> count_events Q (ev :: l) = n.
Proof. intros Hev <-. cbn. rewrite Hev. reflexivity. Qed.

Lemma count_app_known (a b : Trace) (n m : nat) :
  count_events Q a = n -> count_events Q b = m -> count_events Q (a ++ b) = (n + m)%nat.
Proof. intros <- <-. apply count_events_app. Qed.

Lemma session_free_count (new : Trace) :
  (forall ev, touches_session (ev_call ev) = false -> Q ev = false) ->
  session_free new -> count_events Q new = 0%nat.
Proof.
  intros HQ Hfree. induction Hfree as [|ev new Hev _ IH]; [reflexivity |].
  cbn. rewrite (HQ ev Hev), IH. reflexivity.
Qed.

End Counting.

Lemma count_calls_events (P : Call -> bool) (new : Trace) :
  count_calls P new = count_events (fun ev => P (ev_call ev)) new.
Proof. induction new as [|ev new IH]; cbn; [reflexivity | rewrite IH; reflexivity]. Qed.

Create HintDb counts discriminated.

Lemma free_not_handed (new : Trace) :
  session_free new -> count_events handed_over new = 0%nat.
Proof.
  apply session_free_count. intros [c e]. unfold handed_over. cbn.
  destruct c; cbn; try reflexivity; discriminate.
Qed.

Lemma free_no_context_close (new : Trace) :
  session_free new -> count_events (fun ev => is_context_close (ev_call ev)) new = 0%nat.
Proof.
  apply session_free_count. intros [c e]. destruct c; cbn; try reflexivity; discriminate.
Qed.

Lemma free_no_browser_close (new : Trace) :
  session_free new -> count_events (fun ev => is_browser_close (ev_call ev)) new = 0%nat.
Proof.
  apply session_free_count. intros [c e]. destruct c; cbn; try reflexivity; discriminate.
Qed.

Lemma free_no_stop (new : Trace) :
  session_free new -> count_events (fun ev => is_stop (ev_call ev)) new = 0%nat.
Proof.
  apply session_free_count. intros [c e]. destruct c; cbn; try reflexivity; discriminate.
Qed.

Lemma free_no_goto (new : Trace) :
  session_free new -> count_events (fun ev => is_goto (ev_call ev)) new = 0%nat.
Proof.
  apply session_free_count. intros [c e]. destruct c; cbn; try reflexivity; discriminate.
Qed.

Lemma free_navigates (url : string) (new : Trace) :
  session_free new -> navigates_only_to url new.
Proof.
  unfold session_free, navigates_only_to. intros H.
  eapply List.Forall_impl; [| exact H].
  intros [c e]. destruct c; cbn; try (intros; exact I). discriminate.
Qed.

#[local] Hint Resolve free_not_handed free_no_context_close free_no_browser_close
  free_no_stop free_no_goto : counts.

Lemma closing_not_handed (c b : handle) (e1 e2 : option exn) :
  count_events handed_over (closing_trace c b e1 e2) = 0%nat.
Proof. destruct e1, e2; reflexivity. Qed.

Lemma closing_context_close (c b : handle) (e1 e2 : option exn) :
  count_events (fun ev => is_context_close (ev_call ev)) (closing_trace c b e1 e2) = 1%nat.
Proof. destruct e1, e2; reflexivity. Qed.

Lemma closing_browser_close (c b : handle) (e1 e2 : option exn) :
  count_events (fun ev => is_browser_close (ev_call ev)) (closing_trace c b e1 e2) = 1%nat.
Proof. destruct e1, e2; reflexivity. Qed.

Lemma closing_no_stop (c b : handle) (e1 e2 : option exn) :
  count_events (fun ev => is_stop (ev_call ev)) (closing_trace c b e1 e2) = 0%nat.
Proof. destruct e1, e2; reflexivity. Qed.

Lemma closing_no_goto (c b : handle) (e1 e2 : option exn) :
  count_events (fun ev => is_goto (ev_call ev)) (closing_trace c b e1 e2) = 0%nat.
Proof. destruct e1, e2; reflexivity. Qed.

Lemma closing_navigates (url : string) (c b : handle) (e1 e2 : option exn) :
  navigates_only_to url (closing_trace c b e1 e2).
Proof. destruct e1, e2; repeat constructor. Qed.

#[local] Hint Resolve closing_not_handed closing_context_close closing_browser_close
  closing_no_stop closing_no_goto : counts.

(** [count_events Q new = ?n] for a trace made of explicit events and
    of blocks whose count is a hypothesis or a hint. *)
Ltac count_as :=
  repeat lazymatch goal with
         | |- count_events _ [] = _ => apply count_nil
         | |- count_events _ (_ :: _) = _ =>
             first [ apply count_cons_miss; [reflexivity |]
                   | apply count_cons_hit; [reflexivity |] ]
         | |- count_events _ (_ ++ _) = _ =>
             apply count_app_known;
             [ first [eassumption | solve [eauto with counts nocore]] |]
         | |- count_events _ _ = _ =>
             first [eassumption | solve [eauto with counts nocore]]
         end.

(** A count of such a trace is, or is bounded by, a given number. *)
Ltac count_is :=
  rewrite ?count_calls_events;
  lazymatch goal with
  | |- count_events ?Q ?new = ?rhs =>
      tryif is_evar rhs then count_as
      else (let H := fresh in
            eassert (count_events Q new = _) as H by count_as;
            rewrite H; clear H; cbn [Nat.add]; first [reflexivity | lia])
  | |- (count_events ?Q ?new <= _)%nat =>
      let H := fresh in
      eassert (count_events Q new = _) as H by count_as;
      rewrite H; clear H; cbn [Nat.add]; lia
  end.

Ltac session_counts_are :=
  unfold session_counts; split; [| split; [| split]]; count_is.

Ltac navigation_is :=
  unfold navigates_only_to in *; each_event;
  first [ exact I | reflexivity | assumption
        | apply closing_navigates | apply free_navigates; assumption ].

Ltac exec_hook x ::=
  lazymatch x with
  | close_playwright_resources ?env (Some ?b) (Some ?c) ?flag tt ?t =>
      exec_use (close_spec env b c flag t) x;
      match goal with
      | H : exists e1 e2, _ = Returns tt /\ _ = _ ++ closing_trace _ _ e1 e2 |- _ =>
          destruct H as (? & ? & -> & ->)
      end
  end.

(** ** Source discovery and option discovery, call by call *)

Lemma source_websites_ledger (env : Env) (url : string) (t : Trace) :
  outcome_sat (get_movie_source_websites env url tt t)
    (fun r _ t' => exists new, t' = t ++ new /\
       count_calls is_goto new = 0%nat /\
       ((r = Returns DUMMY_SOURCE_SITES /\ session_counts new 1 1) \/
        (r = Returns [] /\ session_counts new 0 0))).
Proof.
  unfold get_movie_source_websites, get_movie_source_websites_body,
    release_in_finally, get_playwright_page, DUMMY_SOURCE_SITES.
  exec.
  all: eexists; (split; [normalize_trace; reflexivity |]).
  all: split; [count_is |].
  all: first [ left; split; [reflexivity |]; solve [session_counts_are]
             | right; split; [reflexivity |]; solve [session_counts_are] ].
Qed.

Lemma download_options_ledger (env : Env) (url site : string) (t : Trace) :
  outcome_sat (get_movie_download_options env url site tt t)
    (fun r _ t' => exists new, t' = t ++ new /\
       navigates_only_to url new /\
       ((r = Returns (placeholder_options url site) /\ session_counts new 1 1 /\
         count_calls is_goto new = 1%nat /\
         Forall (fun ev => raised_while_scraping ev = false) new) \/
        (r = Returns [] /\ session_counts new 1 1 /\
         (count_calls is_goto new <= 1)%nat /\
         Exists (fun ev => raised_while_scraping ev = true) new) \/
        (r = Returns [] /\ session_counts new 0 0 /\ count_calls is_goto new = 0%nat /\
         Exists (fun ev => raised_while_scraping ev = true) new))).
Proof.
  unfold get_movie_download_options, get_movie_download_options_body,
    release_in_finally, get_playwright_page, placeholder_options.
  exec.
  all: eexists; (split; [normalize_trace; reflexivity |]).
  all: split; [navigation_is |].
  all: first [ left; split; [reflexivity |]; split; [solve [session_counts_are] |];
               split; [solve [count_is] |]; each_event;
               first [reflexivity | apply closing_only_releases]
             | right; left; split; [reflexivity |];
               split; [solve [session_counts_are] |];
               split; [solve [count_is] | solve [some_event]]
             | right; right; split; [reflexivity |];
               split; [solve [session_counts_are] |];
               split; [solve [count_is] | solve [some_event]] ].
Qed.
(** ** Loops whose body keeps an invariant *)

Lemma for_each_keeps {S X} (body : X -> M S ctl) (Pre : S -> Prop)
    (Inv : S -> S -> Trace -> Prop) :
  (forall s, Inv s s []) ->
  (forall s1 s2 s3 n1 n2, Inv s1 s2 n1 -> Inv s2 s3 n2 -> Inv s1 s3 (n1 ++ n2)) ->
  (forall x s t, Pre s ->
     outcome_sat (body x s t)
       (fun r s' t' => exists new, t' = t ++ new /\ Inv s s' new /\
                       ((r = Returns Next /\ Pre s') \/ r = Returns Break))) ->
  forall xs s t, Pre s ->
    outcome_sat (for_each xs body s t)
      (fun r s' t' => exists new, t' = t ++ new /\ r = Returns tt /\ Inv s s' new).
Proof.
  intros Hrefl Htrans Hbody xs. induction xs as [|x xs IH]; intros s t Hpre.
  - unfold outcome_sat. cbn [for_each]. unfold ret. cbn [fst snd].
    exists []. rewrite app_nil_r. auto.
  - pose proof (Hbody x s t Hpre) as H1. unfold outcome_sat in H1 |- *.
    cbn [for_each]. unfold bind.
    destruct (body x s t) as [[r1 s1] t1]. cbn [fst snd] in H1.
    destruct H1 as (new1 & -> & Hinv1 & [(-> & Hpre1) | ->]).
    + specialize (IH s1 (t ++ new1) Hpre1). unfold outcome_sat in IH.
      destruct (for_each xs body s1 (t ++ new1)) as [[r2 s2] t2]. cbn [fst snd] in IH |- *.
      destruct IH as (new2 & -> & -> & Hinv2).
      exists (new1 ++ new2). split; [symmetry; apply app_assoc |].
      split; [reflexivity | eauto].
    + unfold ret. cbn [fst snd]. exists new1. auto.
Qed.

(** ** The tier search, call by call *)

Lemma media_suffix_more (l : string) (exts : list string) :
  (forall x, In x exts -> In x MEDIA_SUFFIXES) ->
  is_media_url l exts = true -> looks_like_media l = true.
Proof.
  intros Hsub. unfold looks_like_media, is_media_url, PyStr.endswith_any.
  intros H. apply orb_true_iff in H as [H | H]; apply orb_true_iff; [left | right; exact H].
  apply existsb_exists in H as (x & Hin & Hx). apply existsb_exists. eauto.
Qed.

Lemma is_media_attr_media (o : option string) (exts : list string) :
  (forall x, In x exts -> In x MEDIA_SUFFIXES) ->
  is_media_attr o exts = true ->
  exists l, o = Some l /\ PyStr.truthy l = true /\ looks_like_media l = true.
Proof.
  intros Hsub. destruct o as [l|]; [| discriminate]. cbn [is_media_attr].
  intros H. apply andb_true_iff in H as [Ht Hm].
  exists l. split; [reflexivity |]. split; [exact Ht |].
  exact (media_suffix_more l exts Hsub Hm).
Qed.

Lemma media_page_url (url : string) :
  PyStr.endswith_any url [".mp4"; ".mkv"; ".avi"] || PyStr.contains STREAM_PATH url = true ->
  looks_like_media url = true.
Proof.
  apply (media_suffix_more url [".mp4"; ".mkv"; ".avi"]).
  unfold MEDIA_SUFFIXES. cbn. tauto.
Qed.

Ltac suffixes_known := unfold MEDIA_SUFFIXES; cbn; tauto.

Ltac exec_hook x ::=
  lazymatch x with
  | is_media_attr ?o ?exts =>
      let H := fresh "Hmedia" in
      let l := fresh "l" in
      let Ho := fresh "Ho" in
      let Hl := fresh "Hl" in
      let Hm := fresh "Hm" in
      destruct (is_media_attr o exts) eqn:H;
      [ apply is_media_attr_media in H as (l & Ho & Hl & Hm);
        [rewrite ?Ho | suffixes_known] | ]
  end.

Lemma search_link_on_page_free (env : Env) (cur : handle)
    (f : Frame (option string)) (t : Trace) :
  result f = None ->
  outcome_sat (search_link_on_page env cur f t)
    (fun r f' t' => exists new, t' = t ++ new /\ session_free new /\
       match r with
       | Returns Break =>
           exists l, f' = set_result (Some l) f /\ PyStr.truthy l = true
                     /\ looks_like_media l = true
       | _ => f' = f
       end).
Proof.
  destruct f as [pw b c p res]. cbn [result]. intros ->.
  unfold search_link_on_page, found_link. exec.
  all: eexists; (split; [normalize_trace; reflexivity |]).
  all: split; [unfold session_free; each_event; reflexivity |].
  all: try reflexivity.
  all: eexists; split; [reflexivity |].
  all: first [ split; assumption
             | split; [apply media_page_url_truthy | apply media_page_url]; assumption ].
Qed.

Ltac exec_hook x ::=
  lazymatch x with
  | is_media_attr ?o ?exts =>
      let H := fresh "Hmedia" in
      let l := fresh "l" in
      let Ho := fresh "Ho" in
      let Hl := fresh "Hl" in
      let Hm := fresh "Hm" in
      destruct (is_media_attr o exts) eqn:H;
      [ apply is_media_attr_media in H as (l & Ho & Hl & Hm);
        [rewrite ?Ho | suffixes_known] | ]
  | search_link_on_page ?env ?cur ?f ?t =>
      let Hfree := fresh "Hfree" in
      let Hr := fresh "Hr" in
      exec_use (search_link_on_page_free env cur f t eq_refl) x;
      match goal with
      | H : exists new, _ = _ ++ new /\ _ |- _ => destruct H as (? & -> & Hfree & Hr)
      end;
      match type of Hr with
      | match ?r with _ => _ end =>
          destruct r as [[|]|]; cbn beta iota in Hr;
          [ subst | destruct Hr as (? & -> & ? & ?) | subst ]
      end
  end.

Lemma try_identifier_free (env : Env) (page context : handle) (server_name : string)
    (id : identifier) (f : Frame (option string)) (t : Trace) :
  result f = None ->
  outcome_sat (try_identifier env page context server_name id f t)
    (fun r f' t' => exists new, t' = t ++ new /\
       (session_free new /\ link_step f f') /\
       ((r = Returns Next /\ result f' = None) \/ r = Returns Break)).
Proof.
  destruct f as [pw b c p res]. cbn [result]. intros ->.
  unfold try_identifier, found_link.
  exec.
  all: cbn beta iota in *.
  all: eexists; (split; [normalize_trace; reflexivity |]).
  all: split; [split; [unfold session_free in *; each_event;
                       first [reflexivity | assumption] |] |].
  all: try (left; reflexivity).
  all: try (right; eexists; split; [reflexivity |]; split; eassumption).
  all: first [left; split; reflexivity | right; reflexivity].
Qed.

Lemma link_step_refl (f : Frame (option string)) : link_step f f.
Proof. left. reflexivity. Qed.

Lemma link_step_trans (f1 f2 f3 : Frame (option string)) :
  link_step f1 f2 -> link_step f2 f3 -> link_step f1 f3.
Proof.
  intros [-> | (l & -> & Hl & Hm)] [-> | (l' & -> & Hl' & Hm')].
  - left. reflexivity.
  - right. eauto.
  - right. eauto.
  - right. exists l'. destruct f1. cbn. auto.
Qed.

Lemma session_free_app (a b : Trace) :
  session_free a -> session_free b -> session_free (a ++ b).
Proof. apply Forall_app_2. Qed.

Lemma identifiers_free (env : Env) (page context : handle) (server_name : string)
    (ids : list identifier) (f : Frame (option string)) (t : Trace) :
  result f = None ->
  outcome_sat (for_each ids (try_identifier env page context server_name) f t)
    (fun r f' t' => exists new, t' = t ++ new /\ r = Returns tt /\
                    session_free new /\ link_step f f').
Proof.
  apply (for_each_keeps (try_identifier env page context server_name)
           (fun f => result f = None)
           (fun f f' new => session_free new /\ link_step f f')).
  - intros s. split; [constructor | apply link_step_refl].
  - intros s1 s2 s3 n1 n2 [Hf1 Hs1] [Hf2 Hs2].
    split; [apply session_free_app; assumption | eapply link_step_trans; eassumption].
  - intros id s t' Hs. apply try_identifier_free. exact Hs.
Qed.

Lemma try_server_free (env : Env) (page context : handle) (sp : ServerPref)
    (f : Frame (option string)) (t : Trace) :
  result f = None ->
  outcome_sat (try_server env page context sp f t)
    (fun r f' t' => exists new, t' = t ++ new /\
       (session_free new /\ link_step f f') /\
       ((r = Returns Next /\ result f' = None) \/ r = Returns Break)).
Proof.
  intros Hres.
  pose proof (identifiers_free env page context (name sp) (identifiers sp) f
                (t ++ [mkEvent (Log DEBUG TRYING_SERVER [LStr (name sp)]) None]) Hres)
    as H1.
  unfold outcome_sat in H1 |- *. rewrite try_server_unfold.
  destruct (for_each (identifiers sp) _ f _) as [[r1 f1] t1]. cbn [fst snd] in H1.
  destruct H1 as (new1 & -> & -> & Hfree & Hstep).
  assert (session_free (mkEvent (Log DEBUG TRYING_SERVER [LStr (name sp)]) None :: new1))
    as Hall by (constructor; [reflexivity | exact Hfree]).
  destruct (PyStr.truthy_opt (result f1)) eqn:Hlink; cbn [fst snd].
  - eexists. split; [rewrite <- app_assoc; reflexivity |]. auto.
  - eexists. split; [rewrite <- app_assoc; reflexivity |].
    split; [auto |]. left. split; [reflexivity |].
    destruct Hstep as [-> | (l & -> & Hl & _)]; [exact Hres |].
    destruct f. cbn in Hlink. rewrite Hl in Hlink. discriminate.
Qed.

Lemma tier_search_free (env : Env) (page context : handle)
    (priority : list ServerPref) (f : Frame (option string)) (t : Trace) :
  result f = None ->
  outcome_sat (tier_search env page context priority f t)
    (fun r f' t' => exists new, t' = t ++ new /\ r = Returns tt /\
                    session_free new /\ link_step f f').
Proof.
  unfold tier_search.
  apply (for_each_keeps (try_server env page context)
           (fun f => result f = None)
           (fun f f' new => session_free new /\ link_step f f')).
  - intros s. split; [constructor | apply link_step_refl].
  - intros s1 s2 s3 n1 n2 [Hf1 Hs1] [Hf2 Hs2].
    split; [apply session_free_app; assumption | eapply link_step_trans; eassumption].
  - intros sp s t' Hs. apply try_server_free. exact Hs.
Qed.

Lemma endswith_append (a s : string) : PyStr.endswith (a ++ s) s = true.
Proof.
  induction a as [|c a IH].
  - change ("" ++ s)%string with s.
    destruct s; cbn [PyStr.endswith]; rewrite String.eqb_refl; reflexivity.
  - change (String c a ++ s)%string with (String c (a ++ s)).
    cbn [PyStr.endswith]. rewrite IH. apply orb_true_r.
Qed.

Lemma string_append_assoc (a b c : string) :
  ((a ++ b) ++ c)%string = (a ++ (b ++ c))%string.
Proof.
  induction a as [|x a IH]; [reflexivity |].
  change (String x ((a ++ b) ++ c) = String x (a ++ (b ++ c))).
  rewrite IH. reflexivity.
Qed.

Lemma dummy_link_media (url : string) : looks_like_media (url ++ DUMMY_SUFFIX) = true.
Proof.
  unfold looks_like_media, is_media_url, PyStr.endswith_any, MEDIA_SUFFIXES.
  cbn [existsb].
  replace (url ++ DUMMY_SUFFIX)%string
    with ((url ++ "/final_vcloud_link_server1_dummy") ++ ".mp4")%string
    by (rewrite string_append_assoc; reflexivity).
  rewrite endswith_append. reflexivity.
Qed.

Ltac exec_hook x ::=
  lazymatch x with
  | close_playwright_resources ?env (Some ?b) (Some ?c) ?flag tt ?t =>
      exec_use (close_spec env b c flag t) x;
      match goal with
      | H : exists e1 e2, _ = Returns tt /\ _ = _ ++ closing_trace _ _ e1 e2 |- _ =>
          destruct H as (? & ? & -> & ->)
      end
  | PyStr.truthy (_ ++ DUMMY_SUFFIX)%string => rewrite dummy_link_truthy
  | context [PyStr.truthy ?l] =>
      match goal with
      | Hl : PyStr.truthy l = true |- _ => rewrite Hl
      end
  | tier_search ?env ?p ?c ?prio ?f ?t =>
      let Hfree := fresh "Hfree" in
      let Hl := fresh "Hl" in
      let Hm := fresh "Hm" in
      exec_use (tier_search_free env p c prio f t eq_refl) x;
      match goal with
      | H : exists new, _ = _ ++ new /\ _ |- _ =>
          destruct H as (? & -> & -> & Hfree & [-> | (? & -> & Hl & Hm)])
      end
  end.

(** The server resolution, call by call. *)
Lemma resolve_ledger (env : Env) (url site : string) (t : Trace) :
  outcome_sat (get_final_vcloud_download_link env url site tt t)
    (fun r _ t' => exists new, t' = t ++ new /\
       navigates_only_to url new /\
       (count_calls is_goto new <= 1)%nat /\
       (exists n, session_counts new n n /\ (n <= 1)%nat) /\
       exists o, r = Returns o /\
                 match o with
                 | Some l => PyStr.truthy l = true /\ looks_like_media l = true
                 | None => True
                 end).
Proof.
  unfold get_final_vcloud_download_link, get_final_vcloud_download_link_body,
    release_in_finally, get_playwright_page.
  exec.
  all: try congruence.
  all: eexists; (split; [normalize_trace; reflexivity |]).
  all: split; [navigation_is |].
  all: split; [count_is |].
  all: split; [eexists; split; [session_counts_are | cbn [Nat.add]; lia] |].
  all: eexists; split; [reflexivity |]; cbn beta iota.
  all: first [ exact I
             | split; assumption
             | split; [apply dummy_link_truthy | apply dummy_link_media] ].
Qed.

(** ** The site search, call by call *)

Ltac open_counts H :=
  let Hh := fresh "Hhanded" in
  let Hc := fresh "Hcclose" in
  let Hb := fresh "Hbclose" in
  let Hs := fresh "Hstop" in
  destruct H as (Hh & Hc & Hb & Hs);
  rewrite count_calls_events in Hc, Hb, Hs.

Ltac session_free_is :=
  unfold session_free in *; each_event; first [reflexivity | assumption].

Ltac exec_hook x ::=
  lazymatch x with
  | fill_generic_inputs ?env ?a ?b ?inputs ?s ?t1 =>
      match goal with
      | IH : context [fill_generic_inputs] |- _ =>
          exec_use (IH t1) x;
          match goal with
          | H : exists new, _ = _ ++ new /\ _ |- _ => destruct H as (? & -> & -> & ?)
          end
      end
  end.

Lemma fill_generic_inputs_free (env : Env) {S} (site_url movie_name : string)
    (inputs : list handle) (s : S) (t : Trace) :
  outcome_sat (fill_generic_inputs env site_url movie_name inputs s t)
    (fun r s' t' => exists new, t' = t ++ new /\ s' = s /\ session_free new).
Proof.
  revert t. induction inputs as [|el inputs IH]; intros t.
  - exists []. rewrite app_nil_r. repeat split; constructor.
  - cbn [fill_generic_inputs]. exec.
    all: eexists; (split; [normalize_trace; reflexivity |]); split; [reflexivity |].
    all: session_free_is.
Qed.

Ltac exec_hook x ::=
  lazymatch x with
  | fill_generic_inputs ?env ?a ?b ?inputs ?s ?t1 =>
      exec_use (fill_generic_inputs_free env a b inputs s t1) x;
      match goal with
      | H : exists new, _ = _ ++ new /\ _ |- _ => destruct H as (? & -> & -> & ?)
      end
  end.

Lemma fill_search_bar_free (env : Env) {S} (p : handle) (site_url movie_name : string)
    (s : S) (t : Trace) :
  outcome_sat (fill_search_bar env p site_url movie_name s t)
    (fun r s' t' => exists new, t' = t ++ new /\ s' = s /\ session_free new).
Proof.
  unfold fill_search_bar. exec.
  all: eexists; (split; [normalize_trace; reflexivity |]); split; [reflexivity |].
  all: session_free_is.
Qed.

Lemma submit_search_free (env : Env) {S} (p : handle) (site_url : string)
    (s : S) (t : Trace) :
  outcome_sat (submit_search env p site_url s t)
    (fun r s' t' => exists new, t' = t ++ new /\ s' = s /\ session_free new).
Proof.
  unfold submit_search. exec.
  all: eexists; (split; [normalize_trace; reflexivity |]); split; [reflexivity |].
  all: session_free_is.
Qed.

Ltac exec_hook x ::=
  lazymatch x with
  | fill_search_bar ?env ?p ?a ?b ?s ?t1 =>
      exec_use (fill_search_bar_free env p a b s t1) x;
      match goal with
      | H : exists new, _ = _ ++ new /\ _ |- _ => destruct H as (? & -> & -> & ?)
      end
  | submit_search ?env ?p ?a ?s ?t1 =>
      exec_use (submit_search_free env p a s t1) x;
      match goal with
      | H : exists new, _ = _ ++ new /\ _ |- _ => destruct H as (? & -> & -> & ?)
      end
  end.

Lemma reach_results_page_ledger (env : Env) (site_url movie_name : string)
    (c0 p0 : option handle) (res : list SearchResult) (t : Trace) :
  outcome_sat
    (reach_results_page env site_url movie_name (mkFrame None None c0 p0 res) t)
    (fun r f' t' => exists new, t' = t ++ new /\ navigates_only_to site_url new /\
       match r with
       | Returns p =>
           (exists pw b c, f' = mkFrame (Some pw) (Some b) (Some c) (Some p) res) /\
           session_counts new 1 0
       | Raises _ =>
           (f' = mkFrame None None c0 p0 res /\ session_counts new 0 0) \/
           (exists pw b c p, f' = mkFrame (Some pw) (Some b) (Some c) (Some p) res /\
                             session_counts new 1 0)
       end).
Proof.
  unfold reach_results_page, get_playwright_page. exec.
  all: eexists; (split; [normalize_trace; reflexivity |]).
  all: split; [navigation_is |].
  all: first [ split; [eexists _, _, _; reflexivity | solve [session_counts_are]]
             | left; split; [reflexivity | solve [session_counts_are]]
             | right; eexists _, _, _, _; split; [reflexivity | solve [session_counts_are]] ].
Qed.

Ltac exec_hook x ::=
  lazymatch x with
  | close_playwright_resources ?env (Some ?b) (Some ?c) ?flag tt ?t =>
      exec_use (close_spec env b c flag t) x;
      match goal with
      | H : exists e1 e2, _ = Returns tt /\ _ = _ ++ closing_trace _ _ e1 e2 |- _ =>
          destruct H as (? & ? & -> & ->)
      end
  | reach_results_page ?env ?a ?b (mkFrame None None ?c0 ?p0 ?res) ?t =>
      let Hnav := fresh "Hnav" in
      let Hr := fresh "Hr" in
      let Hc := fresh "Hc" in
      exec_use (reach_results_page_ledger env a b c0 p0 res t) x;
      match goal with
      | H : exists new, _ = _ ++ new /\ _ |- _ => destruct H as (? & -> & Hnav & Hr)
      end;
      match type of Hr with
      | match ?r with _ => _ end =>
          destruct r; cbn beta iota in Hr;
          [ destruct Hr as ((? & ? & ? & ->) & Hc)
          | destruct Hr as [(-> & Hc) | (? & ? & ? & ? & -> & Hc)] ]
      end;
      open_counts Hc
  end.

Ltac placeholder_known :=
  unfold placeholder_results;
  repeat match goal with
         | H : PyStr.contains _ _ = _ |- _ => rewrite H
         end;
  first [reflexivity | discriminate].

(** One iteration of the retry loop, begun without driver, browser or
    results. *)
Lemma search_attempt_ledger (env : Env) (site_url movie_name : string) (attempt : nat)
    (c0 p0 : option handle) (t : Trace) :
  outcome_sat
    (search_attempt env site_url movie_name attempt (mkFrame None None c0 p0 []) t)
    (fun r f' t' => exists new, t' = t ++ new /\ navigates_only_to site_url new /\
       ((exists pw b c p,
            r = Returns Break /\
            f' = mkFrame (Some pw) (Some b) (Some c) (Some p)
                   (placeholder_results site_url movie_name) /\
            placeholder_results site_url movie_name <> [] /\
            session_counts new 1 0)
        \/
        (exists c p n,
            r = Returns Next /\ f' = mkFrame None None c p [] /\
            (attempt < max_retries)%nat /\ session_counts new n n /\ (n <= 1)%nat)
        \/
        (r = Returns Break /\ (max_retries <= attempt)%nat /\
         ((exists pw b c p, f' = mkFrame (Some pw) (Some b) (Some c) (Some p) [] /\
                            session_counts new 1 0)
          \/ exists c p, f' = mkFrame None None c p [] /\ session_counts new 0 0)))).
Proof.
  unfold search_attempt, discard_session, scrape_dummy_results, looks_redirected.
  exec.
  all: eexists; (split; [normalize_trace; reflexivity |]).
  all: split; [navigation_is |].
  all: first
         [ solve [ left; eexists _, _, _, _; split; [reflexivity |];
                   split; [f_equal; placeholder_known |];
                   split; [placeholder_known | session_counts_are] ]
         | solve [ right; left; eexists _, _, _; split; [reflexivity |];
                   split; [reflexivity |]; split; [attempt_facts |];
                   split; [session_counts_are | cbn [Nat.add]; lia] ]
         | solve [ right; right; split; [reflexivity |];
                   split; [attempt_facts |];
                   first [ left; eexists _, _, _, _; split; [reflexivity |];
                           session_counts_are
                         | right; eexists _, _; split; [reflexivity |];
                           session_counts_are ] ] ].
Qed.

Ltac exec_hook x ::=
  lazymatch x with
  | close_playwright_resources ?env (Some ?b) (Some ?c) ?flag tt ?t =>
      exec_use (close_spec env b c flag t) x;
      match goal with
      | H : exists e1 e2, _ = Returns tt /\ _ = _ ++ closing_trace _ _ e1 e2 |- _ =>
          destruct H as (? & ? & -> & ->)
      end
  | search_attempt ?env ?a ?b ?n (mkFrame None None ?c0 ?p0 []) ?t =>
      let Hnav := fresh "Hnav" in
      let Hne := fresh "Hne" in
      let Hc := fresh "Hc" in
      let Hlt := fresh "Hlt" in
      let Hn := fresh "Hn" in
      exec_use (search_attempt_ledger env a b n c0 p0 t) x;
      match goal with
      | H : exists new, _ = _ ++ new /\ _ |- _ =>
          destruct H as
            (? & -> & Hnav &
             [ (? & ? & ? & ? & -> & -> & Hne & Hc)
             | [ (? & ? & ? & -> & -> & Hlt & Hc & Hn)
               | (-> & Hlt & [(? & ? & ? & ? & -> & Hc) | (? & ? & -> & Hc)]) ] ])
      end;
      open_counts Hc
  end.

(** The whole search. *)
Lemma search_ledger (env : Env) (site_url movie_name : string) (t : Trace) :
  outcome_sat (search_movie_on_site env site_url movie_name tt t)
    (fun r _ t' => exists new, t' = t ++ new /\ navigates_only_to site_url new /\
       (exists n, session_counts new n n /\ (n <= 2)%nat) /\
       (r = Returns [] \/
        (r = Returns (placeholder_results site_url movie_name) /\
         placeholder_results site_url movie_name <> []))).
Proof.
  unfold search_movie_on_site, search_movie_on_site_body, max_retries.
  exec.
  all: try (unfold max_retries in *; lia).
  all: eexists; (split; [normalize_trace; reflexivity |]).
  all: split; [navigation_is |].
  all: split; [eexists; split; [session_counts_are | cbn [Nat.add]; lia] |].
  all: first [left; reflexivity | right; split; [reflexivity | assumption]].
Qed.

(** ** Sessions, navigations and results of the four operations *)

(** In every run of each of the four operations, [context.close()] and
    [browser.close()] are each called exactly once for every session
    that [get_playwright_page] handed over, whether the operation then
    went through, timed out or failed otherwise: at most one session
    for source discovery, option discovery and server resolution, at
    most two for the search. *)
Theorem handed_over_sessions_are_closed_once (env : Env) :
  (forall vglist_url t,
      exists r new n,
        get_movie_source_websites env vglist_url tt t = (Returns r, tt, t ++ new)
        /\ count_events handed_over new = n
        /\ count_calls is_context_close new = n
        /\ count_calls is_browser_close new = n /\ (n <= 1)%nat)
  /\
  (forall detail_page_url source_site t,
      exists r new n,
        get_movie_download_options env detail_page_url source_site tt t
        = (Returns r, tt, t ++ new)
        /\ count_events handed_over new = n
        /\ count_calls is_context_close new = n
        /\ count_calls is_browser_close new = n /\ (n <= 1)%nat)
  /\
  (forall site_url movie_name t,
      exists r new n,
        search_movie_on_site env site_url movie_name tt t = (Returns r, tt, t ++ new)
        /\ count_events handed_over new = n
        /\ count_calls is_context_close new = n
        /\ count_calls is_browser_close new = n /\ (n <= 2)%nat)
  /\
  (forall download_trigger_url source_site t,
      exists r new n,
        get_final_vcloud_download_link env download_trigger_url source_site tt t
        = (Returns r, tt, t ++ new)
        /\ count_events handed_over new = n
        /\ count_calls is_context_close new = n
        /\ count_calls is_browser_close new = n /\ (n <= 1)%nat).
Proof.
  split; [| split; [| split]].
  - intros url t.
    destruct (outcome_sat_elim _ _ (source_websites_ledger env url t))
      as (r & [] & t' & Heq & new & -> & _ &
          [(-> & Hh & Hc & Hb & _) | (-> & Hh & Hc & Hb & _)]).
    + exists DUMMY_SOURCE_SITES, new, 1%nat. repeat split; eauto.
    + exists [], new, 0%nat. repeat split; eauto.
  - intros url site t.
    destruct (outcome_sat_elim _ _ (download_options_ledger env url site t))
      as (r & [] & t' & Heq & new & -> & _ &
          [(-> & (Hh & Hc & Hb & _) & _)
          | [(-> & (Hh & Hc & Hb & _) & _) | (-> & (Hh & Hc & Hb & _) & _)]]).
    + eexists _, new, 1%nat. repeat split; eauto.
    + eexists _, new, 1%nat. repeat split; eauto.
    + eexists _, new, 0%nat. repeat split; eauto.
  - intros site movie t.
    destruct (outcome_sat_elim _ _ (search_ledger env site movie t))
      as (r & [] & t' & Heq & new & -> & _ & (n & (Hh & Hc & Hb & _) & Hn) & Hr).
    assert (exists res, r = Returns res) as [res ->]
      by (destruct Hr as [-> | [-> _]]; eauto).
    exists res, new, n. repeat split; eauto.
  - intros url site t.
    destruct (outcome_sat_elim _ _ (resolve_ledger env url site t))
      as (r & [] & t' & Heq & new & -> & _ & _ & (n & (Hh & Hc & Hb & _) & Hn)
          & o & -> & _).
    exists o, new, n. repeat split; eauto.
Qed.

(** No run of any of the four operations calls [playwright.stop()]:
    the driver an operation started is still running when it
    returns. *)
Theorem driver_is_never_stopped (env : Env) :
  (forall vglist_url t,
      exists r new,
        get_movie_source_websites env vglist_url tt t = (Returns r, tt, t ++ new)
        /\ count_calls is_stop new = 0%nat)
  /\
  (forall detail_page_url source_site t,
      exists r new,
        get_movie_download_options env detail_page_url source_site tt t
        = (Returns r, tt, t ++ new)
        /\ count_calls is_stop new = 0%nat)
  /\
  (forall site_url movie_name t,
      exists r new,
        search_movie_on_site env site_url movie_name tt t = (Returns r, tt, t ++ new)
        /\ count_calls is_stop new = 0%nat)
  /\
  (forall download_trigger_url source_site t,
      exists r new,
        get_final_vcloud_download_link env download_trigger_url source_site tt t
        = (Returns r, tt, t ++ new)
        /\ count_calls is_stop new = 0%nat).
Proof.
  split; [| split; [| split]].
  - intros url t.
    destruct (outcome_sat_elim _ _ (source_websites_ledger env url t))
      as (r & [] & t' & Heq & new & -> & _ &
          [(-> & _ & _ & _ & Hs) | (-> & _ & _ & _ & Hs)]); eauto.
  - intros url site t.
    destruct (outcome_sat_elim _ _ (download_options_ledger env url site t))
      as (r & [] & t' & Heq & new & -> & _ &
          [(-> & (_ & _ & _ & Hs) & _)
          | [(-> & (_ & _ & _ & Hs) & _) | (-> & (_ & _ & _ & Hs) & _)]]); eauto.
  - intros site movie t.
    destruct (outcome_sat_elim _ _ (search_ledger env site movie t))
      as (r & [] & t' & Heq & new & -> & _ & (n & (_ & _ & _ & Hs) & _) & Hr).
    destruct Hr as [-> | [-> _]]; eauto.
  - intros url site t.
    destruct (outcome_sat_elim _ _ (resolve_ledger env url site t))
      as (r & [] & t' & Heq & new & -> & _ & _ & (n & (_ & _ & _ & Hs) & _)
          & o & -> & _).
    eauto.
Qed.

(** The operations navigate nowhere but to the URL they were given:
    source discovery does not navigate at all (its URL goes to the log
    only), option discovery and server resolution call [page.goto] at
    most once, with their URL, and every [page.goto] of the search
    goes to the site's URL. *)
Theorem operations_navigate_only_to_their_url (env : Env) :
  (forall vglist_url t,
      exists r new,
        get_movie_source_websites env vglist_url tt t = (Returns r, tt, t ++ new)
        /\ count_calls is_goto new = 0%nat)
  /\
  (forall detail_page_url source_site t,
      exists r new,
        get_movie_download_options env detail_page_url source_site tt t
        = (Returns r, tt, t ++ new)
        /\ navigates_only_to detail_page_url new
        /\ (count_calls is_goto new <= 1)%nat)
  /\
  (forall site_url movie_name t,
      exists r new,
        search_movie_on_site env site_url movie_name tt t = (Returns r, tt, t ++ new)
        /\ navigates_only_to site_url new)
  /\
  (forall download_trigger_url source_site t,
      exists r new,
        get_final_vcloud_download_link env download_trigger_url source_site tt t
        = (Returns r, tt, t ++ new)
        /\ navigates_only_to download_trigger_url new
        /\ (count_calls is_goto new <= 1)%nat).
Proof.
  split; [| split; [| split]].
  - intros url t.
    destruct (outcome_sat_elim _ _ (source_websites_ledger env url t))
      as (r & [] & t' & Heq & new & -> & Hg & [(-> & _) | (-> & _)]); eauto.
  - intros url site t.
    destruct (outcome_sat_elim _ _ (download_options_ledger env url site t))
      as (r & [] & t' & Heq & new & -> & Hnav &
          [(-> & _ & Hg & _) | [(-> & _ & Hg & _) | (-> & _ & Hg & _)]]);
      eexists _, new; (split; [exact Heq |]); (split; [exact Hnav | lia]).
  - intros site movie t.
    destruct (outcome_sat_elim _ _ (search_ledger env site movie t))
      as (r & [] & t' & Heq & new & -> & Hnav & _ & Hr).
    destruct Hr as [-> | [-> _]]; eauto.
  - intros url site t.
    destruct (outcome_sat_elim _ _ (resolve_ledger env url site t))
      as (r & [] & t' & Heq & new & -> & Hnav & Hg & _ & o & -> & _).
    eauto.
Qed.

(** Source discovery returns the two placeholder sites exactly when
    [get_playwright_page] handed it a session, and the empty list
    otherwise; the URL it is given has no part in the result. *)
Theorem source_discovery_returns_the_placeholder_sites
    (env : Env) (vglist_url : string) (t : Trace) :
  exists r new,
    get_movie_source_websites env vglist_url tt t = (Returns r, tt, t ++ new)
    /\ ((r = DUMMY_SOURCE_SITES /\ count_events handed_over new = 1%nat)
        \/ (r = [] /\ count_events handed_over new = 0%nat)).
Proof.
  destruct (outcome_sat_elim _ _ (source_websites_ledger env vglist_url t))
    as (r & [] & t' & Heq & new & -> & _ & [(-> & Hh & _) | (-> & Hh & _)]).
  - exists DUMMY_SOURCE_SITES, new. auto.
  - exists [], new. auto.
Qed.

Lemma prefix_append (a b : string) : String.prefix a (a ++ b) = true.
Proof.
  induction a as [|c a IH]; [destruct b; reflexivity |].
  change (String c a ++ b)%string with (String c (a ++ b)).
  cbn [String.prefix]. rewrite IH.
  destruct (ascii_dec c c); [reflexivity | congruence].
Qed.

Lemma not_both (P : Event -> bool) (new : Trace) :
  Forall (fun ev => P ev = false) new -> Exists (fun ev => P ev = true) new -> False.
Proof.
  intros Hall Hex. apply List.Exists_exists in Hex as (ev & Hin & Hev).
  rewrite List.Forall_forall in Hall. rewrite (Hall ev Hin) in Hev. discriminate.
Qed.

(** Option discovery returns the empty list or the placeholder options
    of the source site (two for an alpha site, one for a beta site, none
    for any other site); it returns these options whenever no call
    other than a release raised.  The trigger URL of every option
    begins with the URL of the detail page. *)
Theorem download_options_are_the_placeholders
    (env : Env) (detail_page_url source_site : string) (t : Trace) :
  exists r new,
    get_movie_download_options env detail_page_url source_site tt t
    = (Returns r, tt, t ++ new)
    /\ (r = [] \/ r = placeholder_options detail_page_url source_site)
    /\ (Forall (fun ev => raised_while_scraping ev = false) new ->
        r = placeholder_options detail_page_url source_site)
    /\ Forall (fun o => String.prefix detail_page_url (download_trigger_url o) = true) r
    /\ (length r <= 2)%nat.
Proof.
  assert (Forall (fun o => String.prefix detail_page_url (download_trigger_url o) = true)
            (placeholder_options detail_page_url source_site)
          /\ (length (placeholder_options detail_page_url source_site) <= 2)%nat)
    as [Hprefix Hlen].
  { unfold placeholder_options, alpha_options, beta_option.
    destruct (PyStr.contains "dummy-movie-site-alpha" source_site);
      [| destruct (PyStr.contains "dummy-movie-site-beta" source_site)];
      (split; [repeat constructor; apply prefix_append | cbn; lia]). }
  destruct (outcome_sat_elim _ _
              (download_options_ledger env detail_page_url source_site t))
    as (r & [] & t' & Heq & new & -> & _ &
        [(-> & _) | [(-> & _ & _ & Hex) | (-> & _ & _ & Hex)]]);
    eexists _, new; (split; [exact Heq |]).
  - auto.
  - split; [left; reflexivity |].
    split; [intros Hall; destruct (not_both _ _ Hall Hex) |].
    split; [constructor | cbn; lia].
  - split; [left; reflexivity |].
    split; [intros Hall; destruct (not_both _ _ Hall Hex) |].
    split; [constructor | cbn; lia].
Qed.

Lemma prefix_of_append (p q s : string) :
  String.prefix (p ++ q) s = true -> String.prefix p s = true.
Proof.
  revert s. induction p as [|c p IH]; intros s; [destruct s; reflexivity |].
  change (String c p ++ q)%string with (String c (p ++ q)).
  destruct s as [|d s]; cbn [String.prefix]; [discriminate |].
  destruct (ascii_dec c d); [apply IH | discriminate].
Qed.

Lemma contains_shorter (p q s : string) :
  PyStr.contains (p ++ q) s = true -> PyStr.contains p s = true.
Proof.
  induction s as [|d s IH]; cbn [PyStr.contains]; intros H;
    apply orb_true_iff in H as [H | H]; try discriminate.
  - rewrite (prefix_of_append _ _ _ H). reflexivity.
  - rewrite (prefix_of_append _ _ _ H). reflexivity.
  - rewrite (IH H). apply orb_true_r.
Qed.

(** The search returns at most one result.  Every result names the
    site searched as its source, has its detail page under the site's
    URL and a title that begins with the movie name, and comes from a
    site of the placeholder families, for which the server resolution
    falls back to the dummy link.  For a movie name of ASCII
    characters the search returns the empty list or exactly the
    placeholder result of the site (for an alpha or a beta site;
    nothing for any other site). *)
Theorem search_results_come_from_the_site
    (env : Env) (site_url movie_name : string) (t : Trace) :
  exists r new,
    search_movie_on_site env site_url movie_name tt t = (Returns r, tt, t ++ new)
    /\ (PyStr.isascii movie_name = true ->
        r = [] \/ r = placeholder_results site_url movie_name)
    /\ (length r <= 1)%nat
    /\ Forall (fun x => source_site x = site_url
                        /\ String.prefix site_url (detail_page_url x) = true
                        /\ String.prefix movie_name (title x) = true
                        /\ is_placeholder_site (source_site x) = true) r.
Proof.
  assert ((length (placeholder_results site_url movie_name) <= 1)%nat
          /\ Forall (fun x => source_site x = site_url
                              /\ String.prefix site_url (detail_page_url x) = true
                              /\ String.prefix movie_name (title x) = true
                              /\ is_placeholder_site (source_site x) = true)
               (placeholder_results site_url movie_name))
    as [Hlen Hall].
  { unfold placeholder_results, alpha_result, beta_result, is_placeholder_site.
    destruct (PyStr.contains "dummy-movie-site-alpha" site_url) eqn:Ha;
      [| destruct (PyStr.contains "dummy-movie-site-beta" site_url) eqn:Hb].
    - split; [cbn; lia |]. repeat constructor; cbn [source_site detail_page_url title].
      + apply prefix_append.
      + apply prefix_append.
      + rewrite (contains_shorter "dummy-movie-site" "-alpha" site_url Ha). reflexivity.
    - split; [cbn; lia |]. repeat constructor; cbn [source_site detail_page_url title].
      + apply prefix_append.
      + apply prefix_append.
      + rewrite (contains_shorter "dummy-movie-site" "-beta" site_url Hb). reflexivity.
    - split; [cbn; lia | constructor]. }
  destruct (outcome_sat_elim _ _ (search_ledger env site_url movie_name t))
    as (r & [] & t' & Heq & new & -> & _ & _ & [-> | [-> _]]);
    eexists _, new; (split; [exact Heq |]).
  - split; [left; reflexivity |]. split; [cbn; lia | constructor].
  - auto.
Qed.

(** Whatever link the server resolution returns is a non-empty string
    that ends in .mp4, .mkv, .avi or .webm or contains
    googlevideo.com/videoplayback; this holds for the dummy link of the
    placeholder sites as well. *)
Theorem resolved_link_looks_like_media
    (env : Env) (download_trigger_url source_site : string) (t : Trace) :
  exists r new,
    get_final_vcloud_download_link env download_trigger_url source_site tt t
    = (Returns r, tt, t ++ new)
    /\ forall link, r = Some link ->
                    PyStr.truthy link = true /\ looks_like_media link = true.
Proof.
  destruct (outcome_sat_elim _ _
              (resolve_ledger env download_trigger_url source_site t))
    as (r & [] & t' & Heq & new & -> & _ & _ & _ & o & -> & Ho).
  exists o, new. split; [exact Heq |].
  intros link ->. exact Ho.
Qed.

(** [close_playwright_resources] returns whatever its calls do: it
    calls [context.close()] if it was given a context and then
    [browser.close()] if it was given a browser, the second also when
    the first raised, and it never stops the driver.  Its third
    argument has no effect. *)
Theorem close_playwright_resources_always_returns
    (env : Env) (browser context : option handle) (flag : bool) (t : Trace) :
  exists new,
    close_playwright_resources env browser context flag tt t = (Returns tt, tt, t ++ new)
    /\ count_calls is_context_close new = (if is_set context then 1 else 0)%nat
    /\ count_calls is_browser_close new = (if is_set browser then 1 else 0)%nat
    /\ count_calls is_stop new = 0%nat
    /\ (forall b c, browser = Some b -> context = Some c ->
        exists e1 e2, new = closing_trace c b e1 e2)
    /\ close_playwright_resources env browser context (negb flag) tt t
       = close_playwright_resources env browser context flag tt t.
Proof.
  enough (outcome_sat (close_playwright_resources env browser context flag tt t)
            (fun r _ t' => exists new,
               r = Returns tt /\ t' = t ++ new
               /\ count_calls is_context_close new = (if is_set context then 1 else 0)%nat
               /\ count_calls is_browser_close new = (if is_set browser then 1 else 0)%nat
               /\ count_calls is_stop new = 0%nat)) as Hsat.
  { destruct (outcome_sat_elim _ _ Hsat)
      as (r & [] & t' & Heq & new & -> & -> & Hc & Hb & Hs).
    exists new. repeat split; try assumption.
    intros b c -> ->.
    destruct (outcome_sat_elim _ _ (close_spec env b c flag t))
      as (r & [] & t' & Heq' & e1 & e2 & _ & Ht).
    rewrite Heq in Heq'. injection Heq' as _ <-. apply app_inv_head in Ht.
    eauto. }
  unfold close_playwright_resources.
  destruct browser as [b|], context as [c|]; exec.
  all: eexists; split; [reflexivity |].
  all: split; [first [normalize_trace; reflexivity | symmetry; apply app_nil_r] |].
  all: cbn [is_set]; split; [count_is | split; count_is].
Qed.

(** [get_playwright_page] starts a driver exactly when it was given
    none, and hands back the driver it was given.  It releases
    nothing: when one of its calls raises, it raises that exception at
    once and makes no further call, so whatever was started or launched
    before stays as it is. *)
Theorem get_playwright_page_releases_nothing
    (env : Env) (context_options : option (list (string * optval)))
    (playwright_instance : option handle) (t : Trace) :
  exists r new,
    get_playwright_page env context_options playwright_instance tt t = (r, tt, t ++ new)
    /\ count_calls is_release new = 0%nat
    /\ count_calls is_start new = (if is_set playwright_instance then 0 else 1)%nat
    /\ (forall pw b c p,
           r = Returns (pw, b, c, p) ->
           count_events handed_over new = 1%nat
           /\ forall given, playwright_instance = Some given -> pw = given)
    /\ (forall e,
           r = Raises e ->
           count_events handed_over new = 0%nat
           /\ exists pre c, new = pre ++ [mkEvent c (Some e)]).
Proof.
  enough (outcome_sat (get_playwright_page env context_options playwright_instance tt t)
            (fun r _ t' => exists new,
               t' = t ++ new
               /\ count_calls is_release new = 0%nat
               /\ count_calls is_start new
                  = (if is_set playwright_instance then 0 else 1)%nat
               /\ (forall pw b c p,
                      r = Returns (pw, b, c, p) ->
                      count_events handed_over new = 1%nat
                      /\ forall given, playwright_instance = Some given -> pw = given)
               /\ (forall e,
                      r = Raises e ->
                      count_events handed_over new = 0%nat
                      /\ exists pre c, new = pre ++ [mkEvent c (Some e)]))) as Hsat.
  { destruct (outcome_sat_elim _ _ Hsat) as (r & [] & t' & Heq & new & -> & H).
    exists r, new. split; [exact Heq | exact H]. }
  unfold get_playwright_page.
  destruct playwright_instance as [given|]; exec.
  all: eexists; (split; [first [normalize_trace; reflexivity | symmetry; apply app_nil_r] |]).
  all: cbn [is_set]; split; [count_is |]; split; [count_is |].
  all: split;
    [ first [ intros ? ? ? ? ?; discriminate
            | intros ? ? ? ? [= <- <- <- <-]; split; [count_is |];
              first [intros ? [= <-]; reflexivity | intros ? ?; discriminate] ]
    | first [ intros ? ?; discriminate
            | intros ? [= <-]; split; [count_is |];
              lazymatch goal with
              | |- exists pre c, ?new = _ =>
                  exists (removelast new),
                         (ev_call (List.last new (mkEvent PlaywrightStart None)));
                  cbn [removelast List.last app ev_call]; reflexivity
              end ] ].
Qed.

(** For a source site outside the placeholder families the result of
    the server resolution is never made up: it is absent, or it is the
    link that a step of the tier search reported as found. *)
Theorem other_sites_get_no_dummy_link
    (env : Env) (download_trigger_url source_site : string) (t : Trace) :
  is_placeholder_site source_site = false ->
  exists r new,
    get_final_vcloud_download_link env download_trigger_url source_site tt t
    = (Returns r, tt, t ++ new)
    /\ (r = None
        \/ exists before ev after, new = before ++ ev :: after /\ yields ev = r).
Proof.
  intros Hsite.
  destruct (outcome_sat_elim _ _
              (resolve_spec env download_trigger_url source_site t))
    as (r & [] & t' & Heq & new & -> & Hcases).
  rewrite Hsite in Hcases.
  destruct Hcases as
    [(-> & _)
    | (pre0 & rest & -> & _ & _ & _ & _ &
       [(-> & _) | (l & before & ev0 & after & -> & Hnew & Hy & _)])].
  - exists None, new. auto.
  - eexists None, _. split; [exact Heq | left; reflexivity].
  - eexists (Some l), _. split; [exact Heq |]. right. eauto.
Qed.

Lemma other_sites_get_no_dummy_link_witness :
  is_placeholder_site "https://movies.example.org" = false
  /\ exists r new,
       get_final_vcloud_download_link env_only_10gbps
         "https://movies.example.org/watch/1/download" "https://movies.example.org" tt []
       = (Returns r, tt, [] ++ new)
       /\ (r = None
           \/ exists before ev after, new = before ++ ev :: after /\ yields ev = r).
Proof.
  split; [reflexivity |].
  apply (other_sites_get_no_dummy_link env_only_10gbps). reflexivity.
Defined.

(** ** Filling and submitting the search form *)

Ltac fills_are :=
  unfold fills_with in *; each_event; first [exact I | reflexivity | assumption].

Ltac exec_hook x ::=
  lazymatch x with
  | fill_generic_inputs ?env ?a ?b ?inputs ?s ?t1 =>
      match goal with
      | IH : context [fill_generic_inputs] |- _ =>
          let Hw := fresh "Hw" in
          let Hn := fresh "Hn" in
          exec_use (IH t1) x;
          match goal with
          | H : exists new, _ = _ ++ new /\ _ |- _ => destruct H as (? & -> & -> & Hw & Hn)
          end
      end
  end.

Lemma fill_generic_inputs_fills_one (env : Env) {S} (site_url movie_name : string)
    (inputs : list handle) (s : S) (t : Trace) :
  outcome_sat (fill_generic_inputs env site_url movie_name inputs s t)
    (fun r s' t' => exists new, t' = t ++ new /\ s' = s /\
       fills_with movie_name new /\
       count_events filled_in new
       = match r with Returns true => 1%nat | _ => 0%nat end).
Proof.
  revert t. induction inputs as [|el inputs IH]; intros t.
  - exists []. rewrite app_nil_r. repeat split; constructor.
  - cbn [fill_generic_inputs]. exec.
    all: eexists; (split; [normalize_trace; reflexivity |]); split; [reflexivity |].
    all: split; [fills_are | count_is].
Qed.

Ltac exec_hook x ::=
  lazymatch x with
  | fill_generic_inputs ?env ?a ?b ?inputs ?s ?t1 =>
      let Hw := fresh "Hw" in
      let Hn := fresh "Hn" in
      exec_use (fill_generic_inputs_fills_one env a b inputs s t1) x;
      match goal with
      | H : exists new, _ = _ ++ new /\ _ |- _ => destruct H as (? & -> & -> & Hw & Hn)
      end
  end.

(** [fill_search_bar] returns exactly when one [fill] went through:
    that of the search bar or, after its timeout, that of the first
    visible generic input that takes it; no other [fill] goes through,
    and none does when it raises.  Every [fill] types the movie
    name. *)
Theorem fill_search_bar_fills_once
    (env : Env) {S} (p : handle) (site_url movie_name : string) (s : S) (t : Trace) :
  exists r new,
    fill_search_bar env p site_url movie_name s t = (r, s, t ++ new)
    /\ fills_with movie_name new
    /\ count_events filled_in new
       = match r with Returns _ => 1%nat | Raises _ => 0%nat end.
Proof.
  enough (outcome_sat (fill_search_bar env p site_url movie_name s t)
            (fun r s' t' => exists new, t' = t ++ new /\ s' = s /\
               fills_with movie_name new /\
               count_events filled_in new
               = match r with Returns _ => 1%nat | Raises _ => 0%nat end)) as Hsat.
  { destruct (outcome_sat_elim _ _ Hsat) as (r & s' & t' & Heq & new & -> & -> & H).
    exists r, new. split; [exact Heq | exact H]. }
  unfold fill_search_bar. exec.
  all: eexists; (split; [normalize_trace; reflexivity |]); split; [reflexivity |].
  all: split; [fills_are | count_is].
Qed.

(** [submit_search] presses Enter once.  It clicks the search button
    only when pressing Enter raised, and then once; a timeout of that
    click is logged and swallowed.  So it raises only what the click
    raised, and never a timeout. *)
Theorem submit_search_raises_no_timeout
    (env : Env) {S} (p : handle) (site_url : string) (s : S) (t : Trace) :
  exists r new,
    submit_search env p site_url s t = (r, s, t ++ new)
    /\ count_calls is_press_enter new = 1%nat
    /\ (count_calls is_click new <= 1)%nat
    /\ (count_calls is_click new = 1%nat ->
        exists e_key, In (mkEvent (KeyboardPress p "Enter") (Some e_key)) new)
    /\ (forall e, r = Raises e ->
        exists msg loc timeout force,
          e = Exception msg
          /\ In (mkEvent (LocatorClick loc timeout force) (Some e)) new).
Proof.
  enough (outcome_sat (submit_search env p site_url s t)
            (fun r s' t' => exists new, t' = t ++ new /\ s' = s
               /\ count_calls is_press_enter new = 1%nat
               /\ (count_calls is_click new <= 1)%nat
               /\ (count_calls is_click new = 1%nat ->
                   exists e_key, In (mkEvent (KeyboardPress p "Enter") (Some e_key)) new)
               /\ (forall e, r = Raises e ->
                   exists msg loc timeout force,
                     e = Exception msg
                     /\ In (mkEvent (LocatorClick loc timeout force) (Some e)) new)))
    as Hsat.
  { destruct (outcome_sat_elim _ _ Hsat) as (r & s' & t' & Heq & new & -> & -> & H).
    exists r, new. split; [exact Heq | exact H]. }
  unfold submit_search. exec.
  all: eexists; (split; [normalize_trace; reflexivity |]); split; [reflexivity |].
  all: split; [count_is |]; split; [count_is |].
  all: split; [ first [ intros _; eexists; cbn; tauto
                      | cbn; discriminate ] |].
  all: first [ intros ? ?; discriminate
             | intros ? [= <-]; eexists _, _, _, _; split; [reflexivity | cbn; tauto] ].
Qed.
